(** * Slapbook: the derived-analytics core of the activity pages

    A shallow embedding of the pure computations of
    [src/app/profile/[username]/page.tsx] (single profile: [weeklyTotals],
    [streak]) and of the activity dashboard concatenated into
    [src/app/post/[id]/page.tsx] ([weeklyLogs], [totalsByUser], [maxBar],
    [streakByUser], the bar percentage [pct]), together with the two helpers
    both pages share, [startOfWeekMondayLocal] and [dateKeyLocal].

    Platform values are modelled as ECMAScript has them:
    - a [number] is an IEEE-754 binary64 value, here [spec_float] with
      precision 53 and maximal exponent 1024, rounded to nearest-even;
    - a [Date] is a time value, an integral number of milliseconds since the
      epoch, or Invalid Date;
    - an ordinary object used as a dictionary keeps its insertion order,
      except that array-index keys are enumerated first, in numeric order,
      and a property access on it also finds what it inherits from
      [Object.prototype];
    - the viewer's time zone is any function from times to offsets, read as
      ECMAScript reads it; what a statement needs of the zone is a
      hypothesis of that statement. *)

From Stdlib Require Import ZArith Lia Bool List String Ascii Permutation.
From Stdlib Require Import Floats.SpecFloat.
From Stdlib Require Import DecimalString DecimalZ DecimalPos.
From Stdlib Require Lists.Finite.
Import ListNotations.

#[local] Open Scope Z_scope.

(** ** The ECMAScript calendar (ECMA-262, 21.4.1) *)

Module EsDate.

Definition msPerDay : Z := 86400000.

Definition Day (t : Z) : Z := t / msPerDay.
Definition TimeWithinDay (t : Z) : Z := t mod msPerDay.

Definition DayFromYear (y : Z) : Z :=
  365 * (y - 1970) + (y - 1969) / 4 - (y - 1901) / 100 + (y - 1601) / 400.

Definition isLeap (y : Z) : bool :=
  ((y mod 4 =? 0) && negb (y mod 100 =? 0)) || (y mod 400 =? 0).

Definition InLeapYear (y : Z) : Z := if isLeap y then 1 else 0.

Definition DaysInYear (y : Z) : Z := 365 + InLeapYear y.

(** [YearFromDay d] is the year [y] with
    [DayFromYear y <= d < DayFromYear (y + 1)] (lemmas [YearFromDay_spec] and
    [YearFromDay_unique]): the mean year length 146097/400 gives an estimate
    that is off by at most one, which the two tests correct. *)
Definition YearFromDay (d : Z) : Z :=
  let y0 := 1970 + (400 * d) / 146097 in
  if d <? DayFromYear y0 then y0 - 1
  else if DayFromYear (y0 + 1) <=? d then y0 + 1
  else y0.

Definition YearFromTime (t : Z) : Z := YearFromDay (Day t).

Definition DayWithinYear (t : Z) : Z := Day t - DayFromYear (YearFromTime t).

(** First day-within-year of month [m] (0 = January), for a year whose leap
    flag is [leap]. *)
Definition monthStart (leap m : Z) : Z :=
  match m with
  | 0 => 0
  | 1 => 31
  | 2 => 59 + leap
  | 3 => 90 + leap
  | 4 => 120 + leap
  | 5 => 151 + leap
  | 6 => 181 + leap
  | 7 => 212 + leap
  | 8 => 243 + leap
  | 9 => 273 + leap
  | 10 => 304 + leap
  | _ => 334 + leap
  end.

Definition monthOfDay (leap d : Z) : Z :=
  if d <? 31 then 0
  else if d <? 59 + leap then 1
  else if d <? 90 + leap then 2
  else if d <? 120 + leap then 3
  else if d <? 151 + leap then 4
  else if d <? 181 + leap then 5
  else if d <? 212 + leap then 6
  else if d <? 243 + leap then 7
  else if d <? 273 + leap then 8
  else if d <? 304 + leap then 9
  else if d <? 334 + leap then 10
  else 11.

Definition MonthFromTime (t : Z) : Z :=
  monthOfDay (InLeapYear (YearFromTime t)) (DayWithinYear t).

Definition DateFromTime (t : Z) : Z :=
  let leap := InLeapYear (YearFromTime t) in
  DayWithinYear t - monthStart leap (MonthFromTime t) + 1.

Definition WeekDay (t : Z) : Z := (Day t + 4) mod 7.

(** [MakeDay year month date] for a month already in 0..11: the day number of
    the first of the month, plus [date - 1]. *)
Definition MakeDay (year month date : Z) : Z :=
  DayFromYear year + monthStart (InLeapYear year) month + date - 1.

Definition MakeTime (hour min sec ms : Z) : Z :=
  hour * 3600000 + min * 60000 + sec * 1000 + ms.

Definition MakeDate (day time : Z) : Z := day * msPerDay + time.

End EsDate.

(** ** Numbers: IEEE-754 binary64 *)

Module JsNumber.

Definition prec : Z := 53.
Definition emax : Z := 1024.

Definition number : Type := spec_float.

Definition NaN : number := S754_nan.

(** The Number value of an integer literal or of an integer result. *)
Definition of_Z (n : Z) : number := binary_normalize prec emax n 0 false.

Definition add : number -> number -> number := SFadd prec emax.
Definition mul : number -> number -> number := SFmul prec emax.
Definition div : number -> number -> number := SFdiv prec emax.

(** The relational operators; each is false as soon as an operand is NaN. *)
Definition lt (x y : number) : bool := SFltb x y.
Definition le (x y : number) : bool := SFleb x y.
Definition gt (x y : number) : bool := SFltb y x.
Definition ge (x y : number) : bool := SFleb y x.

(** [x === y] on numbers. *)
Definition strict_eq (x y : number) : bool := SFeqb x y.

Definition is_nan (x : number) : bool :=
  match x with S754_nan => true | _ => false end.

(** [Math.max(...args)]: NaN as soon as an argument is NaN, otherwise the
    largest argument, starting from minus infinity, with [+0] above [-0]. *)
Definition max_step (highest x : number) : number :=
  match highest, x with
  | S754_zero true, S754_zero false => x
  | _, _ => if gt x highest then x else highest
  end.

Definition Math_max (args : list number) : number :=
  if existsb is_nan args then NaN
  else fold_left max_step args (S754_infinity true).

(** [Math.round x]: [x] itself when it is not finite or already integral,
    otherwise the integer closest to [x], the larger one on a tie, which is
    [floor (x + 1/2)] computed exactly; a zero result keeps the sign of [x]. *)
Definition Math_round (x : number) : number :=
  match x with
  | S754_finite s m e =>
      if 0 <=? e then x
      else
        let den := 2 ^ (- e) in
        let num := if s then - Z.pos m else Z.pos m in
        let n := (2 * num + den) / (2 * den) in
        if n =? 0 then S754_zero s else of_Z n
  | _ => x
  end.

(** The numbers that are integers between [lo] and [hi]. *)
Definition integer_between (lo hi : Z) (x : number) : Prop :=
  exists k : Z, lo <= k <= hi /\ x = of_Z k.

(** Finite and not negative: what a stored [minutes] value is, and what sums
    of such values are as long as they do not overflow. *)
Definition finite_nonneg (x : number) : bool :=
  match x with
  | S754_zero false => true
  | S754_finite false m e => SpecFloat.bounded prec emax m e
  | _ => false
  end.

(** The sign bit is clear (or the value is NaN): preserved by [add]. *)
Definition sign_clear (x : number) : bool :=
  match x with
  | S754_zero s | S754_infinity s | S754_finite s _ _ => negb s
  | S754_nan => true
  end.

End JsNumber.

(** ** Strings of integers *)

Module JsString.

#[local] Open Scope string_scope.

(** [String(n)] for an integral number, [None] standing for NaN. *)
Definition ToString (n : option Z) : string :=
  match n with
  | Some z => NilZero.string_of_int (Z.to_int z)
  | None => "NaN"
  end.

(** [s.padStart(2, "0")]. *)
Definition padStart2 (s : string) : string :=
  match String.length s with
  | O => "00"
  | S O => "0" ++ s
  | _ => s
  end.

(** The integer a decimal string denotes, leading zeros allowed. *)
Definition parse_int (s : string) : option Z :=
  option_map Z.of_int (NilZero.int_of_string s).

End JsString.

(** ** Ordinary objects used as dictionaries, and [Set] *)

Module JsObject.

(** The own properties in creation order, each key once. *)
Definition obj (V : Type) : Type := list (string * V).

Section Ops.
Context {V : Type}.

Fixpoint get (o : obj V) (k : string) : option V :=
  match o with
  | [] => None
  | (k', v) :: o' => if String.eqb k' k then Some v else get o' k
  end.

(** [o[k] = v]: an existing property keeps its place, a new one goes last. *)
Fixpoint set (o : obj V) (k : string) (v : V) : obj V :=
  match o with
  | [] => [(k, v)]
  | (k', v') :: o' =>
      if String.eqb k' k then (k', v) :: o' else (k', v') :: set o' k v
  end.

(** An array index is the canonical decimal string of an integer in
    [0 .. 2^32 - 2]. *)
Definition array_index (k : string) : option Z :=
  match JsString.parse_int k with
  | Some n =>
      if String.eqb (JsString.ToString (Some n)) k
         && (0 <=? n) && (n <=? 4294967294)
      then Some n else None
  | None => None
  end.

Definition is_index (k : string) : bool :=
  match array_index k with Some _ => true | None => false end.

Definition index_of (k : string) : Z :=
  match array_index k with Some n => n | None => 0 end.

Fixpoint insert_by_index (p : string * V) (l : list (string * V))
  : list (string * V) :=
  match l with
  | [] => [p]
  | q :: l' =>
      if index_of (fst p) <=? index_of (fst q) then p :: q :: l'
      else q :: insert_by_index p l'
  end.

Definition sort_by_index (l : list (string * V)) : list (string * V) :=
  fold_right insert_by_index [] l.

(** OrdinaryOwnPropertyKeys: the array indices in ascending numeric order,
    then the other string keys in ascending chronological order of
    creation. *)
Definition entries (o : obj V) : list (string * V) :=
  sort_by_index (filter (fun p => is_index (fst p)) o)
  ++ filter (fun p => negb (is_index (fst p))) o.

Definition keys (o : obj V) : list string := map fst (entries o).
Definition values (o : obj V) : list V := map snd (entries o).

End Ops.

(** A [Set] of strings: its elements in insertion order, each once. *)
Definition StringSet : Type := list string.

Definition set_has (s : StringSet) (k : string) : bool :=
  existsb (String.eqb k) s.

Definition set_add (s : StringSet) (k : string) : StringSet :=
  if set_has s k then s else s ++ [k].

(** The names of the members that every object literal inherits from
    [Object.prototype]. Each of them is a function or, for ["__proto__"],
    the prototype object itself: truthy, and without a method [add]. *)
Definition Object_prototype : list string :=
  ["constructor"; "__defineGetter__"; "__defineSetter__"; "hasOwnProperty";
   "__lookupGetter__"; "__lookupSetter__"; "isPrototypeOf";
   "propertyIsEnumerable"; "toString"; "valueOf"; "__proto__";
   "toLocaleString"]%string.

Definition inherits (k : string) : bool :=
  existsb (String.eqb k) Object_prototype.

(** What the property access [o[k]] finds on an object literal: an own
    property, a member inherited from [Object.prototype], or nothing
    ([undefined]). *)
Inductive found (V : Type) : Type :=
| Own (v : V)
| Inherited
| Missing.

Arguments Own {V} v.
Arguments Inherited {V}.
Arguments Missing {V}.

Definition lookup {V : Type} (o : obj V) (k : string) : found V :=
  match get o k with
  | Some v => Own v
  | None => if inherits k then Inherited else Missing
  end.

End JsObject.

(** ** The rows and the derived records *)

Module Profile.
Record profile : Type := { username : string; display_name : string }.
End Profile.

(** A row of [activity_logs] as the pages receive it. Types are erased at
    run time, so [category] is whatever string the store delivers, and
    [minutes] is [None] when the value is null (or anything whose [typeof] is
    not ["number"]). [occurred_at] holds the [Date] that
    [new Date(l.occurred_at)] constructs from the stored text. *)
Module ActivityRow.
Record row : Type := {
  id : string;
  user_id : string;
  category : string;
  title : option string;
  minutes : option JsNumber.number;
  occurred_at : option Z;
  profiles : option Profile.profile
}.
End ActivityRow.

(** The object [{ study, skill, exercise, all }], with the properties an
    assignment through an unlisted name would create kept in [stray].
    Categories named like a member that an object inherits from
    [Object.prototype] are outside the model. *)
Module Totals.
Record totals : Type := {
  study : JsNumber.number;
  skill : JsNumber.number;
  exercise : JsNumber.number;
  all : JsNumber.number;
  stray : JsObject.obj JsNumber.number
}.

#[local] Open Scope string_scope.

Definition empty : totals :=
  {| study := JsNumber.of_Z 0; skill := JsNumber.of_Z 0;
     exercise := JsNumber.of_Z 0; all := JsNumber.of_Z 0; stray := [] |}.

(** [x[k]] read as the left operand of [+=]: a missing property is
    [undefined], which converts to NaN. *)
Definition read (x : totals) (k : string) : JsNumber.number :=
  if String.eqb k "study" then study x
  else if String.eqb k "skill" then skill x
  else if String.eqb k "exercise" then exercise x
  else if String.eqb k "all" then all x
  else match JsObject.get (stray x) k with
       | Some v => v
       | None => JsNumber.NaN
       end.

Definition write (x : totals) (k : string) (v : JsNumber.number) : totals :=
  if String.eqb k "study" then
    {| study := v; skill := skill x; exercise := exercise x; all := all x;
       stray := stray x |}
  else if String.eqb k "skill" then
    {| study := study x; skill := v; exercise := exercise x; all := all x;
       stray := stray x |}
  else if String.eqb k "exercise" then
    {| study := study x; skill := skill x; exercise := v; all := all x;
       stray := stray x |}
  else if String.eqb k "all" then
    {| study := study x; skill := skill x; exercise := exercise x; all := v;
       stray := stray x |}
  else
    {| study := study x; skill := skill x; exercise := exercise x;
       all := all x; stray := JsObject.set (stray x) k v |}.

(** [x[k] += m]. *)
Definition add_assign (x : totals) (k : string) (m : JsNumber.number) : totals :=
  write x k (JsNumber.add (read x k) m).

(** The two statements [x[category] += m; x.all += m]. *)
Definition tally (x : totals) (category : string) (m : JsNumber.number) : totals :=
  add_assign (add_assign x category m) "all" m.

End Totals.

(** One entry of the dashboard's [map]: the identity of the owner and the
    four counters. A category named like one of the identity properties is
    outside the model. *)
Module Summary.
Record summary : Type := {
  user_id : string;
  display_name : string;
  username : string;
  counts : Totals.totals
}.

Definition study (u : summary) : JsNumber.number := Totals.study (counts u).
Definition skill (u : summary) : JsNumber.number := Totals.skill (counts u).
Definition exercise (u : summary) : JsNumber.number := Totals.exercise (counts u).
Definition all (u : summary) : JsNumber.number := Totals.all (counts u).

Definition with_counts (u : summary) (c : Totals.totals) : summary :=
  {| user_id := user_id u; display_name := display_name u;
     username := username u; counts := c |}.

End Summary.

(** ** The pages: what does not depend on the time zone *)

(** *** Time values, and integral numbers that may be NaN *)

(** A [Date] is its time value; [None] is Invalid Date, whose time value is
    NaN. The same convention serves for the integral numbers the [Date]
    methods return. Time values are taken inside the range in which
    [TimeClip] is the identity. *)
Definition Date : Type := option Z.

Definition num_add (x y : option Z) : option Z :=
  match x, y with Some a, Some b => Some (a + b) | _, _ => None end.

Definition num_sub (x y : option Z) : option Z :=
  match x, y with Some a, Some b => Some (a - b) | _, _ => None end.

Definition num_lt (x y : option Z) : bool :=
  match x, y with Some a, Some b => a <? b | _, _ => false end.

Definition num_ge (x y : option Z) : bool :=
  match x, y with Some a, Some b => b <=? a | _, _ => false end.

Definition num_strict_eq (x y : option Z) : bool :=
  match x, y with Some a, Some b => a =? b | _, _ => false end.

Definition getTime (d : Date) : option Z := d.

(** [typeof l.minutes === "number" ? l.minutes : 0]. *)
Definition minutes_or_zero (l : ActivityRow.row) : JsNumber.number :=
  match ActivityRow.minutes l with
  | Some n => n
  | None => JsNumber.of_Z 0
  end.

(** *** The profile page *)

(** [weekStartISO] stands for the time value that
    [new Date(weekStartISO).getTime()] reads back: the ISO text of the valid
    date [weekStart], which keeps its milliseconds. *)
Definition weeklyTotals (logs : list ActivityRow.row) (weekStartISO : Z)
  : Totals.totals :=
  fold_left
    (fun totals l =>
       if num_lt (getTime (ActivityRow.occurred_at l)) (Some weekStartISO)
       then totals
       else Totals.tally totals (ActivityRow.category l) (minutes_or_zero l))
    logs Totals.empty.

(** *** The activity dashboard *)

Definition weeklyLogs (logs : list ActivityRow.row) (weekStartISO : Z)
  : list ActivityRow.row :=
  filter
    (fun l => num_ge (getTime (ActivityRow.occurred_at l)) (Some weekStartISO))
    logs.

(** [l.profiles?.display_name ?? "Unknown"] and its companion, in the
    summary a new owner starts with. *)
Definition seed (l : ActivityRow.row) : Summary.summary :=
  {| Summary.user_id := ActivityRow.user_id l;
     Summary.display_name :=
       match ActivityRow.profiles l with
       | Some p => Profile.display_name p
       | None => "Unknown"%string
       end;
     Summary.username :=
       match ActivityRow.profiles l with
       | Some p => Profile.username p
       | None => "unknown"%string
       end;
     Summary.counts := Totals.empty |}.

(** One turn of the loop that fills [map]. The access [map[uid]] also finds
    the members that [map], an object literal, inherits from
    [Object.prototype]. Such a member is truthy: for its name nothing is
    seeded, and the two assignments write to that member, not to [map]:
    with a category among the three they leave on it properties that hold
    NaN, and raise nothing. (Another category could name a property that
    such a member has and that cannot be assigned, as [length] of a
    function: statements about what [totalsByUser] returns take the
    categories among the three, or the owner ids among the names that are
    not inherited.) *)
Definition totalsStep (map : JsObject.obj Summary.summary)
  (l : ActivityRow.row) : JsObject.obj Summary.summary :=
  let uid := ActivityRow.user_id l in
  let map :=
    match JsObject.lookup map uid with
    | JsObject.Missing => JsObject.set map uid (seed l)
    | _ => map
    end in
  match JsObject.lookup map uid with
  | JsObject.Own u =>
      JsObject.set map uid
        (Summary.with_counts u
           (Totals.tally (Summary.counts u) (ActivityRow.category l)
                         (minutes_or_zero l)))
  | _ => map
  end.

Definition totalsMap (weekly : list ActivityRow.row)
  : JsObject.obj Summary.summary :=
  fold_left totalsStep weekly [].

Definition totalsByUser (weekly : list ActivityRow.row)
  : list Summary.summary :=
  JsObject.values (totalsMap weekly).

Definition maxBar (users : list Summary.summary) : JsNumber.number :=
  fold_left
    (fun max u =>
       JsNumber.Math_max
         [max; Summary.study u; Summary.skill u; Summary.exercise u])
    users (JsNumber.of_Z 1).

(** [Math.round((v / maxBar) * 100)]. *)
Definition pct (v max : JsNumber.number) : JsNumber.number :=
  JsNumber.Math_round
    (JsNumber.mul (JsNumber.div v max) (JsNumber.of_Z 100)).

(** *** How an evaluation ends *)

(** With a value, or by raising an error of the given name. *)
Inductive completion (A : Type) : Type :=
| Normal (value : A)
| Throw (reason : string).

Arguments Normal {A} value.
Arguments Throw {A} reason.

(** ** The pages: what depends on the viewer's time zone *)

Section Pages.

(** The viewer's time zone, as ECMAScript reads it: [LocalTZA t true] is the
    offset from UTC, in milliseconds, in force at the instant [t], and
    [LocalTZA t false] the offset by which the local time value [t] is
    read, which for a local time that a clock change skips or repeats is
    the offset before the change. *)
Variable LocalTZA : Z -> bool -> Z.

Definition LocalTime (t : Z) : Z := t + LocalTZA t true.
Definition UTC (t : Z) : Z := t - LocalTZA t false.

Definition getDay (d : Date) : option Z :=
  option_map (fun t => EsDate.WeekDay (LocalTime t)) d.

Definition getDate (d : Date) : option Z :=
  option_map (fun t => EsDate.DateFromTime (LocalTime t)) d.

Definition getMonth (d : Date) : option Z :=
  option_map (fun t => EsDate.MonthFromTime (LocalTime t)) d.

Definition getFullYear (d : Date) : option Z :=
  option_map (fun t => EsDate.YearFromTime (LocalTime t)) d.

(** [d.setDate(dt)], returning the date as it is afterwards. *)
Definition setDate (d : Date) (dt : option Z) : Date :=
  match d, dt with
  | Some tv, Some n =>
      let t := LocalTime tv in
      let day :=
        EsDate.MakeDay (EsDate.YearFromTime t) (EsDate.MonthFromTime t) n in
      Some (UTC (EsDate.MakeDate day (EsDate.TimeWithinDay t)))
  | _, _ => None
  end.

(** [d.setHours(hour, min, sec, ms)]. *)
Definition setHours (d : Date) (hour min sec ms : Z) : Date :=
  match d with
  | Some tv =>
      let t := LocalTime tv in
      Some (UTC (EsDate.MakeDate (EsDate.Day t)
                                 (EsDate.MakeTime hour min sec ms)))
  | None => None
  end.

(** *** The two helpers *)

Definition startOfWeekMondayLocal (now : Date) : Date :=
  let d := now in
  let day := getDay d in
  let diff := num_sub (if num_strict_eq day (Some 0) then Some (-6) else Some 1)
                      day in
  let d := setDate d (num_add (getDate d) diff) in
  let d := setHours d 0 0 0 0 in
  d.

Definition dateKeyLocal (dt : Date) : string :=
  let y := getFullYear dt in
  let m := JsString.padStart2
             (JsString.ToString (num_add (getMonth dt) (Some 1))) in
  let d := JsString.padStart2 (JsString.ToString (getDate dt)) in
  (JsString.ToString y ++ "-" ++ m ++ "-" ++ d)%string.

(** *** The streak of the profile page *)

(** [days.add(dateKeyLocal(new Date(l.occurred_at)))] for each of [rows],
    from the set [days]. *)
Definition addKeys (days : JsObject.StringSet) (rows : list ActivityRow.row)
  : JsObject.StringSet :=
  fold_left
    (fun days l =>
       JsObject.set_add days (dateKeyLocal (ActivityRow.occurred_at l)))
    rows days.

Definition activeDays (logs : list ActivityRow.row) : JsObject.StringSet :=
  addKeys [] logs.

(** [cursor.setDate(cursor.getDate() - 1)]. *)
Definition previousDay (cursor : Date) : Date :=
  setDate cursor (num_sub (getDate cursor) (Some 1)).

(** The counting loop, [fuel] bounding the number of times its test is
    evaluated; [None] when that is not enough to leave the loop. *)
Fixpoint countBack (fuel : nat) (days : JsObject.StringSet) (cursor : Date)
  (s : nat) : option nat :=
  match fuel with
  | O => None
  | S fuel' =>
      if JsObject.set_has days (dateKeyLocal cursor)
      then countBack fuel' days (previousDay cursor) (S s)
      else Some s
  end.

(** From the set of active days to the streak; [now] is the instant that
    [new Date()] reads. *)
Definition streakOfDays (fuel : nat) (days : JsObject.StringSet) (now : Z)
  : option nat :=
  let cursor := setHours (Some now) 0 0 0 0 in
  let cursor :=
    if negb (JsObject.set_has days (dateKeyLocal cursor))
    then previousDay cursor else cursor in
  countBack fuel days cursor 0.

Definition streak (fuel : nat) (logs : list ActivityRow.row) (now : Z)
  : option nat :=
  streakOfDays fuel (activeDays logs) now.

(** *** The streaks of the dashboard *)

(** One turn of the first loop of [streakByUser]. The access
    [activeDays[l.user_id]] also finds the members that the object literal
    inherits from [Object.prototype]. Such a member is truthy, so that no
    set is created for its name, and it has no method [add]: the call
    [activeDays[l.user_id].add(key)] raises a TypeError. *)
Definition activeStep (active : JsObject.obj JsObject.StringSet)
  (l : ActivityRow.row) : completion (JsObject.obj JsObject.StringSet) :=
  let uid := ActivityRow.user_id l in
  let active :=
    match JsObject.lookup active uid with
    | JsObject.Missing => JsObject.set active uid []
    | _ => active
    end in
  let key := dateKeyLocal (ActivityRow.occurred_at l) in
  match JsObject.lookup active uid with
  | JsObject.Own days =>
      Normal (JsObject.set active uid (JsObject.set_add days key))
  | JsObject.Inherited => Throw "TypeError"
  | JsObject.Missing => Normal active
  end.

(** The first loop, which an error ends. *)
Fixpoint groupDays (active : JsObject.obj JsObject.StringSet)
  (logs : list ActivityRow.row)
  : completion (JsObject.obj JsObject.StringSet) :=
  match logs with
  | [] => Normal active
  | l :: rest =>
      match activeStep active l with
      | Normal active' => groupDays active' rest
      | Throw reason => Throw reason
      end
  end.

Definition activeDaysByUser (logs : list ActivityRow.row)
  : completion (JsObject.obj JsObject.StringSet) :=
  groupDays [] logs.

(** The second loop: one streak per key of [activeDays], the clock being
    read as the same instant [now] in every turn. *)
Fixpoint streakEach (fuel : nat) (now : Z)
  (active : list (string * JsObject.StringSet)) (result : JsObject.obj nat)
  : option (JsObject.obj nat) :=
  match active with
  | [] => Some result
  | (uid, days) :: rest =>
      match streakOfDays fuel days now with
      | Some s => streakEach fuel now rest (JsObject.set result uid s)
      | None => None
      end
  end.

(** [None] when [fuel] is not enough for one of the counting loops; an
    error of the first loop leaves no result. *)
Definition streakByUser (fuel : nat) (logs : list ActivityRow.row) (now : Z)
  : option (completion (JsObject.obj nat)) :=
  match activeDaysByUser logs with
  | Normal active =>
      option_map (fun result => Normal result)
        (streakEach fuel now (JsObject.entries active) [])
  | Throw reason => Some (Throw reason)
  end.

(** *** Days and zones, as the statements speak of them *)

(** The local calendar day of an instant, as a day number. *)
Definition localDay (t : Z) : Z := EsDate.Day (LocalTime t).

(** The instant that the platform reads local midnight of the day [d] as. *)
Definition midnightOf (d : Z) : Z := UTC (EsDate.MakeDate d 0).

(** What [setHours(0, 0, 0, 0)] makes of the instant [t]. *)
Definition localMidnight (t : Z) : Z := midnightOf (localDay t).

(** The key of the calendar day with number [d], in any zone. *)
Definition dayKey (d : Z) : string :=
  let t := EsDate.MakeDate d 0 in
  let y := JsString.ToString (Some (EsDate.YearFromTime t)) in
  let m := JsString.padStart2
             (JsString.ToString (Some (EsDate.MonthFromTime t + 1))) in
  let d := JsString.padStart2
             (JsString.ToString (Some (EsDate.DateFromTime t))) in
  (y ++ "-" ++ m ++ "-" ++ d)%string.

(** The day number of the Monday on or before the day [d]. *)
Definition mondayOf (d : Z) : Z := d - ((d + 4) mod 7 + 6) mod 7.

(** The local time value [tl] is the local time of the instant it is read
    as: no clock change of the zone skips it. *)
Definition exists_locally (tl : Z) : Prop := LocalTime (UTC tl) = tl.

(** No clock change of the zone carries a local time into another calendar
    day: a local time value is read as an instant of its own day. (A zone
    fails this when it skips a whole day, or skips an interval of local
    times that ends after midnight but begins before it.) *)
Definition keeps_days : Prop :=
  forall tl, EsDate.Day (LocalTime (UTC tl)) = EsDate.Day tl.

(** Local days follow each other as instants do: no clock change sets the
    clock back into the day before. *)
Definition days_in_order : Prop :=
  forall a b, a <= b -> localDay a <= localDay b.

(** Each local day begins at the instant that its midnight is read as: the
    instants from then on are those of that day and of the days after
    it. *)
Definition days_begin_at_midnight : Prop :=
  forall d t, midnightOf d <= t <-> d <= localDay t.

(** The zone has the offset [tza] at all times. *)
Definition fixed_offset (tza : Z) : Prop :=
  forall t isUTC, LocalTZA t isUTC = tza.

(** Whether the local day [k] days before that of [now] is an active day. *)
Definition activeAgo (days : JsObject.StringSet) (now : Z) (k : nat) : bool :=
  JsObject.set_has days (dayKey (localDay now - Z.of_nat k)).

(** The day on which the counting loop starts: today when today is active,
    and yesterday otherwise. *)
Definition graceDay (days : JsObject.StringSet) (now : Z) : Z :=
  if activeAgo days now 0 then localDay now else localDay now - 1.

Definition daysIn (active : JsObject.obj JsObject.StringSet) (uid : string)
  : JsObject.StringSet :=
  match JsObject.get active uid with Some d => d | None => [] end.

(** The turn of [activeStep] for an owner whose id names no inherited
    member: every lookup is then a lookup of own properties, and nothing
    is raised. *)
Definition ownActiveStep (active : JsObject.obj JsObject.StringSet)
  (l : ActivityRow.row) : JsObject.obj JsObject.StringSet :=
  let uid := ActivityRow.user_id l in
  let active :=
    match JsObject.get active uid with
    | Some _ => active
    | None => JsObject.set active uid []
    end in
  match JsObject.get active uid with
  | Some days =>
      JsObject.set active uid
        (JsObject.set_add days (dateKeyLocal (ActivityRow.occurred_at l)))
  | None => active
  end.

Definition ownActiveDays (logs : list ActivityRow.row)
  : JsObject.obj JsObject.StringSet :=
  fold_left ownActiveStep logs [].

(** A computation in fuel that no amount of fuel lets finish. *)
Definition diverges {A : Type} (run : nat -> option A) : Prop :=
  forall fuel, run fuel = None.

End Pages.

(** ** Notions the statements use *)

(** The rows of one owner. *)
Definition ownedBy (uid : string) (l : ActivityRow.row) : bool :=
  String.eqb (ActivityRow.user_id l) uid.

Definition rowsOf (uid : string) (logs : list ActivityRow.row)
  : list ActivityRow.row :=
  filter (ownedBy uid) logs.

Definition ofCategory (c : string) (l : ActivityRow.row) : bool :=
  String.eqb (ActivityRow.category l) c.

(** The sum [acc + m1 + m2 + ...] of the minutes of [rows], in their order. *)
Definition addAll (acc : JsNumber.number) (rows : list ActivityRow.row)
  : JsNumber.number :=
  fold_left (fun a l => JsNumber.add a (minutes_or_zero l)) rows acc.

(** The two assignments of the loop body, for each of [rows]. *)
Definition tallyAll (t : Totals.totals) (rows : list ActivityRow.row)
  : Totals.totals :=
  fold_left
    (fun t l => Totals.tally t (ActivityRow.category l) (minutes_or_zero l))
    rows t.

(** The categories of the type [Category]. *)
Definition known (c : string) : Prop :=
  c = "study"%string \/ c = "skill"%string \/ c = "exercise"%string.

(** The names that the accumulators own besides the three categories, or
    inherit from [Object.prototype]. *)
Definition reserved : list string :=
  ["all"; "user_id"; "display_name"; "username"; "constructor"; "__proto__";
   "hasOwnProperty"; "isPrototypeOf"; "propertyIsEnumerable";
   "toLocaleString"; "toString"; "valueOf"; "__defineGetter__";
   "__defineSetter__"; "__lookupGetter__"; "__lookupSetter__"]%string.

Definition plain (c : string) : Prop := ~ In c reserved.

(** The rows the profile page counts: those it does not skip. *)
Definition notBefore (weekStartISO : Z) (l : ActivityRow.row) : bool :=
  negb (num_lt (getTime (ActivityRow.occurred_at l)) (Some weekStartISO)).

(** The row carries an instant at or after the week start. *)
Definition atOrAfter (weekStartISO : Z) (l : ActivityRow.row) : bool :=
  match ActivityRow.occurred_at l with
  | Some t => weekStartISO <=? t
  | None => false
  end.

(** The owner's id names no member inherited from [Object.prototype]. *)
Definition ownId (l : ActivityRow.row) : bool :=
  negb (JsObject.inherits (ActivityRow.user_id l)).

(** The owners of [rows], each once, in order of first appearance. *)
Definition owners (rows : list ActivityRow.row) : list string :=
  fold_left (fun ks l => JsObject.set_add ks (ActivityRow.user_id l)) rows [].

(** The owners that get a summary: those whose id names no inherited
    member. *)
Definition summarized (rows : list ActivityRow.row) : list string :=
  owners (filter ownId rows).

(** The summary of one owner: the identity carried by that owner's first
    row, and the counters of that owner's rows. *)
Definition summaryFor (rows : list ActivityRow.row) (uid : string)
  : Summary.summary :=
  let mine := rowsOf uid rows in
  {| Summary.user_id := uid;
     Summary.display_name :=
       match mine with
       | l :: _ => Summary.display_name (seed l)
       | [] => "Unknown"%string
       end;
     Summary.username :=
       match mine with
       | l :: _ => Summary.username (seed l)
       | [] => "unknown"%string
       end;
     Summary.counts := tallyAll Totals.empty mine |}.

(** The turn of [totalsStep] for an owner whose id names no inherited
    member: every lookup is then a lookup of own properties. *)
Definition ownStep (map : JsObject.obj Summary.summary)
  (l : ActivityRow.row) : JsObject.obj Summary.summary :=
  let uid := ActivityRow.user_id l in
  let map :=
    match JsObject.get map uid with
    | Some _ => map
    | None => JsObject.set map uid (seed l)
    end in
  match JsObject.get map uid with
  | Some u =>
      JsObject.set map uid
        (Summary.with_counts u
           (Totals.tally (Summary.counts u) (ActivityRow.category l)
                         (minutes_or_zero l)))
  | None => map
  end.

Definition ownMap (rows : list ActivityRow.row)
  : JsObject.obj Summary.summary :=
  fold_left ownStep rows [].

(** The order in which an object enumerates keys created in the order
    [ks]. *)
Fixpoint insert_key (k : string) (l : list string) : list string :=
  match l with
  | [] => [k]
  | q :: l' =>
      if JsObject.index_of k <=? JsObject.index_of q then k :: q :: l'
      else q :: insert_key k l'
  end.

Definition keyOrder (ks : list string) : list string :=
  fold_right insert_key [] (filter JsObject.is_index ks)
  ++ filter (fun k => negb (JsObject.is_index k)) ks.

(** The object whose keys, created in the order [ks], hold [f]. *)
Definition tabulate {V : Type} (f : string -> V) (ks : list string)
  : JsObject.obj V :=
  map (fun k => (k, f k)) ks.

(** The entry of the owner of [l] in [m], or the one the loop would seed. *)
Definition entryOr (m : JsObject.obj Summary.summary) (l : ActivityRow.row)
  : Summary.summary :=
  match JsObject.get m (ActivityRow.user_id l) with
  | Some u => u
  | None => seed l
  end.

(** The integer a number stands for, when it is a non-negative integer. *)
Definition to_Z (x : JsNumber.number) : Z :=
  match x with
  | S754_finite false m e =>
      if 0 <=? e then Z.pos m * 2 ^ e else Z.pos m / 2 ^ (- e)
  | _ => 0
  end.

(** The minutes of the row are absent or a non-negative integer. *)
Definition whole (l : ActivityRow.row) : Prop :=
  minutes_or_zero l = JsNumber.of_Z (to_Z (minutes_or_zero l)).

Definition totalMinutes (rows : list ActivityRow.row) : Z :=
  fold_right (fun l acc => to_Z (minutes_or_zero l) + acc) 0 rows.

Definition valuesOf (u : Summary.summary) : list JsNumber.number :=
  [Summary.study u; Summary.skill u; Summary.exercise u].

Definition allValues (users : list Summary.summary) : list JsNumber.number :=
  flat_map valuesOf users.

Definition same_counters (a b : Totals.totals) : Prop :=
  Totals.study a = Totals.study b /\ Totals.skill a = Totals.skill b
  /\ Totals.exercise a = Totals.exercise b /\ Totals.all a = Totals.all b.

Definition counters_clear (t : Totals.totals) : Prop :=
  JsNumber.sign_clear (Totals.study t) = true
  /\ JsNumber.sign_clear (Totals.skill t) = true
  /\ JsNumber.sign_clear (Totals.exercise t) = true
  /\ JsNumber.sign_clear (Totals.all t) = true.

(** The decimal literal [p/q], correctly rounded. *)
Definition decimal (p q : Z) : JsNumber.number :=
  JsNumber.div (JsNumber.of_Z p) (JsNumber.of_Z q).


(** ** Finite binary64 numbers as integers scaled by a power of two *)

Module Binary64.
Import JsNumber.

Definition emin : Z := SpecFloat.emin prec emax.
Definition fexp (e : Z) : Z := SpecFloat.fexp prec emax e.

(** What [binary_round_aux] returns for a mantissa [m2] that has been
    rounded at exponent [e1]: a carry into the 54th digit moves the exponent
    up by one, and an exponent beyond the largest one is an overflow. *)
Definition round_result (m2 e1 : Z) : number :=
  if m2 =? 0 then S754_zero false
  else if m2 =? 2 ^ 53 then
    if e1 + 1 <=? 971 then S754_finite false (Z.to_pos (2 ^ 52)) (e1 + 1)
    else S754_infinity false
  else
    if e1 <=? 971 then S754_finite false (Z.to_pos m2) e1
    else S754_infinity false.

(** [vle m e m' e']: [m * 2^e <= m' * 2^e'], stated on integers. *)
Definition vle (m e m' e' : Z) : Prop :=
  m * 2 ^ (e - Z.min e e') <= m' * 2 ^ (e' - Z.min e e').

(** The binary64 number of a positive integer below [2^53]: the integer
    itself, its mantissa shifted to 53 digits. *)
Definition canon_m (n : Z) : positive := Z.to_pos (n * 2 ^ (53 - Zdigits2 n)).
Definition canon_e (n : Z) : Z := Zdigits2 n - 53.

(** Exponent and mantissa, which order these numbers lexicographically;
    zero sits below every exponent. *)
Definition rank (x : number) : Z * Z :=
  match x with
  | S754_finite _ m e => (e, Z.pos m)
  | _ => (-1075, 0)
  end.

Definition rank_le (a b : Z * Z) : Prop :=
  fst a < fst b \/ (fst a = fst b /\ snd a <= snd b).

Definition one_m : positive := Z.to_pos (2 ^ 52).
Definition one_e : Z := -52.

Definition hundred_m : positive := Z.to_pos (100 * 2 ^ 46).
Definition hundred_e : Z := -46.

Definition max2 (h x : number) : number := if lt h x then x else h.

End Binary64.

(** Day-of-month and month numbers print on exactly two characters and can
    be read back. *)
Definition two_digits_ok (n : Z) : bool :=
  let s := JsString.padStart2 (JsString.ToString (Some n)) in
  (String.length s =? 2)%nat
  && match JsString.parse_int s with Some k => k =? n | None => false end.

(** Every property of the totals besides the four counters holds NaN. *)
Definition stray_nan (t : Totals.totals) : Prop :=
  forall k v, JsObject.get (Totals.stray t) k = Some v -> v = JsNumber.NaN.

(** ** Sample rows, for the examples *)

Module Sample.
#[local] Open Scope string_scope.

(** A viewer at UTC+05:30. *)
Definition tz : Z := 19800000.
Definition zone (t : Z) (isUTC : bool) : Z := tz.

(** The instant [Date.UTC(y, m, d, h, mi)]; months count from 0. *)
Definition utc (y m d h mi : Z) : Z :=
  EsDate.MakeDate (EsDate.MakeDay y m d) (EsDate.MakeTime h mi 0 0).

Definition entry (uid cat : string) (m : option JsNumber.number) (t : Z)
  : ActivityRow.row :=
  {| ActivityRow.id := "";
     ActivityRow.user_id := uid;
     ActivityRow.category := cat;
     ActivityRow.title := None;
     ActivityRow.minutes := m;
     ActivityRow.occurred_at := Some t;
     ActivityRow.profiles := None |}.

Definition whole_minutes (n : Z) : option JsNumber.number :=
  Some (JsNumber.of_Z n).

(** Wednesday 15 May 2024, 15:30 local time, and the Monday that starts its
    week. *)
Definition now : Z := utc 2024 4 15 10 0.
Definition monday : Z := utc 2024 4 12 18 30.

(** Rows on Tuesday 14 May, Monday 13 May (00:30 local time, still Sunday
    in UTC) and Sunday 12 May. *)
Definition tuesday_row : ActivityRow.row :=
  entry "ana" "study" (whole_minutes 30) (utc 2024 4 14 4 0).
Definition monday_row : ActivityRow.row :=
  entry "ana" "skill" (whole_minutes 45) (utc 2024 4 12 19 0).
Definition sunday_row : ActivityRow.row :=
  entry "ana" "exercise" (whole_minutes 20) (utc 2024 4 12 3 0).
Definition today_row : ActivityRow.row :=
  entry "ben" "exercise" None (utc 2024 4 15 2 0).

Definition two_days : list ActivityRow.row :=
  [tuesday_row; monday_row; tuesday_row].
Definition three_days : list ActivityRow.row :=
  [tuesday_row; monday_row; sunday_row].
Definition both_owners : list ActivityRow.row :=
  [today_row; tuesday_row; monday_row; sunday_row].

(** Minutes that are not integers: 0.2, 0.3 and 0.1. *)
Definition fractions : list ActivityRow.row :=
  [entry "ana" "skill" (Some (decimal 2 10)) (utc 2024 4 14 4 0);
   entry "ana" "exercise" (Some (decimal 3 10)) (utc 2024 4 14 5 0);
   entry "ana" "study" (Some (decimal 1 10)) (utc 2024 4 14 6 0)].

(** A category outside the three. *)
Definition reading : list ActivityRow.row :=
  [entry "ana" "reading" (whole_minutes 5) (utc 2024 4 14 4 0);
   tuesday_row].

(** A week with one row, which carries no minutes. *)
Definition no_minutes : list ActivityRow.row := [today_row].

(** Rows at the week start, one millisecond before it, and a year later. *)
Definition boundary : list ActivityRow.row :=
  [entry "ana" "study" (whole_minutes 10) monday;
   entry "ana" "skill" (whole_minutes 20) (monday - 1);
   entry "ana" "exercise" (whole_minutes 40) (utc 2025 4 15 10 0)].

(** The row of today with minutes, and without. *)
Definition today_with_minutes : ActivityRow.row :=
  entry "ben" "exercise" (whole_minutes 25) (utc 2024 4 15 2 0).


End Sample.

(** ** The pages: loading, and what the cards show *)

(** The row carries a date that is not Invalid Date. *)
Definition validDate (l : ActivityRow.row) : bool :=
  match ActivityRow.occurred_at l with Some _ => true | None => false end.

(** [streakByUser[u.user_id] ?? 0], as the card of a user shows it: the
    entry of the id, 0 when the access finds nothing, and no number at all
    ([None]) when it finds a member that the object inherits. *)
Definition shownStreak (result : JsObject.obj nat) (uid : string)
  : option nat :=
  match JsObject.lookup result uid with
  | JsObject.Own s => Some s
  | JsObject.Missing => Some 0%nat
  | JsObject.Inherited => None
  end.

Section Loading.
Variable LocalTZA : Z -> bool -> Z.

(** [const since = new Date(); since.setDate(since.getDate() - 120)] of
    [load], with [now] the instant that [new Date()] reads. *)
Definition since (now : Z) : Date :=
  let since := Some now in
  setDate LocalTZA since (num_sub (getDate LocalTZA since) (Some 120)).

End Loading.

Section LoggedDays.
Variable LocalTZA : Z -> bool -> Z.

(** Some row with a valid date falls on the local day [d]. *)
Definition loggedOn (logs : list ActivityRow.row) (d : Z) : Prop :=
  exists l t, In l logs /\ ActivityRow.occurred_at l = Some t
              /\ localDay LocalTZA t = d.

(** The [n] days up to [d] are logged, and the day before them is not. *)
Definition runUpTo (logs : list ActivityRow.row) (d : Z) (n : nat) : Prop :=
  (forall i, 0 <= i < Z.of_nat n -> loggedOn logs (d - i))
  /\ ~ loggedOn logs (d - Z.of_nat n).

End LoggedDays.

(** *** The data of the chart *)

(** The object [byCat]: for each category, the value of each user under the
    user's id. *)
Module ChartData.
Record byCat : Type := {
  study : JsObject.obj JsNumber.number;
  skill : JsObject.obj JsNumber.number;
  exercise : JsObject.obj JsNumber.number
}.

Record chartData : Type := {
  users : list Summary.summary;
  values : byCat
}.
End ChartData.

(** One turn of the loop of [chartData]. *)
Definition chartStep (byCat : ChartData.byCat) (u : Summary.summary)
  : ChartData.byCat :=
  {| ChartData.study :=
       JsObject.set (ChartData.study byCat) (Summary.user_id u)
                    (Summary.study u);
     ChartData.skill :=
       JsObject.set (ChartData.skill byCat) (Summary.user_id u)
                    (Summary.skill u);
     ChartData.exercise :=
       JsObject.set (ChartData.exercise byCat) (Summary.user_id u)
                    (Summary.exercise u) |}.

Definition chartData (totalsByUser : list Summary.summary)
  : ChartData.chartData :=
  let users := totalsByUser in
  let byCat :=
    {| ChartData.study := []; ChartData.skill := [];
       ChartData.exercise := [] |} in
  {| ChartData.users := users;
     ChartData.values := fold_left chartStep users byCat |}.

(** ** Text typed by the user, and the forms *)

(** A string as the sequence of its UTF-16 code units, which is what
    [length] counts and [trim] inspects. *)
Module JsText.

Definition text : Type := list Z.

(** The code points that [trim] removes: WhiteSpace (TAB, VT, FF, SP, NBSP,
    ZWNBSP and the space separators) and LineTerminator (LF, CR, LS, PS).
    All of them are single code units. *)
Definition is_white_space (c : Z) : bool :=
  (c =? 9) || (c =? 10) || (c =? 11) || (c =? 12) || (c =? 13) || (c =? 32)
  || (c =? 160) || (c =? 5760) || ((8192 <=? c) && (c <=? 8202))
  || (c =? 8232) || (c =? 8233) || (c =? 8239) || (c =? 8287)
  || (c =? 12288) || (c =? 65279).

Fixpoint trimStart (s : text) : text :=
  match s with
  | [] => []
  | c :: s' => if is_white_space c then trimStart s' else s
  end.

Definition trimEnd (s : text) : text := rev (trimStart (rev s)).

Definition trim (s : text) : text := trimEnd (trimStart s).

Definition length (s : text) : Z := Z.of_nat (List.length s).

(** [!s] and [s === ""]. *)
Definition is_empty (s : text) : bool :=
  match s with [] => true | _ :: _ => false end.

End JsText.

(** The object that [createLog] inserts; [occurred_at] is [None] when the
    property is left out, and otherwise the instant whose ISO text is
    sent. *)
Module LogPayload.
Record payload : Type := {
  user_id : string;
  category : string;
  title : option JsText.text;
  minutes : option JsNumber.number;
  occurred_at : option Z
}.
End LogPayload.

(** A row of [posts] as the pages receive it. *)
Module PostRow.
Record row : Type := {
  id : string;
  user_id : string;
  content : string;
  created_at : string;
  profiles : option Profile.profile
}.
End PostRow.

(** A row of [profiles] as the profile page receives it. *)
Module ProfileRow.
Record row : Type := {
  id : string;
  username : string;
  display_name : string;
  created_at : string
}.
End ProfileRow.

(** A row of [comments] as the discussion page receives it. *)
Module CommentRow.
Record row : Type := {
  id : string;
  post_id : string;
  user_id : string;
  content : string;
  created_at : string;
  profiles : option Profile.profile
}.
End CommentRow.

(** The user that [getUser] answers with; [email] may be missing. *)
Module AuthUser.
Record user : Type := { id : string; email : option string }.
End AuthUser.

(** What the store answers to a request: [data], null on failure, and the
    message of [error], if any. *)
Module Response.
Record response (A : Type) : Type := {
  data : option A;
  error : option string
}.
Arguments data {A} _.
Arguments error {A} _.
End Response.

(** What a handler does, in order: the state it sets, the requests it makes
    and where it navigates. *)
Inductive effect : Type :=
| SetMsg (msg : string)
| SetLoading (loading : bool)
| GetUser
| SignOut
| Push (path : string)
| ConsoleLog (message : string)
| SetMe (id email : string)
| SetMyUsername (username : option string)
| SetProfile (profile : option ProfileRow.row)
| SetPosts (posts : list PostRow.row)
| SetPost (post : option PostRow.row)
| SetComments (comments : list CommentRow.row)
| SetLogs (logs : list ActivityRow.row)
| SignIn (email : string) (password : JsText.text)
| QueryMyProfile (id : string)
| QueryProfile (username : string)
| QueryPosts (user_id : option string) (limit : Z)
| QueryPost (id : string)
| QueryComments (post_id : string) (limit : Z)
| QueryLogs (user_id : option string) (since : Date) (limit : Z)
| InsertPost (user_id : string) (content : JsText.text)
| InsertComment (post_id user_id : string) (content : JsText.text)
| InsertLog (payload : LogPayload.payload)
| SetText (text : JsText.text)
| SetTitle (title : JsText.text)
| SetOccurredAt (occurredAt : JsText.text)
| Load.

(** *** The feed page *)

Definition remaining (text : JsText.text) : Z := 280 - JsText.length text.

(** [createPost]; [user] is the id of the user that [getUser] answers with,
    if any, and [error] the message of the error that the insert answers
    with, if any. *)
Definition createPost (text : JsText.text) (user : option string)
  (error : option string) : list effect :=
  SetMsg "" ::
  let content := JsText.trim text in
  if JsText.is_empty content then [SetMsg "Write something first."]
  else if JsText.length content >? 280 then [SetMsg "Max 280 characters."]
  else
    GetUser ::
    match user with
    | None => [Push "/login"]
    | Some uid =>
        InsertPost uid content ::
        match error with
        | Some message => [SetMsg message]
        | None => [SetText []; Load]
        end
    end.

(** The [disabled] attribute of the button that calls [createPost]. *)
Definition postDisabled (text : JsText.text) : bool :=
  (JsText.length (JsText.trim text) =? 0) || (JsText.length text >? 280).

(** *** The discussion page *)

Definition addComment (postId : string) (text : JsText.text)
  (user : option string) (error : option string) : list effect :=
  SetMsg "" ::
  let content := JsText.trim text in
  if JsText.is_empty content then [SetMsg "Write a comment first."]
  else if JsText.length content >? 500 then [SetMsg "Max 500 characters."]
  else
    GetUser ::
    match user with
    | None => [Push "/login"]
    | Some uid =>
        InsertComment postId uid content ::
        match error with
        | Some message => [SetMsg message]
        | None => [SetText []; Load]
        end
    end.

(** The [disabled] attribute of the button that calls [addComment]. *)
Definition commentDisabled (text : JsText.text) : bool :=
  (JsText.length (JsText.trim text) =? 0) || (JsText.length text >? 500).

(** The content is what the handler may insert: between 1 and [limit] code
    units, with no white space at either end. *)
Definition tidy (limit : Z) (content : JsText.text) : Prop :=
  1 <= JsText.length content <= limit
  /\ (forall c, hd_error content = Some c -> JsText.is_white_space c = false)
  /\ (forall c, hd_error (rev content) = Some c
                -> JsText.is_white_space c = false).

(** *** The quick-log form of the dashboard *)

(** [Number.isFinite(x)] on a number. *)
Definition Number_isFinite (x : JsNumber.number) : bool :=
  match x with
  | S754_zero _ | S754_finite _ _ _ => true
  | S754_infinity _ | S754_nan => false
  end.

Section QuickLog.

(** The conversions [Number(s)] and [new Date(s)] of the platform, which
    the form applies to what was typed. *)
Variable Number : JsText.text -> JsNumber.number.
Variable NewDate : JsText.text -> Date.

(** The end of [createLog], from the insert on. *)
Definition insertLog (payload : LogPayload.payload) (error : option string)
  : list effect :=
  InsertLog payload ::
  match error with
  | Some message => [SetMsg message]
  | None => [SetTitle []; SetOccurredAt []; Load]
  end.

Definition createLog (user : option string) (category : string)
  (minutes title occurredAt : JsText.text) (error : option string)
  : list effect :=
  SetMsg "" :: GetUser ::
  match user with
  | None => [Push "/login"]
  | Some uid =>
      let m :=
        if JsText.is_empty (JsText.trim minutes) then None
        else Some (Number minutes) in
      if match m with
         | Some n => negb (Number_isFinite n) || JsNumber.lt n (JsNumber.of_Z 0)
         | None => false
         end
      then [SetMsg "Minutes must be a non-negative number."]
      else
        let payload :=
          {| LogPayload.user_id := uid;
             LogPayload.category := category;
             LogPayload.title :=
               if negb (JsText.is_empty (JsText.trim title))
               then Some (JsText.trim title) else None;
             LogPayload.minutes := m;
             LogPayload.occurred_at := None |} in
        if negb (JsText.is_empty (JsText.trim occurredAt)) then
          let local := NewDate occurredAt in
          match getTime local with
          | None => [SetMsg "Invalid date/time."]
          | Some t =>
              insertLog
                {| LogPayload.user_id := LogPayload.user_id payload;
                   LogPayload.category := LogPayload.category payload;
                   LogPayload.title := LogPayload.title payload;
                   LogPayload.minutes := LogPayload.minutes payload;
                   LogPayload.occurred_at := Some t |}
                error
          end
        else insertLog payload error
  end.

End QuickLog.

(** *** Loading the dashboard and the profile page *)

Section Loads.

(** The viewer's time zone, and two things that the pages import or call
    and that are not part of them: the set [ALLOWED_EMAILS] and
    [String.prototype.toLowerCase]. *)
Variable LocalTZA : Z -> bool -> Z.
Variable ALLOWED_EMAILS : JsObject.StringSet.
Variable toLowerCase : string -> string.

(** [(user.email || "").toLowerCase()]. *)
Definition emailOf (user : AuthUser.user) : string :=
  toLowerCase match AuthUser.email user with
              | Some e => e
              | None => ""
              end.

(** [load] of the dashboard; [now] is the instant that [new Date()] reads,
    [user] the answer of [getUser], [myProf] the answer to the lookup of the
    user's own profile (its data being the username), and [fetched] the
    answer to the request for the rows. *)
Definition loadActivity (now : Z) (user : option AuthUser.user)
  (myProf : Response.response string)
  (fetched : Response.response (list ActivityRow.row)) : list effect :=
  [SetMsg ""; SetLoading true; GetUser] ++
  match user with
  | None => [Push "/login"]
  | Some user =>
      let email := emailOf user in
      if negb (JsObject.set_has ALLOWED_EMAILS email)
      then [SignOut; Push "/login"]
      else
        [SetMe (AuthUser.id user) email; QueryMyProfile (AuthUser.id user)]
        ++ match Response.error myProf with
           | Some message => [ConsoleLog message]
           | None => []
           end
        ++ [SetMyUsername (Response.data myProf);
            QueryLogs None (since LocalTZA now) 2000]
        ++ match Response.error fetched with
           | Some message => [SetMsg message]
           | None => []
           end
        ++ [SetLogs match Response.data fetched with
                    | Some rows => rows
                    | None => []
                    end;
            SetLoading false]
  end.

(** [load(uname)] of the profile page; [notFound] stands for the text
    [`Profile not found: @${uname}`]. *)
Definition loadProfile (now : Z) (uname : string)
  (user : option AuthUser.user)
  (prof : Response.response ProfileRow.row)
  (postData : Response.response (list PostRow.row))
  (logData : Response.response (list ActivityRow.row))
  (notFound : string) : list effect :=
  [SetMsg ""; SetLoading true; GetUser] ++
  match user with
  | None => [Push "/login"]
  | Some user =>
      let email := emailOf user in
      if negb (JsObject.set_has ALLOWED_EMAILS email)
      then [SignOut; Push "/login"]
      else
        [SetMe (AuthUser.id user) email; QueryProfile uname] ++
        match Response.error prof, Response.data prof with
        | None, Some p =>
            [SetProfile (Some p); QueryPosts (Some (ProfileRow.id p)) 50]
            ++ match Response.error postData with
               | Some message => [SetMsg message]
               | None => []
               end
            ++ [SetPosts match Response.data postData with
                         | Some posts => posts
                         | None => []
                         end;
                QueryLogs (Some (ProfileRow.id p)) (since LocalTZA now) 1000]
            ++ match Response.error logData with
               | Some message => [SetMsg message]
               | None => []
               end
            ++ [SetLogs match Response.data logData with
                        | Some rows => rows
                        | None => []
                        end;
                SetLoading false]
        | profErr, _ =>
            [SetProfile None; SetPosts []; SetLogs [];
             SetMsg match profErr with
                    | Some message =>
                        if String.eqb message "" then notFound else message
                    | None => notFound
                    end;
             SetLoading false]
        end
  end.

(** [load] of the feed. *)
Definition loadFeed (user : option AuthUser.user)
  (myProf : Response.response string)
  (fetched : Response.response (list PostRow.row)) : list effect :=
  [SetMsg ""; SetLoading true; GetUser] ++
  match user with
  | None => [Push "/login"]
  | Some user =>
      let email := emailOf user in
      if negb (JsObject.set_has ALLOWED_EMAILS email)
      then [SignOut; Push "/login"]
      else
        [SetMe (AuthUser.id user) email; QueryMyProfile (AuthUser.id user)]
        ++ match Response.error myProf with
           | Some message => [ConsoleLog message]
           | None => []
           end
        ++ [SetMyUsername (Response.data myProf); QueryPosts None 50]
        ++ match Response.error fetched with
           | Some message => [SetMsg message]
           | None => []
           end
        ++ [SetPosts match Response.data fetched with
                     | Some posts => posts
                     | None => []
                     end;
            SetLoading false]
  end.

(** [load] of the discussion page, for the post [postId]. *)
Definition loadPost (postId : string) (user : option AuthUser.user)
  (postData : Response.response PostRow.row)
  (cData : Response.response (list CommentRow.row)) : list effect :=
  if String.eqb postId "" then []
  else
    [SetMsg ""; SetLoading true; GetUser] ++
    match user with
    | None => [Push "/login"]
    | Some user =>
        let email := emailOf user in
        if negb (JsObject.set_has ALLOWED_EMAILS email)
        then [SignOut; Push "/login"]
        else
          [SetMe (AuthUser.id user) email; QueryPost postId] ++
          match Response.error postData, Response.data postData with
          | None, Some post =>
              [SetPost (Some post); QueryComments postId 300]
              ++ match Response.error cData with
                 | Some message => [SetMsg message]
                 | None => []
                 end
              ++ [SetComments match Response.data cData with
                              | Some comments => comments
                              | None => []
                              end;
                  SetLoading false]
          | postErr, _ =>
              [SetPost None; SetComments [];
               SetMsg match postErr with
                      | Some message =>
                          if String.eqb message "" then "Post not found."
                          else message
                      | None => "Post not found."
                      end;
               SetLoading false]
          end
    end.

(** [email.trim().toLowerCase()] of the login page, as the string that the
    set and the request see; the lower-casing is the platform's. *)
Variable lowerCased : JsText.text -> string.

(** [signIn]; [error] is the message of the error that the sign-in request
    answers with, if any. *)
Definition signIn (email password : JsText.text) (error : option string)
  : list effect :=
  SetMsg "" ::
  let e := lowerCased (JsText.trim email) in
  if negb (JsObject.set_has ALLOWED_EMAILS e)
  then [SetMsg "This account is not allowed."]
  else
    SignIn e password ::
    match error with
    | Some message => [SetMsg message]
    | None => [Push "/"]
    end.

End Loads.

(** The effect is a request to the store. *)
Definition asksStore (e : effect) : bool :=
  match e with
  | SignIn _ _ | QueryMyProfile _ | QueryProfile _ | QueryPosts _ _
  | QueryPost _ | QueryComments _ _ | QueryLogs _ _ _
  | InsertPost _ _ | InsertComment _ _ _ | InsertLog _ => true
  | _ => false
  end.

(** [getUser] answered with a user whose address is in the list. *)
Definition admitted (ALLOWED_EMAILS : JsObject.StringSet)
  (toLowerCase : string -> string) (user : option AuthUser.user) : Prop :=
  exists u, user = Some u
            /\ JsObject.set_has ALLOWED_EMAILS (emailOf toLowerCase u) = true.

(** More sample rows. *)
Module MoreSamples.
#[local] Open Scope string_scope.

(** Wednesday, Tuesday and Sunday: a gap on Monday. *)
Definition with_gap : list ActivityRow.row :=
  [Sample.today_row; Sample.tuesday_row; Sample.sunday_row].

(** Sunday only, three days before [Sample.now]. *)
Definition sunday_only : list ActivityRow.row := [Sample.sunday_row].

(** The days of [Sample.two_days], each once and in the other order. *)
Definition two_days_once : list ActivityRow.row :=
  [Sample.monday_row; Sample.tuesday_row].

(** The rows of [Sample.both_owners] in another order. *)
Definition both_owners_shuffled : list ActivityRow.row :=
  [Sample.sunday_row; Sample.today_row; Sample.monday_row;
   Sample.tuesday_row].



(** A zone that goes from UTC+03:30 to UTC+04:30 at local midnight of
    Monday 22 March 2021 (as Tehran did): the local times from 00:00 to
    01:00 of that day do not exist. *)
Definition spring_forward_at_midnight (t : Z) (isUTC : bool) : Z :=
  let change := Sample.utc 2021 2 21 20 30 in
  if isUTC
  then (if t <? change then 12600000 else 16200000)%Z
  else (if t <? change + 16200000 then 12600000 else 16200000)%Z.

(** Wednesday 24 March 2021, noon in that zone. *)
Definition that_wednesday : Z := Sample.utc 2021 2 24 7 30.

(** A zone that goes from UTC-10:00 to UTC+14:00 at the end of Thursday 29
    December 2011 (as Apia did): Friday 30 December does not exist. *)
Definition skips_a_day (t : Z) (isUTC : bool) : Z :=
  let change := Sample.utc 2011 11 30 10 0 in
  if isUTC
  then (if t <? change then -36000000 else 50400000)%Z
  else (if t <? change + 50400000 then -36000000 else 50400000)%Z.

(** Saturday 31 December 2011, noon in that zone, and a row of that day. *)
Definition that_saturday : Z := Sample.utc 2011 11 30 22 0.

Definition saturday_row : ActivityRow.row :=
  Sample.entry "ana" "study" (Sample.whole_minutes 30)
    (Sample.utc 2011 11 30 21 0).

(** New York in 2024: UTC-05:00, and UTC-04:00 from 10 March, 02:00 local
    time, to 3 November, 02:00 local time. *)
Definition new_york_2024 (t : Z) (isUTC : bool) : Z :=
  let spring := Sample.utc 2024 2 10 7 0 in
  let autumn := Sample.utc 2024 10 3 6 0 in
  if isUTC
  then (if t <? spring then -18000000
        else if t <? autumn then -14400000 else -18000000)%Z
  else (if t <? spring - 14400000 then -18000000
        else if t <? autumn - 14400000 then -14400000 else -18000000)%Z.

(** Monday 11 March 2024, noon in New York, the day after the clocks went
    forward, and rows of the Sunday and the Saturday before. *)
Definition march_monday : Z := Sample.utc 2024 2 11 16 0.

Definition short_sunday_row : ActivityRow.row :=
  Sample.entry "ana" "study" (Sample.whole_minutes 30)
    (Sample.utc 2024 2 10 15 0).

Definition march_saturday_row : ActivityRow.row :=
  Sample.entry "ana" "skill" (Sample.whole_minutes 20)
    (Sample.utc 2024 2 9 15 0).

Definition across_the_change : list ActivityRow.row :=
  [short_sunday_row; march_saturday_row].

(** Sunday 3 November 2024, 23:30 in New York, the day the clocks went
    back. *)
Definition long_sunday_night : Z := Sample.utc 2024 10 4 4 30.

(** Sunday 1 January 2012, noon in the zone that skipped the Friday, and a
    row of the Thursday. *)
Definition that_sunday : Z := Sample.utc 2011 11 31 22 0.

Definition thursday_row : ActivityRow.row :=
  Sample.entry "ana" "skill" (Sample.whole_minutes 20)
    (Sample.utc 2011 11 29 22 0).

(** A row whose date did not parse, beside a row of the week. *)
Definition undated_row : ActivityRow.row :=
  {| ActivityRow.id := "";
     ActivityRow.user_id := "ana";
     ActivityRow.category := "study";
     ActivityRow.title := None;
     ActivityRow.minutes := Sample.whole_minutes 10;
     ActivityRow.occurred_at := None;
     ActivityRow.profiles := None |}.

Definition with_undated : list ActivityRow.row :=
  [undated_row; Sample.tuesday_row].

End MoreSamples.

(** * Facts about the platform *)

(** ** The calendar *)

Module EsDateFacts.
Import EsDate.

Lemma DayFromYear_near y :
  400 * DayFromYear y - 589 <= 146097 * (y - 1970) <= 400 * DayFromYear y + 506.
Proof. unfold DayFromYear. Z.to_euclidean_division_equations. lia. Qed.

Lemma YearFromDay_spec d :
  DayFromYear (YearFromDay d) <= d < DayFromYear (YearFromDay d + 1).
Proof.
  unfold YearFromDay. set (y0 := 1970 + 400 * d / 146097).
  assert (H0 : 146097 * (y0 - 1970) <= 400 * d < 146097 * (y0 - 1970) + 146097).
  { unfold y0. Z.to_euclidean_division_equations. lia. }
  pose proof (DayFromYear_near (y0 - 1)). pose proof (DayFromYear_near (y0 + 2)).
  destruct (Z.ltb_spec d (DayFromYear y0)).
  - replace (y0 - 1 + 1) with y0 by lia. lia.
  - destruct (Z.leb_spec (DayFromYear (y0 + 1)) d).
    + replace (y0 + 1 + 1) with (y0 + 2) by lia. lia.
    + lia.
Qed.

(** [YearFromDay] is the only year with that property: the ECMAScript
    "largest integer y such that TimeFromYear(y) <= t". *)
Lemma DayFromYear_step y : DayFromYear (y + 1) = DayFromYear y + DaysInYear y.
Proof.
  unfold DayFromYear, DaysInYear, InLeapYear, isLeap.
  destruct (Z.eqb_spec (y mod 4) 0) as [E4|E4];
    destruct (Z.eqb_spec (y mod 100) 0) as [E100|E100];
    destruct (Z.eqb_spec (y mod 400) 0) as [E400|E400]; cbn [andb orb negb].
  all: Z.to_euclidean_division_equations; lia.
Qed.

Lemma DayFromYear_mono y y' : y <= y' -> DayFromYear y <= DayFromYear y'.
Proof.
  intros H. unfold DayFromYear. Z.to_euclidean_division_equations. lia.
Qed.

Lemma YearFromDay_unique d y :
  DayFromYear y <= d < DayFromYear (y + 1) -> YearFromDay d = y.
Proof.
  intros H. pose proof (YearFromDay_spec d) as S.
  destruct (Z.lt_trichotomy (YearFromDay d) y) as [L|[E|G]]; [|exact E|].
  - pose proof (DayFromYear_mono (YearFromDay d + 1) y ltac:(lia)). lia.
  - pose proof (DayFromYear_mono (y + 1) (YearFromDay d) ltac:(lia)). lia.
Qed.

Lemma DayWithinYear_range t :
  0 <= DayWithinYear t < 365 + InLeapYear (YearFromTime t).
Proof.
  unfold DayWithinYear, YearFromTime.
  pose proof (YearFromDay_spec (Day t)) as S.
  rewrite DayFromYear_step in S. unfold DaysInYear in S. lia.
Qed.

Lemma InLeapYear_range y : 0 <= InLeapYear y <= 1.
Proof. unfold InLeapYear. destruct (isLeap y); lia. Qed.

Lemma MonthFromTime_range t : 0 <= MonthFromTime t <= 11.
Proof.
  unfold MonthFromTime, monthOfDay.
  repeat match goal with |- context [if ?b then _ else _] => destruct b end;
    lia.
Qed.

Lemma DateFromTime_range t : 1 <= DateFromTime t <= 31.
Proof.
  unfold DateFromTime, MonthFromTime, monthOfDay.
  pose proof (DayWithinYear_range t) as R.
  pose proof (InLeapYear_range (YearFromTime t)) as L.
  set (leap := InLeapYear (YearFromTime t)) in *.
  set (d := DayWithinYear t) in *.
  repeat match goal with
         | |- context [if ?a <? ?b then _ else _] =>
             destruct (Z.ltb_spec a b)
         end; cbn [monthStart]; lia.
Qed.

(** A day is recovered from its calendar triple: the fact behind both
    [setDate (getDate + k)] moving by [k] days and distinct days having
    distinct keys. *)
Lemma MakeDay_civil t k :
  MakeDay (YearFromTime t) (MonthFromTime t) (DateFromTime t + k) = Day t + k.
Proof. unfold MakeDay, DateFromTime, DayWithinYear. lia. Qed.

Lemma Day_MakeDate d tm : 0 <= tm < msPerDay -> Day (MakeDate d tm) = d.
Proof.
  intros H. unfold Day, MakeDate, msPerDay in *.
  Z.to_euclidean_division_equations. lia.
Qed.

Lemma TimeWithinDay_MakeDate d tm :
  0 <= tm < msPerDay -> TimeWithinDay (MakeDate d tm) = tm.
Proof.
  intros H. unfold TimeWithinDay, MakeDate, msPerDay in *.
  Z.to_euclidean_division_equations. lia.
Qed.

Lemma TimeWithinDay_range t : 0 <= TimeWithinDay t < msPerDay.
Proof. unfold TimeWithinDay, msPerDay. apply Z.mod_pos_bound. lia. Qed.

Lemma Day_TimeWithinDay t : t = MakeDate (Day t) (TimeWithinDay t).
Proof.
  unfold MakeDate, Day, TimeWithinDay, msPerDay.
  Z.to_euclidean_division_equations. lia.
Qed.

Example epoch_is_thursday_1_january_1970 :
  (YearFromTime 0, MonthFromTime 0, DateFromTime 0, WeekDay 0) = (1970, 0, 1, 4).
Proof. reflexivity. Qed.

Example leap_day_2024 :
  let t := 1709164800000 in
  (YearFromTime t, MonthFromTime t, DateFromTime t, WeekDay t) = (2024, 1, 29, 4).
Proof. reflexivity. Qed.

End EsDateFacts.

(** ** Strings of integers *)

Module JsStringFacts.
Import JsString.

Lemma parse_ToString z : parse_int (ToString (Some z)) = Some z.
Proof.
  unfold parse_int, ToString.
  rewrite NilZero.isi.
  - simpl. now rewrite DecimalZ.of_to.
  - destruct z; simpl; try discriminate.
    intros [= H]. now apply (Unsigned.to_uint_nonnil p).
  - destruct z; simpl; try discriminate.
    intros [= H]. now apply (Unsigned.to_uint_nonnil p).
Qed.

Lemma ToString_inj a b : ToString (Some a) = ToString (Some b) -> a = b.
Proof.
  intros H. apply (f_equal parse_int) in H.
  rewrite !parse_ToString in H. congruence.
Qed.

Lemma length_append (s1 s2 : string) :
  String.length (s1 ++ s2) = (String.length s1 + String.length s2)%nat.
Proof. induction s1; simpl; congruence. Qed.

Lemma append_inj_l (a b c d : string) :
  String.length a = String.length b ->
  (a ++ c)%string = (b ++ d)%string -> a = b /\ c = d.
Proof.
  revert b. induction a as [|x a IH]; intros [|y b]; simpl; try discriminate.
  - auto.
  - intros [= L] [= -> E]. destruct (IH b L E) as [-> ->]. auto.
Qed.

Lemma two_digits n : 0 <= n <= 31 -> two_digits_ok n = true.
Proof.
  intros H.
  assert (E : n = Z.of_nat (Z.to_nat n)) by lia.
  assert (B : (Z.to_nat n < 32)%nat) by lia.
  rewrite E. generalize dependent (Z.to_nat n). clear.
  intros k _ B.
  do 32 (destruct k as [|k]; [reflexivity|]). lia.
Qed.

Lemma padStart2_length n :
  0 <= n <= 31 -> String.length (padStart2 (ToString (Some n))) = 2%nat.
Proof.
  intros H. pose proof (two_digits n H) as T. unfold two_digits_ok in T.
  apply andb_prop in T as [T _]. now apply Nat.eqb_eq in T.
Qed.

Lemma padStart2_inj a b :
  0 <= a <= 31 -> 0 <= b <= 31 ->
  padStart2 (ToString (Some a)) = padStart2 (ToString (Some b)) -> a = b.
Proof.
  intros Ha Hb E.
  pose proof (two_digits a Ha) as Ta. pose proof (two_digits b Hb) as Tb.
  unfold two_digits_ok in *. rewrite E in Ta.
  apply andb_prop in Ta as [_ Ta]. apply andb_prop in Tb as [_ Tb].
  destruct (parse_int (padStart2 (ToString (Some b)))); [|discriminate].
  apply Z.eqb_eq in Ta, Tb. lia.
Qed.

End JsStringFacts.

(** ** Sets of strings and objects *)

Module StringSetFacts.
Import JsObject.

Lemma set_has_In s k : set_has s k = true <-> In k s.
Proof.
  unfold set_has. rewrite existsb_exists. split.
  - intros (x & Hx & E). apply String.eqb_eq in E. now subst.
  - intros H. exists k. split; [exact H|apply String.eqb_refl].
Qed.

Lemma set_has_false s k : set_has s k = false <-> ~ In k s.
Proof.
  rewrite <- set_has_In. destruct (set_has s k); split; congruence.
Qed.

Lemma set_add_In s k x : In x (set_add s k) <-> In x s \/ x = k.
Proof.
  unfold set_add. destruct (set_has s k) eqn:E.
  - apply set_has_In in E. split; [auto|]. intros [H| ->]; assumption.
  - rewrite in_app_iff. simpl. intuition congruence.
Qed.

Lemma set_add_NoDup s k : NoDup s -> NoDup (set_add s k).
Proof.
  intros H. unfold set_add. destruct (set_has s k) eqn:E; [exact H|].
  apply set_has_false in E.
  apply NoDup_app; [exact H|repeat constructor; intros []|].
  intros x Hx [<-|[]]. contradiction.
Qed.

Lemma set_add_length s k :
  (List.length (set_add s k) <= S (List.length s))%nat.
Proof.
  unfold set_add. destruct (set_has s k); [lia|].
  rewrite length_app. simpl. lia.
Qed.

End StringSetFacts.

Module JsObjectFacts.
Import JsObject.

Section Facts.
Context {V : Type}.
Implicit Types (o : obj V) (k : string) (v : V).

Lemma get_set_same o k v : get (set o k v) k = Some v.
Proof.
  induction o as [|[k' v'] o IH]; simpl.
  - now rewrite String.eqb_refl.
  - destruct (String.eqb_spec k' k) as [->|N]; simpl.
    + now rewrite String.eqb_refl.
    + destruct (String.eqb_spec k' k); [contradiction|exact IH].
Qed.

Lemma get_set_other o k k' v : k <> k' -> get (set o k v) k' = get o k'.
Proof.
  intros N. induction o as [|[k0 v0] o IH]; simpl.
  - destruct (String.eqb_spec k k'); [contradiction|reflexivity].
  - destruct (String.eqb_spec k0 k) as [->|N0]; simpl.
    + destruct (String.eqb_spec k k'); [contradiction|reflexivity].
    + now rewrite IH.
Qed.

Lemma get_None o k : get o k = None <-> ~ In k (map fst o).
Proof.
  induction o as [|[k' v'] o IH]; simpl.
  - tauto.
  - destruct (String.eqb_spec k' k) as [->|N].
    + split; [discriminate|]. intros H. exfalso. auto.
    + rewrite IH. tauto.
Qed.

Lemma get_Some_In o k v : get o k = Some v -> In (k, v) o.
Proof.
  induction o as [|[k' v'] o IH]; simpl; [discriminate|].
  destruct (String.eqb_spec k' k) as [->|N].
  - intros [= ->]. now left.
  - auto.
Qed.

Lemma In_get o k v : NoDup (map fst o) -> In (k, v) o -> get o k = Some v.
Proof.
  induction o as [|[k' v'] o IH]; simpl; [tauto|].
  intros N [[= -> ->]|H].
  - now rewrite String.eqb_refl.
  - inversion N as [|? ? Hk N']; subst.
    destruct (String.eqb_spec k' k) as [->|_].
    + exfalso. apply Hk. apply in_map_iff. now exists (k, v).
    + auto.
Qed.

(** Assigning to a property that exists keeps the keys as they are;
    assigning to a new one appends its key. *)
Lemma keys_set_present o k v :
  In k (map fst o) -> map fst (set o k v) = map fst o.
Proof.
  induction o as [|[k' v'] o IH]; simpl; [tauto|].
  destruct (String.eqb_spec k' k) as [->|N]; simpl; [reflexivity|].
  intros [E|H]; [contradiction|]. now rewrite IH.
Qed.

Lemma keys_set_absent o k v :
  ~ In k (map fst o) -> map fst (set o k v) = map fst o ++ [k].
Proof.
  induction o as [|[k' v'] o IH]; simpl; [reflexivity|].
  destruct (String.eqb_spec k' k) as [->|N]; simpl.
  - intros H. exfalso. auto.
  - intros H. rewrite IH by tauto. reflexivity.
Qed.

Lemma insert_by_index_perm (p : string * V) l :
  Permutation (insert_by_index p l) (p :: l).
Proof.
  induction l as [|q l IH]; simpl; [reflexivity|].
  destruct (index_of (fst p) <=? index_of (fst q)); [reflexivity|].
  rewrite IH. apply perm_swap.
Qed.

Lemma sort_by_index_perm (l : list (string * V)) :
  Permutation (sort_by_index l) l.
Proof.
  induction l as [|p l IH]; simpl; [reflexivity|].
  rewrite insert_by_index_perm. now constructor.
Qed.

Lemma filter_partition_perm {A} (f : A -> bool) (l : list A) :
  Permutation (filter f l ++ filter (fun x => negb (f x)) l) l.
Proof.
  induction l as [|x l IH]; simpl; [reflexivity|].
  destruct (f x); simpl.
  - now constructor.
  - rewrite <- Permutation_middle. now constructor.
Qed.

Lemma entries_perm o : Permutation (entries o) o.
Proof.
  unfold entries. rewrite sort_by_index_perm.
  apply (filter_partition_perm (fun p => is_index (fst p))).
Qed.

Lemma entries_NoDup o : NoDup (map fst o) -> NoDup (map fst (entries o)).
Proof.
  intros H. eapply Permutation_NoDup; [|exact H].
  apply Permutation_map. symmetry. apply entries_perm.
Qed.

Lemma get_entries o k : NoDup (map fst o) -> get (entries o) k = get o k.
Proof.
  intros N. destruct (get o k) as [v|] eqn:E.
  - apply In_get; [now apply entries_NoDup|].
    apply (Permutation_in _ (Permutation_sym (entries_perm o))).
    now apply get_Some_In.
  - apply get_None. apply get_None in E. intros H. apply E.
    eapply Permutation_in; [|exact H].
    apply Permutation_map, entries_perm.
Qed.

(** Without array-index keys the enumeration is the creation order. *)
Lemma entries_no_index o :
  (forall k, In k (map fst o) -> is_index k = false) -> entries o = o.
Proof.
  intros H. unfold entries.
  assert (F : filter (fun p => is_index (fst p)) o = []).
  { induction o as [|[k v] o IH]; simpl; [reflexivity|].
    rewrite (H k) by (simpl; auto). apply IH. intros k' Hk'. apply H.
    simpl. auto. }
  rewrite F. simpl.
  induction o as [|[k v] o IH]; simpl; [reflexivity|].
  rewrite (H k) by (simpl; auto). simpl. f_equal. apply IH.
  - intros k' Hk'. apply H. simpl. auto.
  - simpl in F. rewrite (H k) in F by (simpl; auto). exact F.
Qed.

End Facts.
End JsObjectFacts.

(** ** Binary64 arithmetic *)

Module Binary64Facts.
Import JsNumber Binary64.

Lemma emin_value : emin = -1074.
Proof. reflexivity. Qed.

Lemma fexp_value e : fexp e = Z.max (e - 53) (-1074).
Proof. reflexivity. Qed.

Lemma fexp_mono a b : a <= b -> fexp a <= fexp b.
Proof. rewrite !fexp_value. lia. Qed.

(** *** Number of binary digits *)

Lemma digits_bounds p :
  2 ^ (Z.pos (digits2_pos p) - 1) <= Z.pos p < 2 ^ Z.pos (digits2_pos p).
Proof.
  induction p as [p IH|p IH|]; cbn [digits2_pos].
  - rewrite Pos2Z.inj_succ.
    replace (Z.succ (Z.pos (digits2_pos p)) - 1)
      with (Z.succ (Z.pos (digits2_pos p) - 1)) by lia.
    rewrite !Z.pow_succ_r by lia. lia.
  - rewrite Pos2Z.inj_succ.
    replace (Z.succ (Z.pos (digits2_pos p)) - 1)
      with (Z.succ (Z.pos (digits2_pos p) - 1)) by lia.
    rewrite !Z.pow_succ_r by lia. lia.
  - simpl. lia.
Qed.

Lemma Zdigits2_bounds m :
  0 < m -> 2 ^ (Zdigits2 m - 1) <= m < 2 ^ Zdigits2 m.
Proof. destruct m as [|p|p]; try lia. intros _. apply digits_bounds. Qed.

Lemma Zdigits2_pos m : 0 < m -> 0 < Zdigits2 m.
Proof. destruct m; simpl; lia. Qed.

Lemma Zdigits2_unique m d :
  2 ^ (d - 1) <= m < 2 ^ d -> 0 < d -> Zdigits2 m = d.
Proof.
  intros H Hd.
  assert (Hm : 0 < m).
  { pose proof (Z.pow_pos_nonneg 2 (d - 1)). lia. }
  pose proof (Zdigits2_bounds m Hm) as B.
  pose proof (Zdigits2_pos m Hm) as P.
  destruct (Z.lt_trichotomy (Zdigits2 m) d) as [L|[E|G]]; [|exact E|].
  - assert (2 ^ Zdigits2 m <= 2 ^ (d - 1)) by (apply Z.pow_le_mono_r; lia).
    lia.
  - assert (2 ^ d <= 2 ^ (Zdigits2 m - 1)) by (apply Z.pow_le_mono_r; lia).
    lia.
Qed.

Lemma Zdigits2_shift m k :
  0 < m -> 0 <= k -> Zdigits2 (m * 2 ^ k) = Zdigits2 m + k.
Proof.
  intros Hm Hk. pose proof (Zdigits2_bounds m Hm) as B.
  pose proof (Zdigits2_pos m Hm) as P.
  apply Zdigits2_unique; [|lia].
  replace (Zdigits2 m + k - 1) with (Zdigits2 m - 1 + k) by lia.
  rewrite !Z.pow_add_r by lia.
  pose proof (Z.pow_pos_nonneg 2 k ltac:(lia) Hk). nia.
Qed.

Lemma Zdigits2_mono a b : 0 < a -> a <= b -> Zdigits2 a <= Zdigits2 b.
Proof.
  intros Ha Hab.
  pose proof (Zdigits2_bounds a Ha) as Ba.
  pose proof (Zdigits2_bounds b ltac:(lia)) as Bb.
  pose proof (Zdigits2_pos a Ha).
  destruct (Z_le_gt_dec (Zdigits2 a) (Zdigits2 b)) as [L|G]; [exact L|].
  assert (2 ^ Zdigits2 b <= 2 ^ (Zdigits2 a - 1))
    by (apply Z.pow_le_mono_r; lia).
  lia.
Qed.

(** *** Shifting right *)

Lemma iter_pos_nat {A} (f : A -> A) p : forall x,
  iter_pos f p x = Nat.iter (Pos.to_nat p) f x.
Proof.
  induction p as [p IH|p IH|]; intros x; cbn [iter_pos].
  - rewrite !IH. rewrite Pos2Nat.inj_xI.
    replace (S (2 * Pos.to_nat p)) with (Pos.to_nat p + (Pos.to_nat p + 1))%nat
      by lia.
    rewrite !Nat.iter_add. reflexivity.
  - rewrite !IH. rewrite Pos2Nat.inj_xO.
    replace (2 * Pos.to_nat p)%nat with (Pos.to_nat p + Pos.to_nat p)%nat
      by lia.
    rewrite Nat.iter_add. reflexivity.
  - reflexivity.
Qed.

Lemma shr_1_m mrs : 0 <= shr_m mrs -> shr_m (shr_1 mrs) = shr_m mrs / 2.
Proof.
  destruct mrs as [m r s]. cbn [shr_m]. intros H.
  destruct m as [|[p|p|]|p]; try lia; cbn [shr_1 shr_m].
  - reflexivity.
  - rewrite Pos2Z.inj_xI. Z.to_euclidean_division_equations. lia.
  - rewrite Pos2Z.inj_xO. Z.to_euclidean_division_equations. lia.
  - reflexivity.
Qed.

Lemma shr_iter_m n : forall mrs,
  0 <= shr_m mrs ->
  shr_m (Nat.iter n shr_1 mrs) = shr_m mrs / 2 ^ Z.of_nat n.
Proof.
  induction n as [|n IH]; intros mrs H.
  - simpl. now rewrite Z.div_1_r.
  - rewrite Nat.iter_succ, shr_1_m.
    + rewrite IH by exact H. rewrite Nat2Z.inj_succ, Z.pow_succ_r by lia.
      rewrite Z.div_div by lia. f_equal. lia.
    + rewrite IH by exact H. apply Z.div_pos; [exact H|].
      apply Z.pow_pos_nonneg; lia.
Qed.

(** Shifting out zeros keeps an exact value exact. *)
Lemma shr_iter_exact n : forall k,
  0 <= k ->
  Nat.iter n shr_1 (Build_shr_record (k * 2 ^ Z.of_nat n) false false)
  = Build_shr_record k false false.
Proof.
  induction n as [|n IH]; intros k Hk.
  - simpl. now rewrite Z.mul_1_r.
  - rewrite Nat2Z.inj_succ, Z.pow_succ_r by lia.
    replace (k * (2 * 2 ^ Z.of_nat n)) with ((2 * k) * 2 ^ Z.of_nat n) by lia.
    rewrite Nat.iter_succ, IH by lia.
    destruct k as [|p|p]; try lia; reflexivity.
Qed.

Lemma shr_positive (mrs : shr_record) e n :
  0 < n ->
  shr mrs e n = (Nat.iter (Z.to_nat n) shr_1 mrs, e + n).
Proof.
  intros H. destruct n as [|p|p]; try lia.
  unfold shr. rewrite iter_pos_nat. now rewrite Z2Nat.inj_pos.
Qed.

Lemma shr_nonpositive (mrs : shr_record) e n : n <= 0 -> shr mrs e n = (mrs, e).
Proof. intros H. destruct n as [|p|p]; try lia; reflexivity. Qed.

(** *** Rounding *)

Lemma shr_m_of_loc m l : shr_m (shr_record_of_loc m l) = m.
Proof. destruct l as [|[]]; reflexivity. Qed.

Lemma loc_of_loc m l : loc_of_shr_record (shr_record_of_loc m l) = l.
Proof. destruct l as [|[]]; reflexivity. Qed.

Lemma round_nearest_even_cases m l :
  round_nearest_even m l = m
  \/ (round_nearest_even m l = m + 1 /\ l <> loc_Exact).
Proof.
  destruct l as [|[]]; cbn [round_nearest_even]; auto.
  - destruct (Z.even m); [auto|right; split; [reflexivity|discriminate]].
  - right. split; [reflexivity|discriminate].
Qed.

(** The first step of [binary_round_aux]: truncation to the exponent
    [fexp (digits m + e)], when that does not lie below [e]. *)
Lemma shr_fexp_truncate m e l :
  0 <= m ->
  e <= fexp (Zdigits2 m + e) ->
  let n := fexp (Zdigits2 m + e) - e in
  exists mrs,
    shr_fexp prec emax m e l = (mrs, e + n)
    /\ shr_m mrs = m / 2 ^ n
    /\ (l = loc_Exact -> m mod 2 ^ n = 0 ->
        loc_of_shr_record mrs = loc_Exact).
Proof.
  intros Hm He n. unfold shr_fexp. fold (fexp (Zdigits2 m + e)). fold n.
  destruct (Z.eq_dec n 0) as [E|N].
  - rewrite E. cbn [shr]. exists (shr_record_of_loc m l).
    rewrite Z.add_0_r, shr_m_of_loc, Z.div_1_r.
    split; [reflexivity|]. split; [reflexivity|].
    intros -> _. reflexivity.
  - assert (P : 0 < n) by (unfold n in *; lia).
    rewrite shr_positive by exact P.
    exists (Nat.iter (Z.to_nat n) shr_1 (shr_record_of_loc m l)).
    split; [reflexivity|]. split.
    + rewrite shr_iter_m by (rewrite shr_m_of_loc; exact Hm).
      rewrite shr_m_of_loc, Z2Nat.id by lia. reflexivity.
    + intros -> Hmod. cbn [shr_record_of_loc].
      assert (Em : m = (m / 2 ^ n) * 2 ^ Z.of_nat (Z.to_nat n)).
      { rewrite Z2Nat.id by lia.
        pose proof (Z.div_mod m (2 ^ n)
                      ltac:(pose proof (Z.pow_pos_nonneg 2 n); lia)).
        lia. }
      rewrite Em at 1. rewrite shr_iter_exact; [reflexivity|].
      apply Z.div_pos; [exact Hm|apply Z.pow_pos_nonneg; lia].
Qed.

Lemma truncated_small m e :
  0 <= m ->
  e <= fexp (Zdigits2 m + e) ->
  m / 2 ^ (fexp (Zdigits2 m + e) - e) < 2 ^ 53.
Proof.
  intros Hm He. set (n := fexp (Zdigits2 m + e) - e).
  assert (Hn : 0 <= n) by (unfold n; lia).
  pose proof (Z.pow_pos_nonneg 2 n ltac:(lia) Hn) as P.
  apply Z.div_lt_upper_bound; [exact P|].
  destruct (Z.eq_dec m 0) as [->|N].
  { pose proof (Z.pow_pos_nonneg 2 53). lia. }
  pose proof (Zdigits2_bounds m ltac:(lia)) as B.
  pose proof (Zdigits2_pos m ltac:(lia)) as D.
  assert (L : Zdigits2 m <= n + 53).
  { unfold n. rewrite fexp_value. lia. }
  assert (2 ^ Zdigits2 m <= 2 ^ (n + 53)) by (apply Z.pow_le_mono_r; lia).
  rewrite Z.pow_add_r in H by lia. lia.
Qed.

Lemma second_shift m2 e1 :
  0 <= m2 <= 2 ^ 53 ->
  emin <= e1 ->
  (let '(mrs, e2) := shr_fexp prec emax m2 e1 loc_Exact in
   match shr_m mrs with
   | 0 => S754_zero false
   | Z.pos p =>
       if e2 <=? emax - prec then S754_finite false p e2
       else S754_infinity false
   | Z.neg _ => S754_nan
   end) = round_result m2 e1.
Proof.
  intros Hm He. rewrite emin_value in He. unfold round_result, shr_fexp.
  fold (fexp (Zdigits2 m2 + e1)).
  destruct (Z.eqb_spec m2 0) as [->|N0].
  { cbn [Zdigits2]. rewrite shr_nonpositive; [reflexivity|].
    rewrite fexp_value. lia. }
  destruct (Z.eqb_spec m2 (2 ^ 53)) as [->|N1].
  { change (Zdigits2 (2 ^ 53)) with 54.
    replace (fexp (54 + e1) - e1) with 1 by (rewrite fexp_value; lia).
    reflexivity. }
  pose proof (Zdigits2_bounds m2 ltac:(lia)) as B.
  assert (D : Zdigits2 m2 <= 53).
  { destruct (Z_le_gt_dec (Zdigits2 m2) 53) as [L|G]; [exact L|].
    assert (2 ^ 53 <= 2 ^ (Zdigits2 m2 - 1))
      by (apply Z.pow_le_mono_r; lia).
    lia. }
  rewrite shr_nonpositive by (rewrite fexp_value; lia).
  cbn [shr_record_of_loc shr_m].
  destruct m2 as [|p|p]; try lia. reflexivity.
Qed.

Lemma binary_round_aux_cases m e l :
  0 <= m ->
  e <= fexp (Zdigits2 m + e) ->
  let n := fexp (Zdigits2 m + e) - e in
  exists m2,
    (m2 = m / 2 ^ n
     \/ (m2 = m / 2 ^ n + 1 /\ (l <> loc_Exact \/ m mod 2 ^ n <> 0)))
    /\ binary_round_aux prec emax false m e l = round_result m2 (e + n).
Proof.
  intros Hm He n.
  destruct (shr_fexp_truncate m e l Hm He) as (mrs & Hs & Hm1 & Hloc).
  fold n in Hs, Hm1, Hloc.
  pose proof (truncated_small m e Hm He) as Small. fold n in Small.
  assert (Hn : 0 <= n) by (unfold n; lia).
  assert (P1 : 0 <= m / 2 ^ n)
    by (apply Z.div_pos; [exact Hm|apply Z.pow_pos_nonneg; lia]).
  exists (round_nearest_even (m / 2 ^ n) (loc_of_shr_record mrs)).
  assert (C : round_nearest_even (m / 2 ^ n) (loc_of_shr_record mrs)
              = m / 2 ^ n
              \/ (round_nearest_even (m / 2 ^ n) (loc_of_shr_record mrs)
                  = m / 2 ^ n + 1
                  /\ (l <> loc_Exact \/ m mod 2 ^ n <> 0))).
  { destruct (round_nearest_even_cases (m / 2 ^ n) (loc_of_shr_record mrs))
      as [E|[E NE]]; [now left|right].
    split; [exact E|].
    destruct l as [|c]; [|left; discriminate].
    destruct (Z.eq_dec (m mod 2 ^ n) 0) as [Z0|NZ]; [|now right].
    exfalso. apply NE. now apply Hloc. }
  split; [exact C|].
  unfold binary_round_aux. rewrite Hs, Hm1.
  apply second_shift.
  - destruct C as [->|[-> _]]; lia.
  - unfold n. rewrite emin_value, fexp_value. lia.
Qed.

(** *** Values and their order *)

Lemma vle_scaled off m e m' e' :
  0 <= e + off -> 0 <= e' + off ->
  (vle m e m' e' <-> m * 2 ^ (e + off) <= m' * 2 ^ (e' + off)).
Proof.
  intros H1 H2. unfold vle.
  assert (Hk : 0 <= Z.min e e' + off) by lia.
  assert (E1 : 2 ^ (e + off)
               = 2 ^ (e - Z.min e e') * 2 ^ (Z.min e e' + off)).
  { rewrite <- Z.pow_add_r by lia. f_equal. lia. }
  assert (E2 : 2 ^ (e' + off)
               = 2 ^ (e' - Z.min e e') * 2 ^ (Z.min e e' + off)).
  { rewrite <- Z.pow_add_r by lia. f_equal. lia. }
  rewrite E1, E2.
  pose proof (Z.pow_pos_nonneg 2 (Z.min e e' + off) ltac:(lia) Hk) as P.
  rewrite !Z.mul_assoc. split; intros H.
  - apply Z.mul_le_mono_nonneg_r; lia.
  - apply Z.mul_le_mono_pos_r in H; lia.
Qed.

Lemma bounded_facts p e :
  SpecFloat.bounded prec emax p e = true ->
  fexp (Z.pos (digits2_pos p) + e) = e
  /\ -1074 <= e <= 971
  /\ Z.pos p < 2 ^ 53
  /\ (-1074 < e -> 2 ^ 52 <= Z.pos p).
Proof.
  unfold SpecFloat.bounded, canonical_mantissa. intros H.
  apply andb_prop in H as [C L]. apply Z.eqb_eq in C. apply Z.leb_le in L.
  fold (fexp (Z.pos (digits2_pos p) + e)) in C.
  pose proof (digits_bounds p) as B.
  assert (F := C). rewrite fexp_value in F.
  change (emax - prec) with 971 in L.
  split; [exact C|]. split; [lia|]. split.
  - assert (2 ^ Z.pos (digits2_pos p) <= 2 ^ 53)
      by (apply Z.pow_le_mono_r; lia).
    lia.
  - intros G. replace (Z.pos (digits2_pos p)) with 53 in B by lia.
    exact (proj1 B).
Qed.

Lemma truncated_large m e :
  0 <= m ->
  e <= fexp (Zdigits2 m + e) ->
  -1074 < fexp (Zdigits2 m + e) ->
  2 ^ 52 <= m / 2 ^ (fexp (Zdigits2 m + e) - e).
Proof.
  intros Hm He G. rewrite fexp_value in *.
  destruct (Z.eq_dec m 0) as [->|N]; [simpl in *; lia|].
  pose proof (Zdigits2_bounds m ltac:(lia)) as B.
  set (n := Z.max (Zdigits2 m + e - 53) (-1074) - e) in *.
  assert (Hn : 0 <= n) by (unfold n; lia).
  assert (D : Zdigits2 m - 1 = 52 + n) by (unfold n; lia).
  rewrite D, Z.pow_add_r in B by lia.
  apply Z.div_le_lower_bound; [apply Z.pow_pos_nonneg; lia|lia].
Qed.

(** No binary64 number lies strictly between [m1 * 2^e1] and
    [(m1 + 1) * 2^e1] when [m1] has at most 53 digits and [e1] is the
    exponent that goes with it. *)
Lemma grid_step mb eb m1 e1 off :
  SpecFloat.bounded prec emax mb eb = true ->
  0 <= eb + off -> 0 <= e1 + off ->
  (eb < e1 -> 2 ^ 52 <= m1) ->
  m1 * 2 ^ (e1 + off) < Z.pos mb * 2 ^ (eb + off) ->
  (m1 + 1) * 2 ^ (e1 + off) <= Z.pos mb * 2 ^ (eb + off).
Proof.
  intros Hb H1 H2 Hl Hlt.
  destruct (bounded_facts mb eb Hb) as (_ & _ & Small & _).
  destruct (Z_lt_ge_dec eb e1) as [L|G].
  - exfalso. specialize (Hl L).
    assert (E : 2 ^ (e1 + off) = 2 * 2 ^ (e1 - eb - 1) * 2 ^ (eb + off)).
    { rewrite <- (Z.pow_succ_r 2 (e1 - eb - 1)) by lia.
      rewrite <- Z.pow_add_r by lia. f_equal. lia. }
    rewrite E in Hlt.
    pose proof (Z.pow_pos_nonneg 2 (e1 - eb - 1) ltac:(lia) ltac:(lia)).
    pose proof (Z.pow_pos_nonneg 2 (eb + off) ltac:(lia) H1).
    change (2 ^ 52) with 4503599627370496 in *.
    change (2 ^ 53) with 9007199254740992 in *. nia.
  - assert (E : 2 ^ (eb + off) = 2 ^ (eb - e1) * 2 ^ (e1 + off)).
    { rewrite <- Z.pow_add_r by lia. f_equal. lia. }
    rewrite E in *. clear E.
    pose proof (Z.pow_pos_nonneg 2 (eb - e1) ltac:(lia) ltac:(lia)).
    pose proof (Z.pow_pos_nonneg 2 (e1 + off) ltac:(lia) H2) as PY.
    rewrite Z.mul_assoc in *.
    apply Z.mul_lt_mono_pos_r in Hlt; [|exact PY].
    apply Z.mul_le_mono_nonneg_r; lia.
Qed.

Lemma bounded_intro p e :
  Z.pos p < 2 ^ 53 ->
  -1074 <= e <= 971 ->
  (-1074 < e -> 2 ^ 52 <= Z.pos p) ->
  SpecFloat.bounded prec emax p e = true.
Proof.
  intros Small He Large. unfold SpecFloat.bounded, canonical_mantissa.
  fold (fexp (Z.pos (digits2_pos p) + e)).
  apply andb_true_intro. split; [|apply Z.leb_le; change (emax - prec) with 971; lia].
  apply Z.eqb_eq. rewrite fexp_value.
  pose proof (digits_bounds p) as B.
  assert (D : Z.pos (digits2_pos p) <= 53).
  { destruct (Z_le_gt_dec (Z.pos (digits2_pos p)) 53) as [L|G]; [exact L|].
    assert (2 ^ 53 <= 2 ^ (Z.pos (digits2_pos p) - 1))
      by (apply Z.pow_le_mono_r; lia).
    lia. }
  destruct (Z.eq_dec e (-1074)) as [->|N]; [lia|].
  specialize (Large ltac:(lia)).
  assert (D' : 53 <= Z.pos (digits2_pos p)).
  { destruct (Z_le_gt_dec 53 (Z.pos (digits2_pos p))) as [L|G]; [exact L|].
    assert (2 ^ Z.pos (digits2_pos p) <= 2 ^ 52)
      by (apply Z.pow_le_mono_r; lia).
    lia. }
  lia.
Qed.

Lemma round_result_le m2 e1 mb eb off :
  SpecFloat.bounded prec emax mb eb = true ->
  0 <= m2 <= 2 ^ 53 ->
  -1074 <= e1 ->
  0 <= e1 + off -> 0 <= eb + off ->
  (-1074 < e1 -> 2 ^ 52 <= m2) ->
  m2 * 2 ^ (e1 + off) <= Z.pos mb * 2 ^ (eb + off) ->
  round_result m2 e1 = S754_zero false
  \/ exists p e',
       round_result m2 e1 = S754_finite false p e'
       /\ SpecFloat.bounded prec emax p e' = true
       /\ vle (Z.pos p) e' (Z.pos mb) eb.
Proof.
  intros Hb Hm He H1 H2 Large Hle.
  destruct (bounded_facts mb eb Hb) as (_ & Heb & Small & _).
  pose proof (Z.pow_pos_nonneg 2 (e1 + off) ltac:(lia) H1) as PY.
  pose proof (Z.pow_pos_nonneg 2 (eb + off) ltac:(lia) H2) as PW.
  change (2 ^ 52) with 4503599627370496 in *.
  change (2 ^ 53) with 9007199254740992 in *.
  (* the exponent cannot exceed that of the bound by much *)
  assert (Top : 4503599627370496 <= m2 -> e1 <= eb).
  { intros G. destruct (Z_le_gt_dec e1 eb) as [L|G']; [exact L|]. exfalso.
    assert (E : 2 ^ (e1 + off) = 2 * 2 ^ (e1 - eb - 1) * 2 ^ (eb + off)).
    { rewrite <- (Z.pow_succ_r 2 (e1 - eb - 1)) by lia.
      rewrite <- Z.pow_add_r by lia. f_equal. lia. }
    rewrite E in Hle.
    pose proof (Z.pow_pos_nonneg 2 (e1 - eb - 1) ltac:(lia) ltac:(lia)).
    nia. }
  unfold round_result.
  change (2 ^ 52) with 4503599627370496 in *.
  change (2 ^ 53) with 9007199254740992 in *.
  destruct (Z.eqb_spec m2 0) as [->|N0]; [now left|right].
  destruct (Z.eqb_spec m2 9007199254740992) as [->|N1].
  - assert (L : e1 + 1 <= eb).
    { destruct (Z_le_gt_dec (e1 + 1) eb) as [L|G']; [exact L|]. exfalso.
      assert (E : 2 ^ (e1 + off) = 2 ^ (e1 - eb) * 2 ^ (eb + off)).
      { rewrite <- Z.pow_add_r by lia. f_equal. lia. }
      rewrite E in Hle.
      pose proof (Z.pow_pos_nonneg 2 (e1 - eb) ltac:(lia) ltac:(lia)).
      nia. }
    destruct (Z.leb_spec (e1 + 1) 971) as [_|G]; [|lia].
    exists (Z.to_pos 4503599627370496), (e1 + 1).
    split; [reflexivity|]. split.
    + apply bounded_intro; simpl; lia.
    + apply (vle_scaled off); [lia|lia|].
      replace (e1 + 1 + off) with (Z.succ (e1 + off)) by lia.
      rewrite Z.pow_succ_r by lia.
      change (Z.pos (Z.to_pos 4503599627370496)) with 4503599627370496. lia.
  - assert (L : -1074 < e1 -> e1 <= eb) by (intros G; apply Top, Large, G).
    destruct (Z.leb_spec e1 971) as [_|G]; [|lia].
    exists (Z.to_pos m2), e1.
    assert (Pm : Z.pos (Z.to_pos m2) = m2) by (apply Z2Pos.id; lia).
    split; [reflexivity|]. split.
    + apply bounded_intro; rewrite ?Pm;
        change (2 ^ 52) with 4503599627370496;
        change (2 ^ 53) with 9007199254740992; lia.
    + apply (vle_scaled off); [lia|lia|]. now rewrite Pm.
Qed.

(** Rounding to nearest never crosses a binary64 number: if the value
    [(m, l) * 2^e] does not exceed the number [mb * 2^eb], neither does the
    result of rounding it. *)
Lemma round_aux_le m e l mb eb :
  0 <= m ->
  e <= fexp (Zdigits2 m + e) ->
  SpecFloat.bounded prec emax mb eb = true ->
  (l = loc_Exact /\ vle m e (Z.pos mb) eb) \/ vle (m + 1) e (Z.pos mb) eb ->
  binary_round_aux prec emax false m e l = S754_zero false
  \/ exists p e',
       binary_round_aux prec emax false m e l = S754_finite false p e'
       /\ SpecFloat.bounded prec emax p e' = true
       /\ vle (Z.pos p) e' (Z.pos mb) eb.
Proof.
  intros Hm He Hb Hv.
  destruct (binary_round_aux_cases m e l Hm He) as (m2 & C & ->).
  pose proof (truncated_small m e Hm He) as Small.
  set (n := fexp (Zdigits2 m + e) - e) in *.
  assert (Hn : 0 <= n) by (unfold n; lia).
  pose proof (Z.pow_pos_nonneg 2 n ltac:(lia) Hn) as PN.
  assert (P1 : 0 <= m / 2 ^ n) by (apply Z.div_pos; lia).
  assert (Dm : m = 2 ^ n * (m / 2 ^ n) + m mod 2 ^ n)
    by (apply Z.div_mod; lia).
  pose proof (Z.mod_pos_bound m (2 ^ n) PN) as Rm.
  assert (He1 : -1074 <= e + n)
    by (unfold n; rewrite fexp_value; lia).
  set (off := - Z.min e eb).
  assert (O1 : 0 <= e + off) by (unfold off; lia).
  assert (O2 : 0 <= eb + off) by (unfold off; lia).
  assert (EY : 2 ^ (e + n + off) = 2 ^ n * 2 ^ (e + off)).
  { rewrite <- Z.pow_add_r by lia. f_equal. lia. }
  pose proof (Z.pow_pos_nonneg 2 (e + off) ltac:(lia) O1) as PX.
  assert (Large : -1074 < e + n -> 2 ^ 52 <= m / 2 ^ n).
  { intros G. apply truncated_large; [exact Hm|exact He|].
    unfold n in G. lia. }
  assert (Hv' : (l = loc_Exact /\ m * 2 ^ (e + off) <= Z.pos mb * 2 ^ (eb + off))
                \/ (m + 1) * 2 ^ (e + off) <= Z.pos mb * 2 ^ (eb + off)).
  { destruct Hv as [[El Hv]|Hv]; [left; split; [exact El|]|right];
      apply (vle_scaled off) in Hv; assumption. }
  assert (Down : (m / 2 ^ n) * 2 ^ (e + n + off)
                 <= Z.pos mb * 2 ^ (eb + off)).
  { rewrite EY. destruct Hv' as [[_ Hv']|Hv']; nia. }
  apply (round_result_le m2 (e + n) mb eb off); try assumption; try lia.
  destruct C as [->|[-> NE]]; [exact Down|].
  apply grid_step; try assumption; try lia.
  - intros L. apply Large. destruct (bounded_facts mb eb Hb) as (_ & B & _).
    lia.
  - rewrite EY. destruct Hv' as [[El Hv']|Hv'].
    + destruct NE as [NE|NE]; [contradiction|]. nia.
    + nia.
Qed.

(** *** Exact results *)

(** Rounding a value that is a binary64 number returns that number. *)
Lemma round_aux_exact mc ec e :
  SpecFloat.bounded prec emax mc ec = true ->
  e <= ec ->
  binary_round_aux prec emax false (Z.pos mc * 2 ^ (ec - e)) e loc_Exact
  = S754_finite false mc ec.
Proof.
  intros Hb He. destruct (bounded_facts mc ec Hb) as (F & Hec & Small & _).
  set (m := Z.pos mc * 2 ^ (ec - e)).
  pose proof (Z.pow_pos_nonneg 2 (ec - e) ltac:(lia) ltac:(lia)) as PN.
  assert (D : Zdigits2 m + e = Z.pos (digits2_pos mc) + ec).
  { unfold m. rewrite Zdigits2_shift by lia. simpl Zdigits2. lia. }
  assert (He' : e <= fexp (Zdigits2 m + e)) by (rewrite D, F; exact He).
  destruct (binary_round_aux_cases m e loc_Exact ltac:(unfold m; lia) He')
    as (m2 & C & ->).
  rewrite D, F in C. rewrite D, F.
  assert (Q : m / 2 ^ (ec - e) = Z.pos mc)
    by (unfold m; apply Z.div_mul; lia).
  assert (R : m mod 2 ^ (ec - e) = 0)
    by (unfold m; apply Z.mod_mul; lia).
  destruct C as [->|[_ [NE|NE]]]; [|contradiction|contradiction].
  rewrite Q. unfold round_result.
  destruct (Z.eqb_spec (Z.pos mc) 0); [lia|].
  destruct (Z.eqb_spec (Z.pos mc) (2 ^ 53)); [lia|].
  replace (e + (ec - e)) with ec by lia.
  destruct (Z.leb_spec ec 971); [reflexivity|lia].
Qed.

Lemma iter_xO m d : Z.pos (Pos.iter xO m d) = Z.pos m * 2 ^ Z.pos d.
Proof.
  induction d as [|d IH] using Pos.peano_ind.
  - simpl. lia.
  - rewrite Pos.iter_succ, Pos2Z.inj_xO, IH, Pos2Z.inj_succ.
    rewrite Z.pow_succ_r by lia. lia.
Qed.

Lemma shl_align_value m e e' :
  e' <= e ->
  Z.pos (fst (shl_align m e e')) = Z.pos m * 2 ^ (e - e')
  /\ snd (shl_align m e e') = e'.
Proof.
  intros H. unfold shl_align.
  destruct (e' - e) as [|d|d] eqn:E; cbn [fst snd].
  - replace (e - e') with 0 by lia. split; lia.
  - lia.
  - rewrite iter_xO. replace (e - e') with (Z.pos d) by lia. split; lia.
Qed.

Lemma shl_align_keep m e e' : e <= e' -> shl_align m e e' = (m, e).
Proof.
  intros H. unfold shl_align. destruct (e' - e) as [|d|d] eqn:E; try reflexivity.
  lia.
Qed.

(** Same, for [binary_round], which first aligns the mantissa. *)
Lemma binary_round_exact m e mc ec :
  SpecFloat.bounded prec emax mc ec = true ->
  Z.pos m * 2 ^ (e - Z.min e ec) = Z.pos mc * 2 ^ (ec - Z.min e ec) ->
  binary_round prec emax false m e = S754_finite false mc ec.
Proof.
  intros Hb V. destruct (bounded_facts mc ec Hb) as (F & _).
  assert (D : Z.pos (digits2_pos m) + e = Z.pos (digits2_pos mc) + ec).
  { pose proof (Zdigits2_shift (Z.pos m) (e - Z.min e ec)
                  ltac:(lia) ltac:(lia)) as D1.
    pose proof (Zdigits2_shift (Z.pos mc) (ec - Z.min e ec)
                  ltac:(lia) ltac:(lia)) as D2.
    rewrite V in D1. rewrite D1 in D2. simpl Zdigits2 in D2. lia. }
  unfold binary_round. fold (fexp (Z.pos (digits2_pos m) + e)).
  rewrite D, F.
  destruct (Z_le_gt_dec e ec) as [L|G].
  - rewrite shl_align_keep by exact L.
    replace (Z.min e ec) with e in V by lia.
    replace (e - e) with 0 in V by lia. rewrite Z.mul_1_r in V.
    rewrite V. now apply round_aux_exact.
  - destruct (shl_align_value m e ec ltac:(lia)) as [Vm Ve].
    destruct (shl_align m e ec) as [mz ez]. cbn [fst snd] in *. subst ez.
    replace (Z.min e ec) with ec in V by lia.
    replace (ec - ec) with 0 in V by lia. rewrite Z.mul_1_r in V.
    rewrite Vm, V.
    replace (Z.pos mc) with (Z.pos mc * 2 ^ (ec - ec))
      by (replace (ec - ec) with 0 by lia; lia).
    apply round_aux_exact; [exact Hb|lia].
Qed.

(** *** Integers *)

Lemma canon_facts n :
  0 < n < 2 ^ 53 ->
  0 <= 53 - Zdigits2 n
  /\ Z.pos (canon_m n) = n * 2 ^ (53 - Zdigits2 n)
  /\ SpecFloat.bounded prec emax (canon_m n) (canon_e n) = true.
Proof.
  intros H. pose proof (Zdigits2_bounds n ltac:(lia)) as B.
  pose proof (Zdigits2_pos n ltac:(lia)) as P.
  assert (D : Zdigits2 n <= 53).
  { destruct (Z_le_gt_dec (Zdigits2 n) 53) as [L|G]; [exact L|].
    assert (2 ^ 53 <= 2 ^ (Zdigits2 n - 1)) by (apply Z.pow_le_mono_r; lia).
    lia. }
  pose proof (Z.pow_pos_nonneg 2 (53 - Zdigits2 n) ltac:(lia) ltac:(lia)) as PS.
  assert (V : Z.pos (canon_m n) = n * 2 ^ (53 - Zdigits2 n))
    by (unfold canon_m; apply Z2Pos.id; nia).
  split; [lia|]. split; [exact V|].
  assert (E1 : 2 ^ 53 = 2 ^ Zdigits2 n * 2 ^ (53 - Zdigits2 n)).
  { rewrite <- Z.pow_add_r by lia. f_equal. lia. }
  assert (E2 : 2 ^ 52 = 2 ^ (Zdigits2 n - 1) * 2 ^ (53 - Zdigits2 n)).
  { rewrite <- Z.pow_add_r by lia. f_equal. lia. }
  apply bounded_intro; unfold canon_e; rewrite ?V; try lia.
  - rewrite E1. apply Z.mul_lt_mono_pos_r; lia.
  - intros _. rewrite E2. apply Z.mul_le_mono_nonneg_r; lia.
Qed.

Lemma of_Z_canon n :
  0 < n < 2 ^ 53 -> of_Z n = S754_finite false (canon_m n) (canon_e n).
Proof.
  intros H. destruct (canon_facts n H) as (D & V & Hb).
  unfold of_Z. destruct n as [|p|p]; try lia. cbn [binary_normalize].
  apply binary_round_exact; [exact Hb|].
  unfold canon_e in *. replace (Z.min 0 (Zdigits2 (Z.pos p) - 53))
    with (Zdigits2 (Z.pos p) - 53) by lia.
  rewrite V. replace (Zdigits2 (Z.pos p) - 53 - (Zdigits2 (Z.pos p) - 53))
    with 0 by lia.
  replace (0 - (Zdigits2 (Z.pos p) - 53)) with (53 - Zdigits2 (Z.pos p)) by lia.
  lia.
Qed.

Lemma of_Z_0 : of_Z 0 = S754_zero false.
Proof. reflexivity. Qed.

(** Adding integers is exact as long as the sum stays below [2^53]. *)
Lemma add_of_Z a b :
  0 <= a -> 0 <= b -> a + b < 2 ^ 53 ->
  add (of_Z a) (of_Z b) = of_Z (a + b).
Proof.
  intros Ha Hb Hab.
  destruct (Z.eq_dec a 0) as [->|Na].
  { rewrite of_Z_0. destruct (Z.eq_dec b 0) as [->|Nb]; [reflexivity|].
    rewrite Z.add_0_l, (of_Z_canon b) by lia. reflexivity. }
  destruct (Z.eq_dec b 0) as [->|Nb].
  { rewrite of_Z_0, Z.add_0_r, (of_Z_canon a) by lia. reflexivity. }
  rewrite (of_Z_canon a), (of_Z_canon b), (of_Z_canon (a + b)) by lia.
  destruct (canon_facts a ltac:(lia)) as (Da & Va & _).
  destruct (canon_facts b ltac:(lia)) as (Db & Vb & _).
  destruct (canon_facts (a + b) ltac:(lia)) as (Dc & Vc & Bc).
  unfold add, SFadd. cbn [cond_Zopp].
  set (ez := Z.min (canon_e a) (canon_e b)).
  destruct (shl_align_value (canon_m a) (canon_e a) ez ltac:(unfold ez; lia))
    as [Sa _].
  destruct (shl_align_value (canon_m b) (canon_e b) ez ltac:(unfold ez; lia))
    as [Sb _].
  rewrite Sa, Sb, Va, Vb.
  assert (Ea : a * 2 ^ (53 - Zdigits2 a) * 2 ^ (canon_e a - ez)
               = a * 2 ^ (- ez)).
  { rewrite <- Z.mul_assoc, <- Z.pow_add_r by (unfold ez, canon_e; lia).
    do 2 f_equal. unfold canon_e. lia. }
  assert (Eb : b * 2 ^ (53 - Zdigits2 b) * 2 ^ (canon_e b - ez)
               = b * 2 ^ (- ez)).
  { rewrite <- Z.mul_assoc, <- Z.pow_add_r by (unfold ez, canon_e; lia).
    do 2 f_equal. unfold canon_e. lia. }
  rewrite Ea, Eb, <- Z.mul_add_distr_r.
  assert (Hez : ez <= 0) by (unfold ez, canon_e; lia).
  pose proof (Z.pow_pos_nonneg 2 (- ez) ltac:(lia) ltac:(lia)) as PZ.
  destruct ((a + b) * 2 ^ (- ez)) as [|s|s] eqn:Es; try nia.
  cbn [binary_normalize]. apply binary_round_exact; [exact Bc|].
  rewrite <- Es, Vc.
  assert (Hec : canon_e (a + b) <= 0) by (unfold canon_e; lia).
  rewrite <- !Z.mul_assoc, <- !Z.pow_add_r by lia.
  do 2 f_equal. unfold canon_e. lia.
Qed.

(** *** The order on finite non-negative numbers *)

Lemma finite_nonneg_cases x :
  finite_nonneg x = true ->
  x = S754_zero false
  \/ exists m e, x = S754_finite false m e
                 /\ SpecFloat.bounded prec emax m e = true.
Proof.
  destruct x as [s|s| |s m e]; try destruct s; cbn [finite_nonneg]; try discriminate.
  - now left.
  - intros H. right. now exists m, e.
Qed.

Lemma le_rank x y :
  finite_nonneg x = true -> finite_nonneg y = true ->
  (le x y = true <-> rank_le (rank x) (rank y)).
Proof.
  intros Hx Hy.
  destruct (finite_nonneg_cases x Hx) as [->|(m & e & -> & Bx)];
    destruct (finite_nonneg_cases y Hy) as [->|(m' & e' & -> & By)];
    unfold le, SFleb, SFcompare, rank_le; cbn [rank fst snd].
  - split; [intros _; right; lia|reflexivity].
  - destruct (bounded_facts m' e' By) as (_ & He & _).
    split; [intros _; left; lia|reflexivity].
  - destruct (bounded_facts m e Bx) as (_ & He & _).
    split; [discriminate|lia].
  - rewrite Pos.compare_cont_spec. cbn [Pos.switch_Eq].
    destruct (Z.compare_spec e e') as [E|L|G].
    + destruct (Pos.compare_spec m m') as [E'|L'|G'];
        (split; [intros H; try discriminate; right; lia|intros [H|[_ H]]; try reflexivity; lia]).
    + split; [intros _; left; lia|reflexivity].
    + split; [discriminate|lia].
Qed.

Lemma lt_rank x y :
  finite_nonneg x = true -> finite_nonneg y = true ->
  (lt x y = true <-> ~ rank_le (rank y) (rank x)).
Proof.
  intros Hx Hy.
  destruct (finite_nonneg_cases x Hx) as [->|(m & e & -> & Bx)];
    destruct (finite_nonneg_cases y Hy) as [->|(m' & e' & -> & By)];
    unfold lt, SFltb, SFcompare, rank_le; cbn [rank fst snd].
  - split; [discriminate|lia].
  - destruct (bounded_facts m' e' By) as (_ & He & _).
    split; [lia|reflexivity].
  - destruct (bounded_facts m e Bx) as (_ & He & _).
    split; [discriminate|lia].
  - rewrite Pos.compare_cont_spec. cbn [Pos.switch_Eq].
    destruct (Z.compare_spec e e') as [E|L|G].
    + destruct (Pos.compare_spec m m') as [E'|L'|G'];
        (split; [intros H; try discriminate; lia|intros H; try reflexivity; lia]).
    + split; [lia|reflexivity].
    + split; [discriminate|lia].
Qed.

Lemma rank_inj x y :
  finite_nonneg x = true -> finite_nonneg y = true ->
  rank x = rank y -> x = y.
Proof.
  intros Hx Hy.
  destruct (finite_nonneg_cases x Hx) as [->|(m & e & -> & Bx)];
    destruct (finite_nonneg_cases y Hy) as [->|(m' & e' & -> & By)];
    cbn [rank]; intros H; try reflexivity.
  - destruct (bounded_facts m' e' By) as (_ & He & _).
    injection H as H1 H2. lia.
  - destruct (bounded_facts m e Bx) as (_ & He & _).
    injection H as H1 H2. lia.
  - injection H as H1 H2. now subst.
Qed.

Lemma le_antisym x y :
  finite_nonneg x = true -> finite_nonneg y = true ->
  le x y = true -> le y x = true -> x = y.
Proof.
  intros Hx Hy H1 H2. apply (le_rank x y Hx Hy) in H1.
  apply (le_rank y x Hy Hx) in H2. apply rank_inj; try assumption.
  unfold rank_le in *. destruct (rank x), (rank y). cbn [fst snd] in *.
  f_equal; lia.
Qed.

Lemma le_trans x y z :
  finite_nonneg x = true -> finite_nonneg y = true ->
  finite_nonneg z = true ->
  le x y = true -> le y z = true -> le x z = true.
Proof.
  intros Hx Hy Hz H1 H2. apply (le_rank x y Hx Hy) in H1.
  apply (le_rank y z Hy Hz) in H2. apply (le_rank x z Hx Hz).
  unfold rank_le in *. lia.
Qed.

Lemma le_refl x : finite_nonneg x = true -> le x x = true.
Proof. intros Hx. apply (le_rank x x Hx Hx). unfold rank_le. lia. Qed.

(** The order of the values is the order [le] computes. *)
Lemma le_vle m e m' e' :
  SpecFloat.bounded prec emax m e = true ->
  SpecFloat.bounded prec emax m' e' = true ->
  (le (S754_finite false m e) (S754_finite false m' e') = true
   <-> vle (Z.pos m) e (Z.pos m') e').
Proof.
  intros B B'.
  destruct (bounded_facts m e B) as (_ & He & S & L).
  destruct (bounded_facts m' e' B') as (_ & He' & S' & L').
  rewrite le_rank by (cbn [finite_nonneg]; assumption).
  unfold rank_le, vle. cbn [rank fst snd].
  change (2 ^ 52) with 4503599627370496 in *.
  change (2 ^ 53) with 9007199254740992 in *.
  destruct (Z.lt_trichotomy e e') as [Lt|[Eq|Gt]].
  - replace (Z.min e e') with e by lia. replace (e - e) with 0 by lia.
    assert (E : 2 ^ (e' - e) = 2 * 2 ^ (e' - e - 1)).
    { rewrite <- Z.pow_succ_r by lia. f_equal. lia. }
    pose proof (Z.pow_pos_nonneg 2 (e' - e - 1) ltac:(lia) ltac:(lia)).
    specialize (L' ltac:(lia)). rewrite E.
    split; [intros _; nia|intros _; left; lia].
  - subst e'. replace (Z.min e e) with e by lia.
    replace (e - e) with 0 by lia. simpl (2 ^ 0). lia.
  - replace (Z.min e e') with e' by lia. replace (e' - e') with 0 by lia.
    assert (E : 2 ^ (e - e') = 2 * 2 ^ (e - e' - 1)).
    { rewrite <- Z.pow_succ_r by lia. f_equal. lia. }
    pose proof (Z.pow_pos_nonneg 2 (e - e' - 1) ltac:(lia) ltac:(lia)).
    specialize (L ltac:(lia)). rewrite E.
    split; [lia|intros H1; nia].
Qed.

(** *** Division and multiplication below one *)

Lemma of_Z_1 : of_Z 1 = S754_finite false one_m one_e.
Proof. reflexivity. Qed.

Lemma one_bounded : SpecFloat.bounded prec emax one_m one_e = true.
Proof. reflexivity. Qed.

Lemma new_location_exact n : new_location n 0 = loc_Exact.
Proof.
  unfold new_location, new_location_even, new_location_odd.
  destruct (Z.even n); reflexivity.
Qed.

(** [vle q e 1]: the integer form of [q * 2^e <= 1] for [e <= 0]. *)
Lemma vle_one q e : e <= 0 -> (vle q e (Z.pos one_m) one_e <-> q <= 2 ^ (- e)).
Proof.
  intros He. rewrite (vle_scaled (52 - e)) by (unfold one_e; lia).
  unfold one_e, one_m. change (Z.pos (Z.to_pos (2 ^ 52))) with (2 ^ 52).
  replace (e + (52 - e)) with 52 by lia.
  replace (-52 + (52 - e)) with (- e) by lia.
  change (2 ^ 52) with 4503599627370496. lia.
Qed.

Lemma shift_match (s m : Z) :
  0 <= s ->
  match s with
  | 0 => m
  | Z.pos _ => Z.shiftl m s
  | Z.neg _ => 0
  end = m * 2 ^ s.
Proof.
  intros H. destruct s as [|p|p]; try lia.
  apply Z.shiftl_mul_pow2. lia.
Qed.

(** The quotient and its position, for a dividend not above the divisor. *)
Lemma div_core_below mv ev mM eM :
  SpecFloat.bounded prec emax mv ev = true ->
  SpecFloat.bounded prec emax mM eM = true ->
  vle (Z.pos mv) ev (Z.pos mM) eM ->
  let '(q, e', l) :=
    SFdiv_core_binary prec emax (Z.pos mv) ev (Z.pos mM) eM in
  0 <= q
  /\ e' <= fexp (Zdigits2 q + e')
  /\ ((l = loc_Exact /\ vle q e' (Z.pos one_m) one_e)
      \/ vle (q + 1) e' (Z.pos one_m) one_e).
Proof.
  intros Bv BM V. unfold SFdiv_core_binary.
  cbn [Zdigits2].
  set (d1 := Z.pos (digits2_pos mv)). set (d2 := Z.pos (digits2_pos mM)).
  fold (fexp (d1 + ev - (d2 + eM))).
  set (e' := Z.min (fexp (d1 + ev - (d2 + eM))) (ev - eM)).
  set (s := ev - eM - e').
  pose proof (digits_bounds mv) as Dv. pose proof (digits_bounds mM) as DM.
  fold d1 in Dv. fold d2 in DM.
  assert (Pd1 : 0 < d1) by (unfold d1; lia).
  assert (Pd2 : 0 < d2) by (unfold d2; lia).
  (* magnitudes *)
  assert (HD : d1 + ev - (d2 + eM) <= 0).
  { set (off := - Z.min ev eM).
    apply (vle_scaled off) in V; [|unfold off; lia|unfold off; lia].
    assert (O1 : 0 <= ev + off) by (unfold off; lia).
    assert (O2 : 0 <= eM + off) by (unfold off; lia).
    assert (L1 : 2 ^ (d1 - 1 + (ev + off)) <= Z.pos mv * 2 ^ (ev + off)).
    { rewrite (Z.pow_add_r 2 (d1 - 1) (ev + off)) by lia.
      apply Z.mul_le_mono_nonneg_r; [|lia].
      apply Z.pow_nonneg. lia. }
    assert (L2 : Z.pos mM * 2 ^ (eM + off) < 2 ^ (d2 + (eM + off))).
    { rewrite (Z.pow_add_r 2 d2 (eM + off)) by lia.
      apply Z.mul_lt_mono_pos_r; [|lia].
      apply Z.pow_pos_nonneg; lia. }
    assert (L3 : 2 ^ (d1 - 1 + (ev + off)) < 2 ^ (d2 + (eM + off))).
    { eapply Z.le_lt_trans; [exact L1|].
      eapply Z.le_lt_trans; [exact V|exact L2]. }
    apply Z.pow_lt_mono_r_iff in L3; lia. }
  assert (He' : e' <= -53).
  { unfold e'. rewrite fexp_value. lia. }
  assert (Hs : 0 <= s) by (unfold s, e'; lia).
  set (m' := match s with
             | 0 => Z.pos mv
             | Z.pos _ => Z.shiftl (Z.pos mv) s
             | Z.neg _ => 0
             end).
  assert (Em : m' = Z.pos mv * 2 ^ s) by (apply shift_match; exact Hs).
  pose proof (Z.pow_pos_nonneg 2 s ltac:(lia) Hs) as Ps.
  pose proof (Z_div_mod m' (Z.pos mM) ltac:(lia)) as DE.
  destruct (Z.div_eucl m' (Z.pos mM)) as [q r]. destruct DE as [DE Hr].
  assert (Hq : 0 <= q) by nia.
  (* the dividend, scaled, is at most the divisor times 2^(-e') *)
  assert (T : m' <= Z.pos mM * 2 ^ (- e')).
  { apply (vle_scaled (- eM - e')) in V; [|unfold s in Hs; lia|lia].
    replace (ev + (- eM - e')) with s in V by (unfold s; lia).
    replace (eM + (- eM - e')) with (- e') in V by lia.
    rewrite Em. exact V. }
  pose proof (Z.pow_pos_nonneg 2 (- e') ltac:(lia) ltac:(lia)) as Pe.
  split; [exact Hq|]. split.
  - (* the quotient has enough digits *)
    rewrite fexp_value.
    destruct (Z_le_gt_dec e' (-1074)) as [L|G]; [lia|].
    assert (F : fexp (d1 + ev - (d2 + eM)) = d1 + ev - (d2 + eM) - 53).
    { unfold e' in G. rewrite fexp_value in *. lia. }
    assert (Hs' : d2 - d1 + 53 <= s) by (unfold s, e'; rewrite F; lia).
    set (t := d1 + s - d2 - 1).
    assert (Ht : 52 <= t) by (unfold t; lia).
    assert (Q : 2 ^ t <= q).
    { assert (E : 2 ^ (d1 - 1) * 2 ^ s = 2 ^ t * 2 ^ d2).
      { rewrite <- !Z.pow_add_r by (unfold t; lia). f_equal. unfold t. lia. }
      pose proof (Z.pow_pos_nonneg 2 t ltac:(lia) ltac:(lia)) as Pt.
      assert (2 ^ t * Z.pos mM < m') by (rewrite Em; nia).
      nia. }
    pose proof (Z.pow_pos_nonneg 2 t ltac:(lia) ltac:(lia)) as Pt.
    pose proof (Zdigits2_mono (2 ^ t) q Pt Q) as M.
    replace (2 ^ t) with (1 * 2 ^ t) in M by lia.
    rewrite Zdigits2_shift in M by lia. simpl (Zdigits2 1) in M.
    unfold t, s in *. unfold e' in *. rewrite F in *. lia.
  - destruct (Z.eq_dec r 0) as [->|NR].
    + left. split; [apply new_location_exact|].
      apply vle_one; [lia|]. nia.
    + right. apply vle_one; [lia|]. nia.
Qed.

(** A quotient [v / M] with [0 < v <= M] rounds to a number that is at most
    one. *)
Lemma div_below_one mv ev mM eM :
  SpecFloat.bounded prec emax mv ev = true ->
  SpecFloat.bounded prec emax mM eM = true ->
  vle (Z.pos mv) ev (Z.pos mM) eM ->
  div (S754_finite false mv ev) (S754_finite false mM eM) = S754_zero false
  \/ exists p e,
       div (S754_finite false mv ev) (S754_finite false mM eM)
       = S754_finite false p e
       /\ SpecFloat.bounded prec emax p e = true
       /\ vle (Z.pos p) e (Z.pos one_m) one_e.
Proof.
  intros Bv BM V. unfold div, SFdiv. cbn [xorb].
  pose proof (div_core_below mv ev mM eM Bv BM V) as C.
  destruct (SFdiv_core_binary prec emax (Z.pos mv) ev (Z.pos mM) eM)
    as [[q e'] l].
  destruct C as (Hq & He & Hv).
  apply round_aux_le; [exact Hq|exact He|exact one_bounded|exact Hv].
Qed.

(** A number divided by itself is one. *)
Lemma div_self m e :
  SpecFloat.bounded prec emax m e = true ->
  div (S754_finite false m e) (S754_finite false m e) = of_Z 1.
Proof.
  intros B. unfold div, SFdiv, SFdiv_core_binary. cbn [xorb Zdigits2].
  replace (Z.pos (digits2_pos m) + e - (Z.pos (digits2_pos m) + e))
    with 0 by lia.
  replace (e - e) with 0 by lia.
  change (Z.min (SpecFloat.fexp prec emax 0) 0) with (-53).
  change (0 - -53) with 53.
  rewrite Z.shiftl_mul_pow2 by lia.
  pose proof (Z_div_mod (Z.pos m * 2 ^ 53) (Z.pos m) ltac:(lia)) as DE.
  destruct (Z.div_eucl (Z.pos m * 2 ^ 53) (Z.pos m)) as [q r].
  destruct DE as [DE Hr].
  assert (Q : q = 2 ^ 53 /\ r = 0).
  { change (2 ^ 53) with 9007199254740992 in *.
    assert (q = 9007199254740992)
      by (destruct (Z.lt_trichotomy q 9007199254740992) as [L|[E|G]]; nia).
    split; [assumption|nia]. }
  destruct Q as [-> ->]. rewrite new_location_exact.
  change (2 ^ 53) with (Z.pos one_m * 2 ^ (one_e - -53)).
  rewrite round_aux_exact; [reflexivity|exact one_bounded|unfold one_e; lia].
Qed.

Lemma below_one_facts p e :
  SpecFloat.bounded prec emax p e = true ->
  vle (Z.pos p) e (Z.pos one_m) one_e ->
  e <= -52 /\ Z.pos p <= 2 ^ (- e).
Proof.
  intros B V. assert (V' := V).
  apply (le_vle p e one_m one_e B one_bounded) in V'.
  apply le_rank in V'; [|cbn [finite_nonneg]; assumption|reflexivity].
  unfold rank_le in V'. cbn [rank fst snd] in V'. unfold one_e in V'.
  assert (He : e <= -52) by lia.
  split; [exact He|]. apply vle_one in V; [exact V|lia].
Qed.

(** Multiplying a number that is at most one by a normal number [c] gives at
    most [c]. *)
Lemma mul_below p e mc ec :
  SpecFloat.bounded prec emax p e = true ->
  vle (Z.pos p) e (Z.pos one_m) one_e ->
  SpecFloat.bounded prec emax mc ec = true ->
  2 ^ 52 <= Z.pos mc ->
  mul (S754_finite false p e) (S754_finite false mc ec) = S754_zero false
  \/ exists p' e',
       mul (S754_finite false p e) (S754_finite false mc ec)
       = S754_finite false p' e'
       /\ SpecFloat.bounded prec emax p' e' = true
       /\ vle (Z.pos p') e' (Z.pos mc) ec.
Proof.
  intros B V Bc N. unfold mul, SFmul. cbn [xorb].
  destruct (below_one_facts p e B V) as [He Hp].
  destruct (bounded_facts mc ec Bc) as (_ & _ & Sc & _).
  pose proof (Z.pow_pos_nonneg 2 (- e) ltac:(lia) ltac:(lia)) as Pe.
  apply round_aux_le; [lia| |exact Bc|].
  - rewrite fexp_value.
    assert (D : 53 <= Zdigits2 (Z.pos (p * mc))).
    { rewrite <- (Zdigits2_unique (Z.pos mc) 53) by (simpl; lia).
      apply Zdigits2_mono; [lia|]. rewrite Pos2Z.inj_mul. nia. }
    lia.
  - left. split; [reflexivity|].
    apply (vle_scaled (- (e + ec))); [lia|lia|].
    replace (e + ec + - (e + ec)) with 0 by lia.
    replace (ec + - (e + ec)) with (- e) by lia.
    rewrite Pos2Z.inj_mul. change (2 ^ 0) with 1. nia.
Qed.

Lemma of_Z_100 : of_Z 100 = S754_finite false hundred_m hundred_e.
Proof. reflexivity. Qed.

Lemma hundred_bounded : SpecFloat.bounded prec emax hundred_m hundred_e = true.
Proof. reflexivity. Qed.

(** Rounding a number between 0 and 100 to the nearest integer gives an
    integer between 0 and 100. *)
Lemma Math_round_below_100 p e :
  SpecFloat.bounded prec emax p e = true ->
  vle (Z.pos p) e (Z.pos hundred_m) hundred_e ->
  integer_between 0 100 (Math_round (S754_finite false p e)).
Proof.
  intros B V. destruct (bounded_facts p e B) as (_ & He & S & L).
  unfold Math_round.
  change (2 ^ 52) with 4503599627370496 in *.
  destruct (Z.leb_spec 0 e) as [G|Lt].
  - exfalso. apply (vle_scaled 46) in V; [|lia|unfold hundred_e; lia].
    unfold hundred_e, hundred_m in V.
    change (Z.pos (Z.to_pos (100 * 2 ^ 46))) with (100 * 2 ^ 46) in V.
    change (-46 + 46) with 0 in V. change (2 ^ 0) with 1 in V.
    rewrite Z.pow_add_r in V by lia.
    pose proof (Z.pow_pos_nonneg 2 e ltac:(lia) G).
    pose proof (Z.pow_pos_nonneg 2 46 ltac:(lia) ltac:(lia)).
    specialize (L ltac:(lia)). nia.
  - apply (vle_scaled (46 - e)) in V; [|lia|unfold hundred_e; lia].
    unfold hundred_e, hundred_m in V.
    change (Z.pos (Z.to_pos (100 * 2 ^ 46))) with (100 * 2 ^ 46) in V.
    replace (e + (46 - e)) with 46 in V by lia.
    replace (-46 + (46 - e)) with (- e) in V by lia.
    pose proof (Z.pow_pos_nonneg 2 (- e) ltac:(lia) ltac:(lia)) as Pd.
    change (2 ^ 46) with 70368744177664 in V.
    set (den := 2 ^ (- e)) in *.
    assert (Hp : Z.pos p <= 100 * den) by lia.
    set (n := (2 * Z.pos p + den) / (2 * den)).
    assert (N0 : 0 <= n) by (apply Z.div_pos; lia).
    assert (N1 : n <= 100).
    { assert (n < 101); [|lia].
      apply Z.div_lt_upper_bound; lia. }
    exists n. split; [lia|].
    destruct (Z.eqb_spec n 0) as [->|NZ]; reflexivity.
Qed.

(** *** [Math.max] on finite non-negative numbers *)

Lemma max_step_max2 h x :
  finite_nonneg h = true -> max_step h x = max2 h x.
Proof.
  intros Hh. unfold max_step, max2, gt, lt.
  destruct h as [[|]|s| |s m e]; try discriminate; reflexivity.
Qed.

Lemma max2_spec h x :
  finite_nonneg h = true -> finite_nonneg x = true ->
  finite_nonneg (max2 h x) = true
  /\ le h (max2 h x) = true
  /\ le x (max2 h x) = true
  /\ (max2 h x = h \/ max2 h x = x).
Proof.
  intros Hh Hx. unfold max2. destruct (lt h x) eqn:E.
  - apply (lt_rank h x Hh Hx) in E.
    split; [exact Hx|]. split; [|split; [now apply le_refl|now right]].
    apply (le_rank h x Hh Hx). unfold rank_le in *. lia.
  - split; [exact Hh|]. split; [now apply le_refl|]. split; [|now left].
    apply (le_rank x h Hx Hh).
    destruct (le x h) eqn:L; [now apply (le_rank x h Hx Hh)|].
    exfalso. assert (N : ~ rank_le (rank x) (rank h)).
    { intros R. apply (le_rank x h Hx Hh) in R. congruence. }
    apply (lt_rank h x Hh Hx) in N. congruence.
Qed.

Lemma finite_nonneg_not_nan x : finite_nonneg x = true -> is_nan x = false.
Proof. destruct x as [[|]|s| |[|] m e]; try discriminate; reflexivity. Qed.

Lemma Math_max_4 M a b c :
  finite_nonneg M = true -> finite_nonneg a = true ->
  finite_nonneg b = true -> finite_nonneg c = true ->
  Math_max [M; a; b; c] = max2 (max2 (max2 M a) b) c.
Proof.
  intros HM Ha Hb Hc. unfold Math_max. cbn [existsb].
  rewrite !finite_nonneg_not_nan by assumption. cbn [orb fold_left].
  assert (E : max_step (S754_infinity true) M = M).
  { unfold max_step, gt.
    destruct M as [[|]|s| |[|] m e]; try discriminate; reflexivity. }
  rewrite E.
  destruct (max2_spec M a HM Ha) as (H1 & _).
  destruct (max2_spec (max2 M a) b H1 Hb) as (H2 & _).
  rewrite (max_step_max2 M a HM), (max_step_max2 _ b H1),
    (max_step_max2 _ c H2).
  reflexivity.
Qed.

End Binary64Facts.

(** * Facts about the aggregations *)

(** ** The counters *)

Module TotalsFacts.
Import Totals.

Ltac string_cases c :=
  destruct (String.eqb_spec c "study") as [->|?];
  [|destruct (String.eqb_spec c "skill") as [->|?];
    [|destruct (String.eqb_spec c "exercise") as [->|?];
      [|destruct (String.eqb_spec c "all") as [->|?]]]].

Lemma tally_study t c m :
  study (tally t c m)
  = if String.eqb c "study" then JsNumber.add (study t) m else study t.
Proof. unfold tally, add_assign, write, read. string_cases c; reflexivity. Qed.

Lemma tally_skill t c m :
  skill (tally t c m)
  = if String.eqb c "skill" then JsNumber.add (skill t) m else skill t.
Proof. unfold tally, add_assign, write, read. string_cases c; reflexivity. Qed.

Lemma tally_exercise t c m :
  exercise (tally t c m)
  = if String.eqb c "exercise" then JsNumber.add (exercise t) m
    else exercise t.
Proof. unfold tally, add_assign, write, read. string_cases c; reflexivity. Qed.

Lemma tally_all t c m :
  all (tally t c m)
  = if String.eqb c "all"
    then JsNumber.add (JsNumber.add (all t) m) m
    else JsNumber.add (all t) m.
Proof. unfold tally, add_assign, write, read. string_cases c; reflexivity. Qed.

Lemma tally_stray t c m :
  stray (tally t c m)
  = if String.eqb c "study" || String.eqb c "skill"
       || String.eqb c "exercise" || String.eqb c "all"
    then stray t
    else JsObject.set (stray t) c
           (JsNumber.add match JsObject.get (stray t) c with
                         | Some v => v
                         | None => JsNumber.NaN
                         end m).
Proof. unfold tally, add_assign, write, read. string_cases c; reflexivity. Qed.

Lemma addAll_filter_step c acc l rows :
  addAll acc (filter (ofCategory c) (l :: rows))
  = addAll (if String.eqb (ActivityRow.category l) c
            then JsNumber.add acc (minutes_or_zero l) else acc)
           (filter (ofCategory c) rows).
Proof.
  cbn [filter]. unfold ofCategory at 1.
  destruct (String.eqb (ActivityRow.category l) c); reflexivity.
Qed.

Lemma tallyAll_study rows : forall t,
  study (tallyAll t rows) = addAll (study t) (filter (ofCategory "study") rows).
Proof.
  induction rows as [|l rows IH]; intros t; [reflexivity|].
  rewrite addAll_filter_step. cbn [tallyAll fold_left].
  change (study (tallyAll (tally t (ActivityRow.category l) (minutes_or_zero l)) rows) = 
  addAll
    (if (ActivityRow.category l =? "study")%string
     then JsNumber.add (study t) (minutes_or_zero l)
     else study t) (filter (ofCategory "study") rows)).
  now rewrite IH, tally_study.
Qed.

Lemma tallyAll_skill rows : forall t,
  skill (tallyAll t rows) = addAll (skill t) (filter (ofCategory "skill") rows).
Proof.
  induction rows as [|l rows IH]; intros t; [reflexivity|].
  rewrite addAll_filter_step.
  change (skill (tallyAll (tally t (ActivityRow.category l) (minutes_or_zero l)) rows) = 
  addAll
    (if (ActivityRow.category l =? "skill")%string
     then JsNumber.add (skill t) (minutes_or_zero l)
     else skill t) (filter (ofCategory "skill") rows)).
  now rewrite IH, tally_skill.
Qed.

Lemma tallyAll_exercise rows : forall t,
  exercise (tallyAll t rows)
  = addAll (exercise t) (filter (ofCategory "exercise") rows).
Proof.
  induction rows as [|l rows IH]; intros t; [reflexivity|].
  rewrite addAll_filter_step.
  change (exercise (tallyAll (tally t (ActivityRow.category l) (minutes_or_zero l)) rows) = 
  addAll
    (if (ActivityRow.category l =? "exercise")%string
     then JsNumber.add (exercise t) (minutes_or_zero l)
     else exercise t) (filter (ofCategory "exercise") rows)).
  now rewrite IH, tally_exercise.
Qed.

Lemma tallyAll_all rows : forall t,
  Forall (fun l => ActivityRow.category l <> "all"%string) rows ->
  all (tallyAll t rows) = addAll (all t) rows.
Proof.
  induction rows as [|l rows IH]; intros t H; [reflexivity|].
  inversion H as [|? ? Hl Hr]; subst.
  change (all (tallyAll (tally t (ActivityRow.category l) (minutes_or_zero l)) rows) = 
  addAll (JsNumber.add (all t) (minutes_or_zero l)) rows).
  rewrite IH by exact Hr. rewrite tally_all.
  destruct (String.eqb_spec (ActivityRow.category l) "all");
    [contradiction|reflexivity].
Qed.

End TotalsFacts.

Lemma known_not_all c : known c -> c <> "all"%string.
Proof. intros [->|[->| ->]]; discriminate. Qed.

Lemma weeklyTotals_acc ws logs : forall t,
  fold_left
    (fun totals l =>
       if num_lt (getTime (ActivityRow.occurred_at l)) (Some ws)
       then totals
       else Totals.tally totals (ActivityRow.category l) (minutes_or_zero l))
    logs t
  = tallyAll t (filter (notBefore ws) logs).
Proof.
  induction logs as [|l logs IH]; intros t; [reflexivity|].
  cbn [fold_left filter]. rewrite IH. unfold notBefore at 2.
  destruct (num_lt (getTime (ActivityRow.occurred_at l)) (Some ws));
    reflexivity.
Qed.

Lemma weeklyTotals_tallyAll logs ws :
  weeklyTotals logs ws = tallyAll Totals.empty (filter (notBefore ws) logs).
Proof. apply weeklyTotals_acc. Qed.

(** With a valid instant the two pages test the same thing. *)
Lemma notBefore_valid ws l t :
  ActivityRow.occurred_at l = Some t ->
  notBefore ws l = (ws <=? t)
  /\ num_ge (getTime (ActivityRow.occurred_at l)) (Some ws) = (ws <=? t).
Proof.
  intros E. unfold notBefore, getTime. rewrite E. cbn [num_lt num_ge].
  split; [|reflexivity]. destruct (Z.ltb_spec t ws), (Z.leb_spec ws t);
    try reflexivity; lia.
Qed.

(** ** The map of summaries *)

Module TotalsMapFacts.
Import JsObject.

Section Generic.
Context {V : Type}.

Lemma tabulate_keys (f : string -> V) ks : map fst (tabulate f ks) = ks.
Proof. unfold tabulate. rewrite map_map. simpl. apply map_id. Qed.

Lemma obj_tabulate (o : obj V) (f : string -> V) :
  (forall k, In k (map fst o) -> get o k = Some (f k)) ->
  NoDup (map fst o) ->
  o = tabulate f (map fst o).
Proof.
  induction o as [|[k v] o IH]; intros G N; [reflexivity|].
  inversion N as [|? ? Hk N']; subst. cbn [map fst tabulate]. f_equal.
  - pose proof (G k (or_introl eq_refl)) as E. simpl in E.
    rewrite String.eqb_refl in E. congruence.
  - apply IH; [|exact N']. intros k' Hk'.
    pose proof (G k' (or_intror Hk')) as E. simpl in E.
    destruct (String.eqb_spec k k') as [->|_]; [contradiction|exact E].
Qed.

Lemma insert_tabulate (f : string -> V) k l :
  insert_by_index (k, f k) (tabulate f l) = tabulate f (insert_key k l).
Proof.
  induction l as [|q l IH]; [reflexivity|].
  cbn [tabulate map insert_by_index insert_key fst].
  destruct (index_of k <=? index_of q); [reflexivity|].
  cbn [map]. f_equal. exact IH.
Qed.

Lemma sort_tabulate (f : string -> V) l :
  sort_by_index (tabulate f l) = tabulate f (fold_right insert_key [] l).
Proof.
  induction l as [|k l IH]; [reflexivity|].
  cbn [tabulate map sort_by_index fold_right].
  change (insert_by_index (k, f k) (sort_by_index (tabulate f l))
          = tabulate f (insert_key k (fold_right insert_key [] l))).
  rewrite IH. apply insert_tabulate.
Qed.

Lemma filter_tabulate (f : string -> V) (p : string -> bool) l :
  filter (fun q => p (fst q)) (tabulate f l) = tabulate f (filter p l).
Proof.
  induction l as [|k l IH]; [reflexivity|].
  unfold tabulate in *. cbn [map filter fst].
  destruct (p k); cbn [map]; now rewrite IH.
Qed.

Lemma entries_tabulate (f : string -> V) ks :
  entries (tabulate f ks) = tabulate f (keyOrder ks).
Proof.
  unfold entries, keyOrder.
  rewrite (filter_tabulate f is_index).
  rewrite (filter_tabulate f (fun k => negb (is_index k))).
  rewrite sort_tabulate. unfold tabulate. now rewrite map_app.
Qed.

Lemma values_tabulate (f : string -> V) ks : values (tabulate f ks) = map f (keyOrder ks).
Proof.
  unfold values. rewrite entries_tabulate. unfold tabulate.
  rewrite map_map. reflexivity.
Qed.

End Generic.

Lemma insert_key_perm k l : Permutation (insert_key k l) (k :: l).
Proof.
  induction l as [|q l IH]; simpl; [reflexivity|].
  destruct (index_of k <=? index_of q); [reflexivity|].
  rewrite IH. apply perm_swap.
Qed.

Lemma keyOrder_perm ks : Permutation (keyOrder ks) ks.
Proof.
  unfold keyOrder.
  transitivity (filter is_index ks ++ filter (fun k => negb (is_index k)) ks).
  - apply Permutation_app_tail.
    induction (filter is_index ks) as [|k l IH]; simpl; [reflexivity|].
    rewrite insert_key_perm. now constructor.
  - apply JsObjectFacts.filter_partition_perm.
Qed.


(** The steps of the loop that fills [map], for owners whose ids name no
    inherited member. *)

Lemma get_In_keys {V} (o : obj V) k v : get o k = Some v -> In k (map fst o).
Proof.
  intros E. apply JsObjectFacts.get_Some_In in E.
  apply in_map_iff. now exists (k, v).
Qed.

Lemma ownStep_keys m l :
  map fst (ownStep m l) = set_add (map fst m) (ActivityRow.user_id l).
Proof.
  unfold ownStep, set_add.
  destruct (get m (ActivityRow.user_id l)) as [u|] eqn:E.
  - rewrite E.
    pose proof (get_In_keys _ _ _ E) as I.
    rewrite JsObjectFacts.keys_set_present by exact I.
    apply StringSetFacts.set_has_In in I. now rewrite I.
  - rewrite JsObjectFacts.get_set_same.
    apply JsObjectFacts.get_None in E.
    rewrite JsObjectFacts.keys_set_present.
    + rewrite JsObjectFacts.keys_set_absent by exact E.
      apply StringSetFacts.set_has_false in E. now rewrite E.
    + rewrite JsObjectFacts.keys_set_absent by exact E.
      apply in_or_app. right. now left.
Qed.

Lemma ownStep_get m l uid :
  get (ownStep m l) uid
  = if ownedBy uid l
    then Some (Summary.with_counts (entryOr m l)
                 (Totals.tally (Summary.counts (entryOr m l))
                    (ActivityRow.category l) (minutes_or_zero l)))
    else get m uid.
Proof.
  unfold ownStep, ownedBy, entryOr.
  destruct (String.eqb_spec (ActivityRow.user_id l) uid) as [<-|N].
  - destruct (get m (ActivityRow.user_id l)) as [u|] eqn:E.
    + rewrite E. apply JsObjectFacts.get_set_same.
    + rewrite JsObjectFacts.get_set_same. apply JsObjectFacts.get_set_same.
  - destruct (get m (ActivityRow.user_id l)) as [u|] eqn:E.
    + rewrite E. now apply JsObjectFacts.get_set_other.
    + rewrite JsObjectFacts.get_set_same.
      rewrite !JsObjectFacts.get_set_other by exact N. reflexivity.
Qed.

Lemma ownMap_keys rows : forall m,
  map fst (fold_left ownStep rows m)
  = fold_left (fun ks l => set_add ks (ActivityRow.user_id l)) rows (map fst m).
Proof.
  induction rows as [|l rows IH]; intros m; [reflexivity|].
  cbn [fold_left]. rewrite IH, ownStep_keys. reflexivity.
Qed.

Lemma ownMap_get rows uid : forall m,
  get (fold_left ownStep rows m) uid
  = match rowsOf uid rows with
    | [] => get m uid
    | l :: _ =>
        Some (Summary.with_counts (entryOr m l)
                (tallyAll (Summary.counts (entryOr m l)) (rowsOf uid rows)))
    end.
Proof.
  induction rows as [|l rows IH]; intros m; [reflexivity|].
  cbn [fold_left]. rewrite IH. unfold rowsOf. cbn [filter].
  rewrite ownStep_get.
  destruct (ownedBy uid l) eqn:O.
  - assert (U : ActivityRow.user_id l = uid) by now apply String.eqb_eq.
    destruct (filter (ownedBy uid) rows) as [|l' rs] eqn:R.
    + reflexivity.
    + assert (O' : ownedBy uid l' = true).
      { assert (I : In l' (filter (ownedBy uid) rows)) by (rewrite R; now left).
        now apply filter_In in I. }
      assert (U' : ActivityRow.user_id l' = uid) by now apply String.eqb_eq.
      unfold entryOr at 1 2. rewrite U', ownStep_get, O. reflexivity.
  - destruct (filter (ownedBy uid) rows) as [|l' rs] eqn:R; [reflexivity|].
    assert (O' : ownedBy uid l' = true).
    { assert (I : In l' (filter (ownedBy uid) rows)) by (rewrite R; now left).
      now apply filter_In in I. }
    assert (U' : ActivityRow.user_id l' = uid) by now apply String.eqb_eq.
    unfold entryOr. rewrite U', ownStep_get, O. reflexivity.
Qed.

Lemma owners_spec rows :
  NoDup (owners rows)
  /\ forall uid, In uid (owners rows) <-> In uid (map ActivityRow.user_id rows).
Proof.
  unfold owners.
  assert (G : forall acc, NoDup acc ->
            let r := fold_left
                       (fun ks l => set_add ks (ActivityRow.user_id l))
                       rows acc in
            NoDup r /\ forall uid, In uid r <->
                         In uid acc \/ In uid (map ActivityRow.user_id rows)).
  { induction rows as [|l rows IH]; intros acc N; cbn [fold_left].
    - split; [exact N|]. intros uid. simpl. tauto.
    - destruct (IH _ (StringSetFacts.set_add_NoDup acc
                        (ActivityRow.user_id l) N)) as [N' I].
      split; [exact N'|]. intros uid.
      rewrite I, StringSetFacts.set_add_In. simpl. intuition congruence. }
  destruct (G [] (NoDup_nil _)) as [N I]. split; [exact N|].
  intros uid. rewrite I. simpl. tauto.
Qed.

Lemma ownMap_tabulate rows :
  ownMap rows = tabulate (summaryFor rows) (owners rows).
Proof.
  unfold ownMap.
  pose proof (ownMap_keys rows []) as K. cbn [map] in K.
  fold (owners rows) in K. rewrite <- K.
  destruct (owners_spec rows) as [N I].
  apply obj_tabulate; [|now rewrite K].
  intros uid Hin. rewrite K in Hin. apply I in Hin.
  rewrite ownMap_get. unfold summaryFor.
  destruct (rowsOf uid rows) as [|l rs] eqn:R.
  - exfalso. apply in_map_iff in Hin as (l & E & Hl).
    assert (Hl' : In l (rowsOf uid rows)).
    { apply filter_In. split; [exact Hl|]. now apply String.eqb_eq. }
    rewrite R in Hl'. exact Hl'.
  - assert (O : ownedBy uid l = true).
    { assert (J : In l (rowsOf uid rows)) by (rewrite R; now left).
      now apply filter_In in J. }
    apply String.eqb_eq in O. unfold entryOr. cbn [get].
    unfold Summary.with_counts. cbn. rewrite O. reflexivity.
Qed.

(** The loop itself: a row whose owner id names an inherited member leaves
    [map] as it is, and the other rows are handled as above. *)

Lemma lookup_own {V} (o : obj V) k :
  inherits k = false ->
  lookup o k = match get o k with Some v => Own v | None => Missing end.
Proof. intros H. unfold lookup. now rewrite H. Qed.

Lemma lookup_inherited {V} (o : obj V) k :
  inherits k = true ->
  (forall q, In q (map fst o) -> inherits q = false) ->
  lookup o k = Inherited.
Proof.
  intros H K. unfold lookup.
  destruct (get o k) as [v|] eqn:E; [|now rewrite H].
  apply get_In_keys in E. apply K in E. congruence.
Qed.

Lemma totalsStep_own m l : ownId l = true -> totalsStep m l = ownStep m l.
Proof.
  unfold ownId. intros H. apply negb_true_iff in H.
  unfold totalsStep, ownStep. rewrite (lookup_own m _ H).
  destruct (get m (ActivityRow.user_id l)) as [u|] eqn:E.
  - rewrite (lookup_own m _ H), E. reflexivity.
  - rewrite (lookup_own _ _ H), JsObjectFacts.get_set_same. reflexivity.
Qed.

Lemma totalsStep_inherited m l :
  ownId l = false ->
  (forall q, In q (map fst m) -> inherits q = false) ->
  totalsStep m l = m.
Proof.
  unfold ownId. intros H K. apply negb_false_iff in H.
  unfold totalsStep. rewrite (lookup_inherited m _ H K).
  now rewrite (lookup_inherited m _ H K).
Qed.

Lemma ownStep_named m l :
  ownId l = true ->
  (forall q, In q (map fst m) -> inherits q = false) ->
  forall q, In q (map fst (ownStep m l)) -> inherits q = false.
Proof.
  intros H K q. rewrite ownStep_keys, StringSetFacts.set_add_In.
  intros [I| ->]; [now apply K|]. now apply negb_true_iff in H.
Qed.

Lemma totalsMap_own rows : forall m,
  (forall q, In q (map fst m) -> inherits q = false) ->
  fold_left totalsStep rows m = fold_left ownStep (filter ownId rows) m.
Proof.
  induction rows as [|l rows IH]; intros m K; [reflexivity|].
  cbn [fold_left filter]. destruct (ownId l) eqn:H.
  - cbn [fold_left]. rewrite (totalsStep_own _ _ H).
    apply IH. now apply ownStep_named.
  - rewrite (totalsStep_inherited _ _ H K). now apply IH.
Qed.

Lemma totalsMap_ownMap rows : totalsMap rows = ownMap (filter ownId rows).
Proof. apply totalsMap_own. intros q []. Qed.

Lemma summarized_spec rows uid :
  In uid (summarized rows)
  <-> In uid (map ActivityRow.user_id rows) /\ inherits uid = false.
Proof.
  unfold summarized. destruct (owners_spec (filter ownId rows)) as [_ I].
  rewrite I, !in_map_iff. split.
  - intros (l & E & Hl). apply filter_In in Hl as [Hl O]. split.
    + now exists l.
    + subst uid. now apply negb_true_iff in O.
  - intros [(l & E & Hl) H]. exists l. split; [exact E|].
    apply filter_In. split; [exact Hl|]. unfold ownId. rewrite E.
    now apply negb_true_iff.
Qed.

Lemma summarized_NoDup rows : NoDup (summarized rows).
Proof. apply owners_spec. Qed.

Lemma rowsOf_named rows uid :
  inherits uid = false -> rowsOf uid (filter ownId rows) = rowsOf uid rows.
Proof.
  intros H. unfold rowsOf. induction rows as [|l rows IH]; [reflexivity|].
  cbn [filter]. destruct (ownId l) eqn:O.
  - cbn [filter]. now rewrite IH.
  - rewrite IH. destruct (ownedBy uid l) eqn:B; [|reflexivity].
    apply String.eqb_eq in B. unfold ownId in O. rewrite B, H in O.
    discriminate.
Qed.

Lemma summaryFor_named rows uid :
  inherits uid = false -> summaryFor (filter ownId rows) uid = summaryFor rows uid.
Proof. intros H. unfold summaryFor. now rewrite (rowsOf_named _ _ H). Qed.

Lemma totalsMap_tabulate rows :
  totalsMap rows = tabulate (summaryFor rows) (summarized rows).
Proof.
  rewrite totalsMap_ownMap, ownMap_tabulate. unfold tabulate.
  apply map_ext_in. intros uid H. fold (summarized rows) in H.
  apply summarized_spec in H as [_ H]. now rewrite (summaryFor_named _ _ H).
Qed.

Lemma totalsByUser_tabulate rows :
  totalsByUser rows = map (summaryFor rows) (keyOrder (summarized rows)).
Proof.
  unfold totalsByUser. rewrite totalsMap_tabulate. apply values_tabulate.
Qed.

(** With owner ids that name no inherited member, every owner is
    summarized. *)
Lemma summarized_owners rows :
  forallb ownId rows = true -> summarized rows = owners rows.
Proof.
  intros H. unfold summarized. f_equal.
  induction rows as [|l rows IH]; [reflexivity|].
  cbn [forallb] in H. apply andb_true_iff in H as [O H].
  cbn [filter]. rewrite O. f_equal. now apply IH.
Qed.

End TotalsMapFacts.

(** ** Whole minutes *)

Module WholeFacts.
Import JsNumber Binary64 Binary64Facts.

Lemma to_Z_nonneg x : 0 <= to_Z x.
Proof.
  destruct x as [s|s| |[|] m e]; cbn [to_Z]; try lia.
  destruct (0 <=? e) eqn:E.
  - apply Z.leb_le in E. pose proof (Z.pow_pos_nonneg 2 e ltac:(lia) E). lia.
  - apply Z.div_pos; [lia|]. apply Z.pow_pos_nonneg; [lia|].
    apply Z.leb_gt in E. lia.
Qed.

Lemma totalMinutes_nonneg rows : 0 <= totalMinutes rows.
Proof.
  induction rows as [|l rows IH]; cbn [totalMinutes fold_right]; [lia|].
  pose proof (to_Z_nonneg (minutes_or_zero l)).
  fold (totalMinutes rows). lia.
Qed.

Lemma totalMinutes_filter p rows :
  totalMinutes (filter p rows) <= totalMinutes rows.
Proof.
  induction rows as [|l rows IH]; [reflexivity|].
  cbn [filter]. pose proof (to_Z_nonneg (minutes_or_zero l)).
  destruct (p l); cbn [totalMinutes fold_right];
    fold (totalMinutes (filter p rows)); fold (totalMinutes rows); lia.
Qed.

Lemma Forall_filter {A} (P : A -> Prop) p (l : list A) :
  Forall P l -> Forall P (filter p l).
Proof.
  intros H. apply Forall_forall. intros x Hx. apply filter_In in Hx.
  rewrite Forall_forall in H. now apply H.
Qed.

(** Sums of whole minutes are exact. *)
Lemma addAll_whole rows : forall a,
  0 <= a ->
  Forall whole rows ->
  a + totalMinutes rows < 2 ^ 53 ->
  addAll (of_Z a) rows = of_Z (a + totalMinutes rows).
Proof.
  induction rows as [|l rows IH]; intros a Ha W B.
  - cbn [addAll fold_left totalMinutes fold_right]. now rewrite Z.add_0_r.
  - inversion W as [|? ? Wl Wr]; subst.
    cbn [totalMinutes fold_right] in *. fold (totalMinutes rows) in *.
    pose proof (to_Z_nonneg (minutes_or_zero l)) as Nl.
    pose proof (totalMinutes_nonneg rows) as Nr.
    change (addAll (of_Z a) (l :: rows))
      with (addAll (add (of_Z a) (minutes_or_zero l)) rows).
    unfold whole in Wl. set (n := to_Z (minutes_or_zero l)) in *.
    rewrite Wl, add_of_Z by lia.
    rewrite IH by (try assumption; lia). f_equal. lia.
Qed.

Lemma totalMinutes_cons l rows :
  totalMinutes (l :: rows) = to_Z (minutes_or_zero l) + totalMinutes rows.
Proof. reflexivity. Qed.

Lemma ofCategory_known l :
  known (ActivityRow.category l) ->
  (ofCategory "study" l = true /\ ofCategory "skill" l = false
   /\ ofCategory "exercise" l = false)
  \/ (ofCategory "study" l = false /\ ofCategory "skill" l = true
      /\ ofCategory "exercise" l = false)
  \/ (ofCategory "study" l = false /\ ofCategory "skill" l = false
      /\ ofCategory "exercise" l = true).
Proof.
  unfold ofCategory. intros [E|[E|E]]; rewrite E; auto.
Qed.

(** With known categories the rows split into the three categories. *)
Lemma totalMinutes_split rows :
  Forall (fun l => known (ActivityRow.category l)) rows ->
  totalMinutes rows
  = totalMinutes (filter (ofCategory "study") rows)
    + totalMinutes (filter (ofCategory "skill") rows)
    + totalMinutes (filter (ofCategory "exercise") rows).
Proof.
  induction rows as [|l rows IH]; intros K; [reflexivity|].
  inversion K as [|? ? Kl Kr]; subst. specialize (IH Kr).
  cbn [filter].
  destruct (ofCategory_known l Kl) as [(A & B & C)|[(A & B & C)|(A & B & C)]];
    rewrite A, B, C, !totalMinutes_cons; lia.
Qed.

Lemma tallyAll_invariant rows :
  Forall (fun l => known (ActivityRow.category l)) rows ->
  Forall whole rows ->
  totalMinutes rows < 2 ^ 53 ->
  let t := tallyAll Totals.empty rows in
  Totals.all t
  = add (add (Totals.study t) (Totals.skill t)) (Totals.exercise t).
Proof.
  intros K W B t. unfold t.
  rewrite TotalsFacts.tallyAll_all
    by (eapply Forall_impl; [|exact K]; intros l; apply known_not_all).
  rewrite TotalsFacts.tallyAll_study, TotalsFacts.tallyAll_skill,
    TotalsFacts.tallyAll_exercise.
  cbn [Totals.empty Totals.study Totals.skill Totals.exercise Totals.all].
  pose proof (totalMinutes_split rows K) as S.
  pose proof (totalMinutes_nonneg (filter (ofCategory "study") rows)).
  pose proof (totalMinutes_nonneg (filter (ofCategory "skill") rows)).
  pose proof (totalMinutes_nonneg (filter (ofCategory "exercise") rows)).
  rewrite !addAll_whole by (try apply Forall_filter; try assumption; lia).
  rewrite !add_of_Z by lia. f_equal. lia.
Qed.

End WholeFacts.

(** ** The chart *)

Module ChartFacts.
Import JsNumber Binary64 Binary64Facts.

Lemma one_finite_nonneg : finite_nonneg (of_Z 1) = true.
Proof. reflexivity. Qed.

Lemma maxBar_acc users : forall acc,
  finite_nonneg acc = true ->
  Forall (fun v => finite_nonneg v = true) (allValues users) ->
  let M := fold_left
             (fun max u =>
                Math_max [max; Summary.study u; Summary.skill u;
                          Summary.exercise u])
             users acc in
  finite_nonneg M = true
  /\ le acc M = true
  /\ (forall v, In v (allValues users) -> le v M = true)
  /\ (M = acc \/ In M (allValues users)).
Proof.
  induction users as [|u users IH]; intros acc Hacc F; cbn [fold_left].
  - split; [exact Hacc|]. split; [now apply le_refl|].
    split; [intros v []|now left].
  - cbn [allValues flat_map valuesOf app] in F.
    inversion F as [|? ? Ha F1]; subst. inversion F1 as [|? ? Hb F2]; subst.
    inversion F2 as [|? ? Hc F3]; subst.
    rewrite Math_max_4 by assumption.
    destruct (max2_spec acc (Summary.study u) Hacc Ha) as (H1 & L1 & L1' & C1).
    destruct (max2_spec _ (Summary.skill u) H1 Hb) as (H2 & L2 & L2' & C2).
    destruct (max2_spec _ (Summary.exercise u) H2 Hc) as (H3 & L3 & L3' & C3).
    set (acc' := max2 (max2 (max2 acc (Summary.study u)) (Summary.skill u))
                      (Summary.exercise u)) in *.
    destruct (IH acc' H3 F3) as (HM & LM & VM & CM).
    set (M := fold_left _ users acc') in *.
    assert (T : forall x, finite_nonneg x = true -> le x acc' = true ->
                          le x M = true).
    { intros x Hx Lx. now apply (le_trans x acc' M). }
    assert (T2 : forall x, finite_nonneg x = true ->
                   le x (max2 (max2 acc (Summary.study u)) (Summary.skill u))
                   = true -> le x acc' = true).
    { intros x Hx Lx. now apply (le_trans x _ acc' Hx H2). }
    assert (T1 : forall x, finite_nonneg x = true ->
                   le x (max2 acc (Summary.study u)) = true ->
                   le x acc' = true).
    { intros x Hx Lx. apply T2; [exact Hx|].
      now apply (le_trans x _ _ Hx H1). }
    split; [exact HM|]. split; [apply T; auto|]. split.
    + intros v Hv. cbn [allValues flat_map valuesOf app] in Hv.
      destruct Hv as [<-|[<-|[<-|Hv]]]; auto.
    + cbn [allValues flat_map valuesOf app].
      destruct CM as [CM|CM]; [|right; do 3 right; exact CM].
      destruct C3 as [C3|C3]; [|right; do 2 right; left; congruence].
      destruct C2 as [C2|C2]; [|right; right; left; congruence].
      destruct C1 as [C1|C1]; [left; congruence|right; left; congruence].
Qed.

Lemma maxBar_spec users :
  Forall (fun v => finite_nonneg v = true) (allValues users) ->
  finite_nonneg (maxBar users) = true
  /\ le (of_Z 1) (maxBar users) = true
  /\ (forall v, In v (allValues users) -> le v (maxBar users) = true)
  /\ (maxBar users = of_Z 1 \/ In (maxBar users) (allValues users)).
Proof. intros F. exact (maxBar_acc users (of_Z 1) one_finite_nonneg F). Qed.

Lemma at_least_one_finite M :
  finite_nonneg M = true -> le (of_Z 1) M = true ->
  exists m e, M = S754_finite false m e
              /\ SpecFloat.bounded prec emax m e = true.
Proof.
  intros HM L. destruct (finite_nonneg_cases M HM) as [->|H]; [|exact H].
  discriminate.
Qed.

Lemma pct_bounded v M :
  finite_nonneg v = true -> finite_nonneg M = true ->
  le (of_Z 1) M = true -> le v M = true ->
  integer_between 0 100 (pct v M).
Proof.
  intros Hv HM L1 L.
  destruct (at_least_one_finite M HM L1) as (mM & eM & -> & BM).
  assert (Z : integer_between 0 100
                (Math_round (mul (S754_zero false) (of_Z 100))))
    by (exists 0; split; [lia|reflexivity]).
  unfold pct.
  destruct (finite_nonneg_cases v Hv) as [->|(mv & ev & -> & Bv)];
    [exact Z|].
  apply (le_vle mv ev mM eM Bv BM) in L.
  destruct (div_below_one mv ev mM eM Bv BM L) as [->|(p & e & -> & Bp & Vp)];
    [exact Z|].
  rewrite of_Z_100.
  destruct (mul_below p e hundred_m hundred_e Bp Vp hundred_bounded)
    as [->|(p' & e' & -> & Bp' & Vp')].
  - unfold hundred_m. change (Z.pos (Z.to_pos (100 * 2 ^ 46)))
      with (100 * 2 ^ 46). change (2 ^ 52) with (64 * 2 ^ 46).
    pose proof (Z.pow_pos_nonneg 2 46 ltac:(lia) ltac:(lia)). lia.
  - exists 0. split; [lia|reflexivity].
  - now apply Math_round_below_100.
Qed.

Lemma pct_of_max M :
  finite_nonneg M = true -> le (of_Z 1) M = true ->
  pct M M = of_Z 100.
Proof.
  intros HM L1.
  destruct (at_least_one_finite M HM L1) as (mM & eM & -> & BM).
  unfold pct. rewrite div_self by exact BM. reflexivity.
Qed.

End ChartFacts.

(** ** Signs *)

Module SignFacts.
Import JsNumber.

Lemma round_aux_sign_clear m e l :
  sign_clear (binary_round_aux prec emax false m e l) = true.
Proof.
  unfold binary_round_aux.
  destruct (shr_fexp prec emax m e l) as [mrs e1].
  destruct (shr_fexp prec emax _ e1 loc_Exact) as [mrs' e2].
  destruct (shr_m mrs') as [|p|p]; try reflexivity.
  destruct (e2 <=? emax - prec); reflexivity.
Qed.

Lemma add_sign_clear x y :
  sign_clear x = true -> sign_clear y = true -> sign_clear (add x y) = true.
Proof.
  destruct x as [[|]|[|]| |[|] mx ex]; destruct y as [[|]|[|]| |[|] my ey];
    try discriminate; try reflexivity.
  intros _ _. unfold add, SFadd. cbn [cond_Zopp].
  match goal with
  | |- context [Z.pos ?a + Z.pos ?b] =>
      change (Z.pos a + Z.pos b) with (Z.pos (a + b))
  end.
  cbn [binary_normalize]. unfold binary_round.
  destruct (shl_align _ _ _) as [mz ez]. apply round_aux_sign_clear.
Qed.

(** Adding [+0] changes nothing once the sign bit is clear. *)
Lemma add_zero_r x : sign_clear x = true -> add x (of_Z 0) = x.
Proof.
  destruct x as [[|]|[|]| |[|] mx ex]; try discriminate; reflexivity.
Qed.

Lemma of_Z_0_sign_clear : sign_clear (of_Z 0) = true.
Proof. reflexivity. Qed.

End SignFacts.

Module CounterFacts.
Import JsNumber SignFacts.

Lemma tally_same a b c m :
  same_counters a b -> same_counters (Totals.tally a c m) (Totals.tally b c m).
Proof.
  intros (S & K & E & A). unfold same_counters.
  rewrite !TotalsFacts.tally_study, !TotalsFacts.tally_skill,
    !TotalsFacts.tally_exercise, !TotalsFacts.tally_all, S, K, E, A.
  auto.
Qed.

Lemma tallyAll_same rows : forall a b,
  same_counters a b -> same_counters (tallyAll a rows) (tallyAll b rows).
Proof.
  induction rows as [|l rows IH]; intros a b H; [exact H|].
  apply (IH (Totals.tally a (ActivityRow.category l) (minutes_or_zero l))
            (Totals.tally b (ActivityRow.category l) (minutes_or_zero l))).
  now apply tally_same.
Qed.

Lemma tally_clear t c m :
  counters_clear t -> sign_clear m = true ->
  counters_clear (Totals.tally t c m).
Proof.
  intros (S & K & E & A) M. unfold counters_clear.
  rewrite TotalsFacts.tally_study, TotalsFacts.tally_skill,
    TotalsFacts.tally_exercise, TotalsFacts.tally_all.
  repeat split;
    repeat match goal with
           | |- context [if ?b then _ else _] => destruct b
           end;
    auto using add_sign_clear.
Qed.

Lemma tallyAll_clear rows : forall t,
  counters_clear t ->
  Forall (fun r => sign_clear (minutes_or_zero r) = true) rows ->
  counters_clear (tallyAll t rows).
Proof.
  induction rows as [|l rows IH]; intros t C F; [exact C|].
  inversion F as [|? ? Fl Fr]; subst.
  apply (IH (Totals.tally t (ActivityRow.category l) (minutes_or_zero l)));
    [|exact Fr].
  now apply tally_clear.
Qed.

Lemma tally_zero t c :
  counters_clear t -> same_counters (Totals.tally t c (of_Z 0)) t.
Proof.
  intros (S & K & E & A). unfold same_counters.
  rewrite TotalsFacts.tally_study, TotalsFacts.tally_skill,
    TotalsFacts.tally_exercise, TotalsFacts.tally_all.
  rewrite !(add_zero_r (Totals.study t)), !(add_zero_r (Totals.skill t)),
    !(add_zero_r (Totals.exercise t)), !(add_zero_r (Totals.all t))
    by assumption.
  repeat split;
    repeat match goal with
           | |- context [if ?b then _ else _] => destruct b
           end; reflexivity.
Qed.

Lemma tallyAll_app t a b : tallyAll t (a ++ b) = tallyAll (tallyAll t a) b.
Proof. apply fold_left_app. Qed.

Lemma empty_clear : counters_clear Totals.empty.
Proof. repeat split. Qed.

(** A row whose minutes count for [+0] leaves the four counters as they
    are. *)
Lemma zero_row_counters (p : ActivityRow.row -> bool) logs1 l logs2 :
  minutes_or_zero l = of_Z 0 ->
  Forall (fun r => sign_clear (minutes_or_zero r) = true) logs1 ->
  same_counters (tallyAll Totals.empty (filter p (logs1 ++ l :: logs2)))
                (tallyAll Totals.empty (filter p (logs1 ++ logs2))).
Proof.
  intros Z F. rewrite !filter_app, !tallyAll_app. cbn [filter].
  destruct (p l); [|split; [|split; [|split]]; reflexivity].
  change (tallyAll (tallyAll Totals.empty (filter p logs1))
                   (l :: filter p logs2))
    with (tallyAll (Totals.tally (tallyAll Totals.empty (filter p logs1))
                      (ActivityRow.category l) (minutes_or_zero l))
                   (filter p logs2)).
  apply tallyAll_same. rewrite Z. apply tally_zero.
  apply tallyAll_clear; [exact empty_clear|].
  now apply WholeFacts.Forall_filter.
Qed.

End CounterFacts.

Lemma plain_not_all c : plain c -> c <> "all"%string.
Proof. intros P E. apply P. subst. now left. Qed.

Lemma filter_filter {A} (p q : A -> bool) (l : list A) :
  filter q (filter p l) = filter (fun x => p x && q x) l.
Proof.
  induction l as [|x l IH]; [reflexivity|].
  cbn [filter]. destruct (p x); cbn [filter andb]; rewrite IH; reflexivity.
Qed.

Lemma summaryFor_counts rows uid :
  Summary.counts (summaryFor rows uid) = tallyAll Totals.empty (rowsOf uid rows).
Proof. reflexivity. Qed.

Lemma totalsByUser_In rows u :
  In u (totalsByUser rows) ->
  In (Summary.user_id u) (map ActivityRow.user_id rows)
  /\ u = summaryFor rows (Summary.user_id u).
Proof.
  rewrite TotalsMapFacts.totalsByUser_tabulate. intros H.
  apply in_map_iff in H as (uid & <- & H).
  split; [|reflexivity]. cbn [summaryFor Summary.user_id].
  apply (Permutation_in _ (TotalsMapFacts.keyOrder_perm _)) in H.
  now apply TotalsMapFacts.summarized_spec in H.
Qed.

(** ** Properties under other names *)

Module StrayFacts.
Import Totals.

Lemma four_names c :
  ~ known c -> c <> "all"%string ->
  (String.eqb c "study" || String.eqb c "skill"
   || String.eqb c "exercise" || String.eqb c "all")%bool = false.
Proof.
  intros K A. unfold known in K.
  destruct (String.eqb_spec c "study"); [tauto|].
  destruct (String.eqb_spec c "skill"); [tauto|].
  destruct (String.eqb_spec c "exercise"); [tauto|].
  destruct (String.eqb_spec c "all"); [contradiction|reflexivity].
Qed.

Lemma read_stray_nan t c m :
  stray_nan t ->
  JsNumber.add match JsObject.get (stray t) c with
               | Some v => v
               | None => JsNumber.NaN
               end m = JsNumber.NaN.
Proof.
  intros P. destruct (JsObject.get (stray t) c) as [v|] eqn:E.
  - now rewrite (P c v E).
  - reflexivity.
Qed.

Lemma tally_stray_nan t c m : stray_nan t -> stray_nan (tally t c m).
Proof.
  intros P k v. rewrite TotalsFacts.tally_stray.
  destruct (String.eqb c "study" || String.eqb c "skill"
            || String.eqb c "exercise" || String.eqb c "all")%bool;
    [apply P|].
  rewrite read_stray_nan by exact P.
  destruct (string_dec c k) as [->|N].
  - rewrite JsObjectFacts.get_set_same. congruence.
  - rewrite JsObjectFacts.get_set_other by exact N. apply P.
Qed.

Lemma tally_stray_keeps t c m k :
  stray_nan t ->
  JsObject.get (stray t) k = Some JsNumber.NaN ->
  JsObject.get (stray (tally t c m)) k = Some JsNumber.NaN.
Proof.
  intros P H. rewrite TotalsFacts.tally_stray.
  destruct (String.eqb c "study" || String.eqb c "skill"
            || String.eqb c "exercise" || String.eqb c "all")%bool;
    [exact H|].
  rewrite read_stray_nan by exact P.
  destruct (string_dec c k) as [->|N].
  - apply JsObjectFacts.get_set_same.
  - now rewrite JsObjectFacts.get_set_other.
Qed.

Lemma tally_stray_new t c m :
  stray_nan t -> ~ known c -> c <> "all"%string ->
  JsObject.get (stray (tally t c m)) c = Some JsNumber.NaN.
Proof.
  intros P K A. rewrite TotalsFacts.tally_stray, four_names by assumption.
  rewrite read_stray_nan by exact P. apply JsObjectFacts.get_set_same.
Qed.

Lemma tallyAll_stray_keeps rows : forall t k,
  stray_nan t ->
  JsObject.get (stray t) k = Some JsNumber.NaN ->
  JsObject.get (stray (tallyAll t rows)) k = Some JsNumber.NaN.
Proof.
  induction rows as [|l rows IH]; intros t k P H; [exact H|].
  apply (IH (tally t (ActivityRow.category l) (minutes_or_zero l))).
  - now apply tally_stray_nan.
  - now apply tally_stray_keeps.
Qed.

(** Every row with an unrecognized category leaves a property of that name,
    holding NaN. *)
Lemma tallyAll_stray rows : forall t l,
  stray_nan t ->
  In l rows ->
  ~ known (ActivityRow.category l) ->
  ActivityRow.category l <> "all"%string ->
  JsObject.get (stray (tallyAll t rows)) (ActivityRow.category l)
  = Some JsNumber.NaN.
Proof.
  induction rows as [|r rows IH]; intros t l P Hin K A; [destruct Hin|].
  destruct Hin as [<-|H].
  - apply (tallyAll_stray_keeps rows
             (tally t (ActivityRow.category r) (minutes_or_zero r))).
    + now apply tally_stray_nan.
    + now apply tally_stray_new.
  - apply (IH (tally t (ActivityRow.category r) (minutes_or_zero r)));
      try assumption.
    now apply tally_stray_nan.
Qed.

Lemma empty_stray_nan : stray_nan empty.
Proof. intros k v H. discriminate. Qed.

End StrayFacts.

(** * The viewer's calendar: week start and streaks *)

(** ** Day numbers *)

Lemma Day_shift t k :
  EsDate.Day (t + k * EsDate.msPerDay) = EsDate.Day t + k.
Proof.
  unfold EsDate.Day, EsDate.msPerDay. rewrite Z.div_add by lia. reflexivity.
Qed.

Lemma mondayOf_spec d :
  (mondayOf d + 4) mod 7 = 1 /\ mondayOf d <= d < mondayOf d + 7
  /\ mondayOf d = d - ((d + 4) mod 7 + 6) mod 7.
Proof. unfold mondayOf. Z.to_euclidean_division_equations; lia. Qed.

Lemma mondayOf_unique d m :
  (m + 4) mod 7 = 1 -> m <= d < m + 7 -> mondayOf d = m.
Proof. unfold mondayOf. Z.to_euclidean_division_equations; lia. Qed.

(** ** Dates in any zone *)

Section DateFacts.
Variable LocalTZA : Z -> bool -> Z.

#[local] Abbreviation LocalTime := (LocalTime LocalTZA).
#[local] Abbreviation UTC := (UTC LocalTZA).
#[local] Abbreviation dateKeyLocal := (dateKeyLocal LocalTZA).
#[local] Abbreviation previousDay := (previousDay LocalTZA).
#[local] Abbreviation setHours := (setHours LocalTZA).
#[local] Abbreviation setDate := (setDate LocalTZA).
#[local] Abbreviation getDate := (getDate LocalTZA).
#[local] Abbreviation startOfWeekMondayLocal := (startOfWeekMondayLocal LocalTZA).
#[local] Abbreviation localDay := (localDay LocalTZA).
#[local] Abbreviation localMidnight := (localMidnight LocalTZA).
#[local] Abbreviation midnightOf := (midnightOf LocalTZA).
#[local] Abbreviation keeps_days := (keeps_days LocalTZA).
#[local] Abbreviation exists_locally := (exists_locally LocalTZA).
#[local] Abbreviation fixed_offset := (fixed_offset LocalTZA).
#[local] Abbreviation days_in_order := (days_in_order LocalTZA).
#[local] Abbreviation days_begin_at_midnight :=
  (days_begin_at_midnight LocalTZA).

Lemma setHours_midnight t : setHours (Some t) 0 0 0 0 = Some (localMidnight t).
Proof. reflexivity. Qed.

(** [d.setDate(d.getDate() + k)] moves the local time of [d] by [k] whole
    days, and reads the result as an instant. *)
Lemma setDate_civil t k :
  setDate (Some t) (num_add (getDate (Some t)) (Some k))
  = Some (UTC (LocalTime t + k * EsDate.msPerDay)).
Proof.
  unfold setDate, getDate, num_add. cbn [option_map].
  do 2 f_equal. rewrite EsDateFacts.MakeDay_civil.
  pose proof (EsDateFacts.Day_TimeWithinDay (LocalTime t)) as E.
  unfold EsDate.MakeDate in *. lia.
Qed.

Lemma previousDay_civil t :
  previousDay (Some t) = Some (UTC (LocalTime t - EsDate.msPerDay)).
Proof.
  unfold previousDay.
  change (num_sub (getDate (Some t)) (Some 1))
    with (num_add (getDate (Some t)) (Some (-1))) at 1.
  rewrite setDate_civil. do 2 f_equal; lia.
Qed.

(** The key of a day tells days apart. *)
Lemma dayKey_inj d1 d2 : dayKey d1 = dayKey d2 -> d1 = d2.
Proof.
  unfold dayKey. cbv zeta.
  set (a := EsDate.MakeDate d1 0). set (b := EsDate.MakeDate d2 0).
  intros E.
  pose proof (EsDateFacts.MonthFromTime_range a) as Ma.
  pose proof (EsDateFacts.MonthFromTime_range b) as Mb.
  pose proof (EsDateFacts.DateFromTime_range a) as Da.
  pose proof (EsDateFacts.DateFromTime_range b) as Db.
  assert (La := JsStringFacts.padStart2_length (EsDate.MonthFromTime a + 1)
                  ltac:(lia)).
  assert (Lb := JsStringFacts.padStart2_length (EsDate.MonthFromTime b + 1)
                  ltac:(lia)).
  assert (La' := JsStringFacts.padStart2_length (EsDate.DateFromTime a)
                   ltac:(lia)).
  assert (Lb' := JsStringFacts.padStart2_length (EsDate.DateFromTime b)
                   ltac:(lia)).
  assert (LE := f_equal String.length E).
  rewrite !JsStringFacts.length_append in LE.
  rewrite La, Lb, La', Lb' in LE. cbn [String.length] in LE.
  apply JsStringFacts.append_inj_l in E as [Ey E]; [|lia].
  apply JsStringFacts.ToString_inj in Ey.
  apply (JsStringFacts.append_inj_l "-" "-") in E as [_ E]; [|reflexivity].
  apply JsStringFacts.append_inj_l in E as [Em E]; [|congruence].
  apply JsStringFacts.padStart2_inj in Em; [|lia|lia].
  apply (JsStringFacts.append_inj_l "-" "-") in E as [_ E]; [|reflexivity].
  apply JsStringFacts.padStart2_inj in E; [|lia|lia].
  pose proof (EsDateFacts.MakeDay_civil a 0) as Ca.
  pose proof (EsDateFacts.MakeDay_civil b 0) as Cb.
  rewrite !Z.add_0_r in Ca, Cb.
  assert (A : EsDate.Day a = d1)
    by (apply EsDateFacts.Day_MakeDate; unfold EsDate.msPerDay; lia).
  assert (B : EsDate.Day b = d2)
    by (apply EsDateFacts.Day_MakeDate; unfold EsDate.msPerDay; lia).
  rewrite <- A, <- B, <- Ca, <- Cb, Ey, E. f_equal. lia.
Qed.

(** The key of a valid date is the key of its local day. *)
Lemma dateKeyLocal_dayKey t : dateKeyLocal (Some t) = dayKey (localDay t).
Proof.
  unfold dateKeyLocal, dayKey, getFullYear, getMonth, getDate, num_add,
    localDay.
  cbn [option_map]. cbv zeta.
  unfold EsDate.DateFromTime, EsDate.MonthFromTime, EsDate.DayWithinYear,
    EsDate.YearFromTime.
  rewrite EsDateFacts.Day_MakeDate by (unfold EsDate.msPerDay; lia).
  reflexivity.
Qed.

Lemma dateKeyLocal_day t1 t2 :
  dateKeyLocal (Some t1) = dateKeyLocal (Some t2) <-> localDay t1 = localDay t2.
Proof.
  rewrite !dateKeyLocal_dayKey. split; [apply dayKey_inj|congruence].
Qed.

(** The key of Invalid Date is the key of no day. *)
Lemma dayKey_not_NaN d : dayKey d <> "NaN-NaN-NaN"%string.
Proof.
  unfold dayKey. cbv zeta. set (a := EsDate.MakeDate d 0). intros E.
  pose proof (EsDateFacts.MonthFromTime_range a) as Ma.
  pose proof (EsDateFacts.DateFromTime_range a) as Da.
  assert (Lm := JsStringFacts.padStart2_length (EsDate.MonthFromTime a + 1)
                  ltac:(lia)).
  assert (Ld := JsStringFacts.padStart2_length (EsDate.DateFromTime a)
                  ltac:(lia)).
  assert (LE := f_equal String.length E).
  rewrite !JsStringFacts.length_append in LE. rewrite Lm, Ld in LE.
  cbn [String.length] in LE.
  change "NaN-NaN-NaN"%string with ("NaN-N" ++ "aN-NaN")%string in E.
  apply JsStringFacts.append_inj_l in E as [E _]; [|cbn [String.length]; lia].
  pose proof (JsStringFacts.parse_ToString (EsDate.YearFromTime a)) as P.
  rewrite E in P. discriminate P.
Qed.

Lemma dateKeyLocal_invalid t : dateKeyLocal (Some t) <> dateKeyLocal None.
Proof. rewrite dateKeyLocal_dayKey. apply dayKey_not_NaN. Qed.

(** What the week start is computed from, in any zone. *)
Lemma startOfWeek_steps now :
  startOfWeekMondayLocal (Some now)
  = Some (localMidnight
            (UTC (LocalTime now
                  + (mondayOf (localDay now) - localDay now)
                    * EsDate.msPerDay))).
Proof.
  set (wd := EsDate.WeekDay (LocalTime now)).
  set (diff := (if wd =? 0 then -6 else 1) - wd).
  unfold startOfWeekMondayLocal.
  assert (D : num_sub
                (if num_strict_eq (getDay LocalTZA (Some now)) (Some 0)
                 then Some (-6) else Some 1) (getDay LocalTZA (Some now))
              = Some diff).
  { unfold getDay, num_strict_eq, diff. cbn [option_map]. fold wd.
    destruct (wd =? 0); reflexivity. }
  rewrite D, setDate_civil, setHours_midnight.
  assert (Hd : diff = mondayOf (localDay now) - localDay now).
  { unfold diff, mondayOf.
    assert (W : wd = (localDay now + 4) mod 7) by reflexivity.
    rewrite W.
    destruct (Z.eqb_spec ((localDay now + 4) mod 7) 0);
      Z.to_euclidean_division_equations; lia. }
  now rewrite Hd.
Qed.

(** *** Zones that keep days *)

Section KeepsDays.
Hypothesis K : keeps_days.

Lemma localDay_UTC tl : localDay (UTC tl) = EsDate.Day tl.
Proof. apply K. Qed.

Lemma localDay_midnightOf d : localDay (midnightOf d) = d.
Proof.
  unfold midnightOf. rewrite localDay_UTC.
  apply EsDateFacts.Day_MakeDate. unfold EsDate.msPerDay. lia.
Qed.

Lemma localDay_midnight t : localDay (localMidnight t) = localDay t.
Proof. apply localDay_midnightOf. Qed.

Lemma localDay_previousDay t :
  exists t', previousDay (Some t) = Some t' /\ localDay t' = localDay t - 1.
Proof.
  eexists. split; [apply previousDay_civil|].
  rewrite localDay_UTC.
  replace (LocalTime t - EsDate.msPerDay)
    with (LocalTime t + (-1) * EsDate.msPerDay) by lia.
  rewrite Day_shift. unfold localDay. lia.
Qed.

Lemma dayKey_midnight t :
  dateKeyLocal (Some (localMidnight t)) = dateKeyLocal (Some t).
Proof. apply dateKeyLocal_day, localDay_midnight. Qed.

(** The week start is what local midnight of the Monday is read as. *)
Lemma startOfWeek_value now :
  startOfWeekMondayLocal (Some now)
  = Some (midnightOf (mondayOf (localDay now))).
Proof.
  rewrite startOfWeek_steps. unfold localMidnight at 1.
  rewrite localDay_UTC, Day_shift. do 2 f_equal. unfold localDay. lia.
Qed.

End KeepsDays.

(** *** Zones at a fixed offset *)

Section Fixed.
Variable tza : Z.
Hypothesis F : fixed_offset tza.

Lemma fixed_LocalTime t : LocalTime t = t + tza.
Proof. unfold LocalTime. now rewrite F. Qed.

Lemma fixed_UTC t : UTC t = t - tza.
Proof. unfold UTC. now rewrite F. Qed.

Lemma fixed_exists_locally tl : exists_locally tl.
Proof.
  unfold exists_locally. rewrite fixed_LocalTime, fixed_UTC. lia.
Qed.

Lemma fixed_keeps_days : keeps_days.
Proof. intros tl. now rewrite fixed_exists_locally. Qed.

Lemma fixed_days_in_order : days_in_order.
Proof.
  intros a b H. unfold localDay. rewrite !fixed_LocalTime.
  unfold EsDate.Day, EsDate.msPerDay. apply Z.div_le_mono; lia.
Qed.

Lemma fixed_localDay_shift t k :
  localDay (t + k * EsDate.msPerDay) = localDay t + k.
Proof.
  unfold localDay. rewrite !fixed_LocalTime.
  replace (t + k * EsDate.msPerDay + tza) with (t + tza + k * EsDate.msPerDay)
    by lia.
  apply Day_shift.
Qed.

Lemma fixed_midnightOf d : midnightOf d = d * EsDate.msPerDay - tza.
Proof.
  unfold midnightOf. rewrite fixed_UTC. unfold EsDate.MakeDate. lia.
Qed.

(** The instants of a local day, from its midnight on. *)
Lemma fixed_day_bounds d t :
  midnightOf d <= t <-> d <= localDay t.
Proof.
  rewrite fixed_midnightOf. unfold localDay. rewrite fixed_LocalTime.
  unfold EsDate.Day, EsDate.msPerDay.
  Z.to_euclidean_division_equations; lia.
Qed.

Lemma fixed_days_begin : days_begin_at_midnight.
Proof. exact fixed_day_bounds. Qed.

Lemma fixed_day_end d t :
  t < midnightOf (d + 1) <-> localDay t <= d.
Proof.
  rewrite fixed_midnightOf. unfold localDay. rewrite fixed_LocalTime.
  unfold EsDate.Day, EsDate.msPerDay.
  Z.to_euclidean_division_equations; lia.
Qed.

End Fixed.

(** C5 (amended). In a zone that keeps days, and in which local midnight of
    the Monday on or before [now] exists, [startOfWeekMondayLocal now] is
    the instant of that midnight: its local time of day is zero, its local
    day is a Monday, the one of [now] or one of the six days before it; from
    a Wednesday it goes back two days, and from a Sunday six. At a fixed
    offset it is at most [now] and less than seven days before it. *)
Theorem startOfWeek_is_monday_midnight (now : Z) :
  keeps_days ->
  exists_locally (EsDate.MakeDate (mondayOf (localDay now)) 0) ->
  exists r : Z,
    startOfWeekMondayLocal (Some now) = Some r
    /\ LocalTime r = EsDate.MakeDate (mondayOf (localDay now)) 0
    /\ EsDate.TimeWithinDay (LocalTime r) = 0
    /\ EsDate.WeekDay (LocalTime r) = 1
    /\ localDay r <= localDay now < localDay r + 7
    /\ localDay r = localDay now - (EsDate.WeekDay (LocalTime now) + 6) mod 7
    /\ (EsDate.WeekDay (LocalTime now) = 3 -> localDay r = localDay now - 2)
    /\ (EsDate.WeekDay (LocalTime now) = 0 -> localDay r = localDay now - 6)
    /\ (forall tza, fixed_offset tza ->
          r <= now < r + 7 * EsDate.msPerDay).
Proof.
  intros K M. exists (midnightOf (mondayOf (localDay now))).
  pose proof (mondayOf_spec (localDay now)) as (W & B & V).
  pose proof (localDay_midnightOf K (mondayOf (localDay now))) as D.
  split; [now apply startOfWeek_value|]. split; [exact M|]. split.
  { unfold midnightOf. rewrite M.
    apply EsDateFacts.TimeWithinDay_MakeDate. unfold EsDate.msPerDay. lia. }
  split.
  { unfold EsDate.WeekDay. fold (localDay (midnightOf (mondayOf (localDay now)))).
    now rewrite D. }
  rewrite D. split; [exact B|].
  assert (E : mondayOf (localDay now)
              = localDay now - (EsDate.WeekDay (LocalTime now) + 6) mod 7)
    by exact V.
  split; [exact E|]. split; [intros H; rewrite E, H; reflexivity|].
  split; [intros H; rewrite E, H; reflexivity|].
  intros tza F. split.
  - apply (fixed_day_bounds tza F). lia.
  - pose proof (fixed_day_end tza F (mondayOf (localDay now) + 6) now) as U.
    rewrite (fixed_midnightOf tza F) in U.
    rewrite (fixed_midnightOf tza F). unfold EsDate.msPerDay in *. lia.
Qed.

End DateFacts.

(** ** The counting loop *)

Section StreakFacts.
Variable LocalTZA : Z -> bool -> Z.

#[local] Abbreviation dateKeyLocal := (dateKeyLocal LocalTZA).
#[local] Abbreviation previousDay := (previousDay LocalTZA).
#[local] Abbreviation streakOfDays := (streakOfDays LocalTZA).
#[local] Abbreviation activeDays := (activeDays LocalTZA).
#[local] Abbreviation streak := (streak LocalTZA).
#[local] Abbreviation localDay := (localDay LocalTZA).
#[local] Abbreviation localMidnight := (localMidnight LocalTZA).
#[local] Abbreviation activeAgo := (activeAgo LocalTZA).
#[local] Abbreviation graceDay := (graceDay LocalTZA).
#[local] Abbreviation addKeys := (addKeys LocalTZA).
#[local] Abbreviation keeps_days := (keeps_days LocalTZA).
#[local] Abbreviation loggedOn := (loggedOn LocalTZA).

(** The test of the loop, at a valid cursor. *)
Lemma has_key days t :
  JsObject.set_has days (dateKeyLocal (Some t)) = activeAgo days t 0.
Proof.
  unfold activeAgo. rewrite (dateKeyLocal_dayKey LocalTZA).
  cbn [Z.of_nat]. now rewrite Z.sub_0_r.
Qed.

Lemma activeAgo_day days t t' i j :
  localDay t' - Z.of_nat i = localDay t - Z.of_nat j ->
  activeAgo days t' i = activeAgo days t j.
Proof. intros E. unfold activeAgo. now rewrite E. Qed.

(** Where the loop starts, in any zone. *)
Lemma streakOfDays_start fuel days now :
  streakOfDays fuel days now
  = countBack LocalTZA fuel days
      (if JsObject.set_has days (dateKeyLocal (Some (localMidnight now)))
       then Some (localMidnight now)
       else previousDay (Some (localMidnight now))) 0.
Proof.
  unfold streakOfDays. rewrite (setHours_midnight LocalTZA).
  destruct (JsObject.set_has days (dateKeyLocal (Some (localMidnight now))));
    reflexivity.
Qed.

(** A cursor whose day is active and whose day before is read as the same
    instant keeps the loop from ending. *)
Lemma stalled_loop days now c :
  (if JsObject.set_has days (dateKeyLocal (Some (localMidnight now)))
   then Some (localMidnight now)
   else previousDay (Some (localMidnight now))) = Some c ->
  JsObject.set_has days (dateKeyLocal (Some c)) = true ->
  previousDay (Some c) = Some c ->
  forall fuel, streakOfDays fuel days now = None.
Proof.
  intros M H P.
  assert (L : forall fuel s,
            countBack LocalTZA fuel days (Some c) s = None).
  { induction fuel as [|fuel IH]; intros s; [reflexivity|].
    cbn [countBack]. rewrite H, P. apply IH. }
  intros fuel. rewrite streakOfDays_start. revert M.
  destruct (JsObject.set_has days (dateKeyLocal (Some (localMidnight now))));
    intros ->; apply L.
Qed.

(** Either the first [k] days back are all active, or there is a first gap
    among them. *)
Lemma first_gap days t k :
  (forall i, (i < k)%nat -> activeAgo days t i = true)
  \/ exists n, (n < k)%nat
       /\ (forall i, (i < n)%nat -> activeAgo days t i = true)
       /\ activeAgo days t n = false.
Proof.
  induction k as [|k [IH|(n & Hn & Hrun & Hgap)]].
  - left. intros i Hi. lia.
  - destruct (activeAgo days t k) eqn:E.
    + left. intros i Hi. destruct (Nat.eq_dec i k) as [->|N]; [exact E|].
      apply IH. lia.
    + right. exists k. auto.
  - right. exists n. split; [lia|auto].
Qed.

(** A run of [n] active days needs [n] distinct keys in the set. *)
Lemma run_length days t n :
  (forall i, (i < n)%nat -> activeAgo days t i = true) ->
  (n <= List.length days)%nat.
Proof.
  intros Hrun.
  set (ks := map (fun i => dayKey (localDay t - Z.of_nat i)) (seq 0 n)).
  assert (L : List.length ks = n) by (unfold ks; now rewrite length_map, length_seq).
  rewrite <- L. apply NoDup_incl_length.
  - unfold ks. apply Finite.Injective_map_NoDup; [|apply seq_NoDup].
    intros i j E. apply dayKey_inj in E. lia.
  - intros k Hk. unfold ks in Hk. apply in_map_iff in Hk as (i & <- & Hi).
    apply in_seq in Hi. apply StringSetFacts.set_has_In. apply Hrun. lia.
Qed.

(** The set of active days holds exactly the keys of the rows, each once. *)
Lemma activeDays_acc logs : forall acc,
  NoDup acc ->
  let days := addKeys acc logs in
  NoDup days
  /\ (forall k, In k days <->
        In k acc \/ exists l, In l logs
                              /\ dateKeyLocal (ActivityRow.occurred_at l) = k)
  /\ (List.length days <= List.length acc + List.length logs)%nat.
Proof.
  induction logs as [|l logs IH]; intros acc Hacc.
  - split; [exact Hacc|]. split; [|simpl; lia].
    intros k. split; [auto|]. intros [H|(l & [] & _)]. exact H.
  - destruct (IH _ (StringSetFacts.set_add_NoDup acc
                      (dateKeyLocal (ActivityRow.occurred_at l)) Hacc))
      as (N & I & L).
    change (addKeys acc (l :: logs))
      with (addKeys (JsObject.set_add acc
                       (dateKeyLocal (ActivityRow.occurred_at l))) logs).
    split; [exact N|]. split.
    + intros k. rewrite I, StringSetFacts.set_add_In. split.
      * intros [[H|H]|(l' & Hl' & E)]; eauto.
        -- right. exists l. split; [now left|now symmetry].
        -- right. exists l'. split; [now right|exact E].
      * intros [H|(l' & [<-|Hl'] & E)]; eauto.
    + pose proof (StringSetFacts.set_add_length acc
                    (dateKeyLocal (ActivityRow.occurred_at l))).
      simpl. lia.
Qed.

Lemma activeDays_spec logs :
  NoDup (activeDays logs)
  /\ (forall k, In k (activeDays logs) <->
        exists l, In l logs /\ dateKeyLocal (ActivityRow.occurred_at l) = k)
  /\ (List.length (activeDays logs) <= List.length logs)%nat.
Proof.
  unfold activeDays.
  destruct (activeDays_acc logs [] (NoDup_nil _)) as (N & I & L).
  split; [exact N|]. split; [|exact L].
  intros k. rewrite (I k). split; [intros [[]|H]; exact H|auto].
Qed.

(** A day is active exactly when a row with a valid date falls on it. *)
Lemma has_dayKey logs d :
  JsObject.set_has (activeDays logs) (dayKey d) = true <-> loggedOn logs d.
Proof.
  rewrite StringSetFacts.set_has_In.
  destruct (activeDays_spec logs) as (_ & I & _). rewrite I.
  split.
  - intros (l & Hl & E). destruct (ActivityRow.occurred_at l) as [t|] eqn:T.
    + exists l, t. split; [exact Hl|]. split; [exact T|].
      rewrite (dateKeyLocal_dayKey LocalTZA) in E. now apply dayKey_inj.
    + symmetry in E. now apply dayKey_not_NaN in E.
  - intros (l & t & Hl & T & E). exists l. split; [exact Hl|]. rewrite T.
    rewrite (dateKeyLocal_dayKey LocalTZA). now rewrite E.
Qed.

Lemma activeAgo_rows logs now k :
  activeAgo (activeDays logs) now k = true
  <-> loggedOn logs (localDay now - Z.of_nat k).
Proof. apply has_dayKey. Qed.

Lemma activeAgo_not_loggedOn logs now k :
  activeAgo (activeDays logs) now k = false
  <-> ~ loggedOn logs (localDay now - Z.of_nat k).
Proof.
  rewrite <- activeAgo_rows.
  destruct (activeAgo (activeDays logs) now k); split; congruence.
Qed.

(** *** In a zone that keeps days *)

Section KeepsDays.
Hypothesis K : keeps_days.

(** The loop counts the run of active days that ends at the cursor's day. *)
Lemma countBack_run days n : forall fuel t s,
  (forall i, (i < n)%nat -> activeAgo days t i = true) ->
  activeAgo days t n = false ->
  (n < fuel)%nat ->
  countBack LocalTZA fuel days (Some t) s = Some (s + n)%nat.
Proof.
  induction n as [|n IH]; intros [|fuel] t s Hrun Hgap Hfuel; try lia.
  - cbn [countBack]. rewrite has_key, Hgap. f_equal. lia.
  - cbn [countBack]. rewrite has_key, (Hrun 0%nat) by lia.
    destruct (localDay_previousDay LocalTZA K t) as (t' & -> & D).
    rewrite (IH fuel t' (S s)).
    + f_equal. lia.
    + intros i Hi. rewrite (activeAgo_day days t t' i (S i)) by lia.
      apply Hrun. lia.
    + rewrite (activeAgo_day days t t' n (S n)) by lia. exact Hgap.
    + lia.
Qed.

Lemma countBack_total days t :
  exists n, (n <= List.length days)%nat
    /\ (forall i, (i < n)%nat -> activeAgo days t i = true)
    /\ activeAgo days t n = false
    /\ forall fuel s, (n < fuel)%nat ->
         countBack LocalTZA fuel days (Some t) s = Some (s + n)%nat.
Proof.
  destruct (first_gap days t (S (List.length days)))
    as [Hall|(n & Hn & Hrun & Hgap)].
  - pose proof (run_length days t _ Hall). lia.
  - exists n. split; [exact (run_length days t n Hrun)|].
    split; [exact Hrun|]. split; [exact Hgap|].
    intros fuel s Hf. now apply countBack_run.
Qed.

(** The loop starts at an instant of the day [graceDay]. *)
Lemma streakOfDays_unfold days now :
  exists c, localDay c = graceDay days now
    /\ forall fuel,
         streakOfDays fuel days now = countBack LocalTZA fuel days (Some c) 0.
Proof.
  unfold graceDay.
  pose proof (has_key days (localMidnight now)) as H.
  rewrite (activeAgo_day days now (localMidnight now) 0 0) in H
    by (now rewrite (localDay_midnight LocalTZA K)).
  destruct (activeAgo days now 0) eqn:A.
  - exists (localMidnight now). split; [apply (localDay_midnight LocalTZA K)|].
    intros fuel. rewrite streakOfDays_start, H. reflexivity.
  - destruct (localDay_previousDay LocalTZA K (localMidnight now))
      as (c & E & D).
    exists c. split; [now rewrite D, (localDay_midnight LocalTZA K)|].
    intros fuel. rewrite streakOfDays_start, H, E. reflexivity.
Qed.

(** The streak is the length of the run of active days that ends today
    when today is active, and yesterday otherwise. *)
Lemma streakOfDays_run days now :
  let g := if activeAgo days now 0 then 0%nat else 1%nat in
  exists n,
    (n <= List.length days)%nat
    /\ (forall i, (i < n)%nat -> activeAgo days now (g + i) = true)
    /\ activeAgo days now (g + n) = false
    /\ forall fuel, (n < fuel)%nat -> streakOfDays fuel days now = Some n.
Proof.
  intros g. destruct (streakOfDays_unfold days now) as (c & D & U).
  destruct (countBack_total days c) as (n & Hn & Hrun & Hgap & Hc).
  assert (E : forall i, activeAgo days c i = activeAgo days now (g + i)).
  { intros i. apply activeAgo_day. rewrite D. unfold graceDay, g.
    destruct (activeAgo days now 0); lia. }
  exists n. split; [exact Hn|]. split.
  { intros i Hi. rewrite <- E. now apply Hrun. }
  split; [now rewrite <- E|].
  intros fuel Hf. rewrite U. now rewrite (Hc fuel 0%nat Hf).
Qed.

Lemma streakOfDays_total days now :
  exists s, (s <= List.length days)%nat
    /\ forall fuel, (List.length days < fuel)%nat ->
         streakOfDays fuel days now = Some s.
Proof.
  destruct (streakOfDays_run days now) as (n & Hn & _ & _ & Hc).
  exists n. split; [exact Hn|]. intros fuel Hf. apply Hc. lia.
Qed.

(** A row of today makes the streak positive, and a run of logged days
    that ends yesterday counts in full. *)
Lemma streak_counts logs now :
  exists s,
    (s <= List.length (activeDays logs))%nat
    /\ (forall fuel, (List.length logs < fuel)%nat ->
          streak fuel logs now = Some s)
    /\ (loggedOn logs (localDay now) -> (1 <= s)%nat)
    /\ forall k,
         (forall i, 0 <= i < Z.of_nat k ->
                    loggedOn logs (localDay now - 1 - i)) ->
         (k <= s)%nat.
Proof.
  destruct (streakOfDays_run (activeDays logs) now)
    as (n & Hn & Hrun & Hgap & Hs).
  destruct (activeDays_spec logs) as (_ & _ & L).
  exists n. split; [exact Hn|]. split.
  { intros fuel Hf. apply Hs. lia. }
  destruct (activeAgo (activeDays logs) now 0) eqn:A.
  - cbn [Nat.add] in Hrun, Hgap. split.
    + intros _. destruct n as [|n]; [congruence|lia].
    + intros k R. destruct (Nat.le_gt_cases k n) as [H|H]; [exact H|].
      exfalso. apply activeAgo_not_loggedOn in Hgap. apply Hgap.
      destruct n as [|n].
      * apply activeAgo_rows in A. exact A.
      * replace (localDay now - Z.of_nat (S n))
          with (localDay now - 1 - Z.of_nat n) by lia.
        apply R. lia.
  - split.
    + intros H. apply activeAgo_not_loggedOn in A.
      cbn [Z.of_nat] in A. rewrite Z.sub_0_r in A. contradiction.
    + intros k R. destruct (Nat.le_gt_cases k n) as [H|H]; [exact H|].
      exfalso. apply activeAgo_not_loggedOn in Hgap. apply Hgap.
      replace (localDay now - Z.of_nat (1 + n))
        with (localDay now - 1 - Z.of_nat n) by lia.
      apply R. lia.
Qed.

End KeepsDays.

End StreakFacts.

(** ** The dashboard's streaks *)

Section ByUserFacts.
Variable LocalTZA : Z -> bool -> Z.

#[local] Abbreviation dateKeyLocal := (dateKeyLocal LocalTZA).
#[local] Abbreviation streakOfDays := (streakOfDays LocalTZA).
#[local] Abbreviation activeDays := (activeDays LocalTZA).
#[local] Abbreviation activeDaysByUser := (activeDaysByUser LocalTZA).
#[local] Abbreviation ownActiveDays := (ownActiveDays LocalTZA).
#[local] Abbreviation streak := (streak LocalTZA).
#[local] Abbreviation streakByUser := (streakByUser LocalTZA).
#[local] Abbreviation addKeys := (addKeys LocalTZA).
#[local] Abbreviation activeStep := (activeStep LocalTZA).
#[local] Abbreviation ownActiveStep := (ownActiveStep LocalTZA).
#[local] Abbreviation keeps_days := (keeps_days LocalTZA).

Lemma set_keys_NoDup {V} (o : JsObject.obj V) k v :
  NoDup (map fst o) -> NoDup (map fst (JsObject.set o k v)).
Proof.
  intros N. destruct (in_dec string_dec k (map fst o)) as [I|I].
  - now rewrite JsObjectFacts.keys_set_present.
  - rewrite JsObjectFacts.keys_set_absent by exact I.
    apply NoDup_app; [exact N|repeat constructor; intros []|].
    intros x Hx [<-|[]]. contradiction.
Qed.

(** *** Owners whose ids name no inherited member *)

Lemma ownActiveStep_get active l uid :
  JsObject.get (ownActiveStep active l) uid
  = if ownedBy uid l
    then Some (JsObject.set_add (daysIn active uid)
                 (dateKeyLocal (ActivityRow.occurred_at l)))
    else JsObject.get active uid.
Proof.
  unfold ownActiveStep, ownedBy, daysIn.
  destruct (String.eqb_spec (ActivityRow.user_id l) uid) as [<-|N].
  - destruct (JsObject.get active (ActivityRow.user_id l)) as [d|] eqn:E.
    + rewrite E. apply JsObjectFacts.get_set_same.
    + rewrite JsObjectFacts.get_set_same. apply JsObjectFacts.get_set_same.
  - destruct (JsObject.get active (ActivityRow.user_id l)) as [d|] eqn:E.
    + rewrite E. now apply JsObjectFacts.get_set_other.
    + rewrite JsObjectFacts.get_set_same.
      rewrite !JsObjectFacts.get_set_other by exact N. reflexivity.
Qed.

Lemma ownActiveStep_NoDup active l :
  NoDup (map fst active) -> NoDup (map fst (ownActiveStep active l)).
Proof.
  intros N. unfold ownActiveStep.
  destruct (JsObject.get active (ActivityRow.user_id l)) as [d|] eqn:E.
  - rewrite E. now apply set_keys_NoDup.
  - rewrite JsObjectFacts.get_set_same. now apply set_keys_NoDup, set_keys_NoDup.
Qed.

Lemma ownActiveDays_acc logs : forall active,
  NoDup (map fst active) ->
  let r := fold_left ownActiveStep logs active in
  NoDup (map fst r)
  /\ forall uid,
       JsObject.get r uid
       = match rowsOf uid logs with
         | [] => JsObject.get active uid
         | rows => Some (addKeys (daysIn active uid) rows)
         end.
Proof.
  induction logs as [|l logs IH]; intros active N; cbn [fold_left].
  - split; [exact N|reflexivity].
  - destruct (IH _ (ownActiveStep_NoDup active l N)) as [N' G].
    split; [exact N'|]. intros uid. rewrite G.
    unfold daysIn. rewrite ownActiveStep_get.
    unfold rowsOf. cbn [filter].
    destruct (ownedBy uid l); [|reflexivity].
    destruct (filter (ownedBy uid) logs); reflexivity.
Qed.

Lemma ownActiveDays_spec logs :
  NoDup (map fst (ownActiveDays logs))
  /\ forall uid,
       JsObject.get (ownActiveDays logs) uid
       = match rowsOf uid logs with
         | [] => None
         | rows => Some (activeDays rows)
         end.
Proof.
  destruct (ownActiveDays_acc logs [] (NoDup_nil _)) as [N G].
  split; [exact N|]. intros uid.
  change (JsObject.get (fold_left ownActiveStep logs []) uid = 
          match rowsOf uid logs with
         | [] => None
         | rows => Some (activeDays rows)
         end).
  rewrite G. reflexivity.
Qed.

(** *** The first loop: grouping, or a TypeError *)

Lemma activeStep_own active l :
  ownId l = true -> activeStep active l = Normal (ownActiveStep active l).
Proof.
  unfold ownId. intros H. apply negb_true_iff in H.
  unfold activeStep, ownActiveStep.
  rewrite (TotalsMapFacts.lookup_own active _ H).
  destruct (JsObject.get active (ActivityRow.user_id l)) as [d|] eqn:E.
  - rewrite (TotalsMapFacts.lookup_own active _ H), E. reflexivity.
  - rewrite (TotalsMapFacts.lookup_own _ _ H), JsObjectFacts.get_set_same.
    reflexivity.
Qed.

Lemma activeStep_inherited active l :
  ownId l = false ->
  (forall q, In q (map fst active) -> JsObject.inherits q = false) ->
  activeStep active l = Throw "TypeError".
Proof.
  unfold ownId. intros H K. apply negb_false_iff in H.
  unfold activeStep.
  rewrite (TotalsMapFacts.lookup_inherited active _ H K).
  now rewrite (TotalsMapFacts.lookup_inherited active _ H K).
Qed.

Lemma ownActiveStep_keys active l q :
  In q (map fst (ownActiveStep active l)) ->
  In q (map fst active) \/ q = ActivityRow.user_id l.
Proof.
  intros H.
  destruct (String.eqb_spec (ActivityRow.user_id l) q) as [E|N];
    [now right|left].
  destruct (JsObject.get active q) as [d|] eqn:G.
  - now apply TotalsMapFacts.get_In_keys in G.
  - exfalso. apply JsObjectFacts.get_None in H; [exact H|].
    rewrite ownActiveStep_get. unfold ownedBy.
    apply String.eqb_neq in N. now rewrite N.
Qed.

Lemma groupDays_own logs : forall active,
  forallb ownId logs = true ->
  groupDays LocalTZA active logs = Normal (fold_left ownActiveStep logs active).
Proof.
  induction logs as [|l logs IH]; intros active H; [reflexivity|].
  cbn [forallb] in H. apply andb_true_iff in H as [O H].
  cbn [groupDays fold_left]. rewrite (activeStep_own _ _ O). now apply IH.
Qed.

Lemma groupDays_inherited logs : forall active,
  (forall q, In q (map fst active) -> JsObject.inherits q = false) ->
  forallb ownId logs = false ->
  groupDays LocalTZA active logs = Throw "TypeError".
Proof.
  induction logs as [|l logs IH]; intros active K H; [discriminate H|].
  cbn [forallb] in H. cbn [groupDays]. destruct (ownId l) eqn:O.
  - rewrite (activeStep_own _ _ O). apply IH; [|exact H].
    intros q Hq. apply ownActiveStep_keys in Hq as [Hq| ->]; [now apply K|].
    unfold ownId in O. now apply negb_true_iff in O.
  - now rewrite (activeStep_inherited _ _ O K).
Qed.

Lemma activeDaysByUser_own logs :
  forallb ownId logs = true ->
  activeDaysByUser logs = Normal (ownActiveDays logs).
Proof. apply groupDays_own. Qed.

Lemma activeDaysByUser_inherited logs :
  forallb ownId logs = false ->
  activeDaysByUser logs = Throw "TypeError".
Proof. apply groupDays_inherited. intros q []. Qed.

(** *** The second loop *)

Lemma streakEach_cases fuel now es : forall result,
  NoDup (map fst es) ->
  match streakEach LocalTZA fuel now es result with
  | Some r =>
      (forall uid days, In (uid, days) es ->
         streakOfDays fuel days now <> None)
      /\ forall uid,
           JsObject.get r uid
           = match JsObject.get es uid with
             | Some days => streakOfDays fuel days now
             | None => JsObject.get result uid
             end
  | None =>
      exists uid days, In (uid, days) es /\ streakOfDays fuel days now = None
  end.
Proof.
  induction es as [|[u d] es IH]; intros result N; cbn [streakEach].
  - split; [intros uid days []|reflexivity].
  - inversion N as [|? ? Hu N']; subst.
    destruct (streakOfDays fuel d now) as [s|] eqn:Hs.
    + specialize (IH (JsObject.set result u s) N').
      destruct (streakEach LocalTZA fuel now es (JsObject.set result u s))
        as [r|].
      * destruct IH as [A IH]. split.
        { intros uid days [[= <- <-]|Hin]; [congruence|now apply (A uid)]. }
        intros uid. rewrite IH. cbn [JsObject.get].
        destruct (String.eqb_spec u uid) as [<-|Nu].
        -- apply JsObjectFacts.get_None in Hu. rewrite Hu.
           rewrite JsObjectFacts.get_set_same. now symmetry.
        -- destruct (JsObject.get es uid); [reflexivity|].
           now apply JsObjectFacts.get_set_other.
      * destruct IH as (uid & days & Hin & E).
        exists uid, days. split; [now right|exact E].
    + exists u, d. split; [now left|exact Hs].
Qed.

Lemma streakEach_spec fuel now es : forall result,
  NoDup (map fst es) ->
  (forall uid days, In (uid, days) es ->
     exists s, streakOfDays fuel days now = Some s) ->
  exists r, streakEach LocalTZA fuel now es result = Some r
    /\ forall uid,
         JsObject.get r uid
         = match JsObject.get es uid with
           | Some days => streakOfDays fuel days now
           | None => JsObject.get result uid
           end.
Proof.
  intros result N H. pose proof (streakEach_cases fuel now es result N) as C.
  destruct (streakEach LocalTZA fuel now es result) as [r|].
  - exists r. split; [reflexivity|apply C].
  - destruct C as (uid & days & Hin & E).
    destruct (H uid days Hin) as [s Hs]. congruence.
Qed.

Lemma rowsOf_length uid logs :
  (List.length (rowsOf uid logs) <= List.length logs)%nat.
Proof. apply filter_length_le. Qed.

Lemma rowsOf_present uid logs :
  In uid (map ActivityRow.user_id logs) <-> rowsOf uid logs <> [].
Proof.
  split.
  - intros Hin. apply in_map_iff in Hin as (l & E & Hl).
    assert (Hl' : In l (rowsOf uid logs)).
    { apply filter_In. split; [exact Hl|]. unfold ownedBy.
      now apply String.eqb_eq. }
    intros C. rewrite C in Hl'. exact Hl'.
  - intros H. destruct (rowsOf uid logs) as [|l rows] eqn:R; [contradiction|].
    assert (I : In l (rowsOf uid logs)) by (rewrite R; now left).
    apply filter_In in I as [I O]. apply String.eqb_eq in O.
    apply in_map_iff. now exists l.
Qed.

(** The entries of the grouped days are the owners' sets. *)
Lemma entries_ownActiveDays logs uid days :
  In (uid, days) (JsObject.entries (ownActiveDays logs)) ->
  In uid (map ActivityRow.user_id logs)
  /\ days = activeDays (rowsOf uid logs).
Proof.
  intros Hin. destruct (ownActiveDays_spec logs) as [N G].
  assert (E : JsObject.get (ownActiveDays logs) uid = Some days).
  { apply JsObjectFacts.In_get; [exact N|].
    eapply Permutation_in; [apply JsObjectFacts.entries_perm|exact Hin]. }
  rewrite G in E.
  destruct (rowsOf uid logs) as [|l rows] eqn:R; [discriminate|].
  injection E as <-. split; [|reflexivity].
  apply rowsOf_present. now rewrite R.
Qed.

(** In any zone and with any fuel: a result holds every owner's streak, and
    the fuel runs out only when it does for one owner's streak. *)
Lemma streakByUser_cases fuel logs now :
  forallb ownId logs = true ->
  match streakByUser fuel logs now with
  | Some (Normal r) =>
      (forall uid, In uid (map ActivityRow.user_id logs) ->
         streak fuel (rowsOf uid logs) now <> None)
      /\ forall uid,
           JsObject.get r uid
           = match rowsOf uid logs with
             | [] => None
             | rows => streak fuel rows now
             end
  | Some (Throw _) => False
  | None =>
      exists uid, In uid (map ActivityRow.user_id logs)
                  /\ streak fuel (rowsOf uid logs) now = None
  end.
Proof.
  intros O. unfold streakByUser.
  rewrite (activeDaysByUser_own logs O).
  destruct (ownActiveDays_spec logs) as [N G].
  pose proof (streakEach_cases fuel now
                (JsObject.entries (ownActiveDays logs)) []
                (JsObjectFacts.entries_NoDup _ N)) as C.
  destruct (streakEach LocalTZA fuel now
              (JsObject.entries (ownActiveDays logs)) []) as [r|];
    cbn [option_map].
  - destruct C as [A C]. split.
    + intros uid Hin. apply rowsOf_present in Hin.
      apply (A uid (activeDays (rowsOf uid logs))).
      eapply Permutation_in;
        [symmetry; apply JsObjectFacts.entries_perm|].
      apply JsObjectFacts.get_Some_In. rewrite G.
      destruct (rowsOf uid logs); [contradiction|reflexivity].
    + intros uid. rewrite C.
      rewrite JsObjectFacts.get_entries by exact N. rewrite G.
      destruct (rowsOf uid logs); reflexivity.
  - destruct C as (uid & days & Hin & E).
    apply entries_ownActiveDays in Hin as [Hin ->].
    exists uid. split; [exact Hin|exact E].
Qed.

(** What [streakByUser] holds for each owner, in a zone that keeps days. *)
Lemma streakByUser_lookup fuel logs now :
  keeps_days ->
  forallb ownId logs = true ->
  (List.length logs < fuel)%nat ->
  exists r, streakByUser fuel logs now = Some (Normal r)
    /\ forall uid,
         JsObject.get r uid
         = match rowsOf uid logs with
           | [] => None
           | rows => streak fuel rows now
           end.
Proof.
  intros K O Hf. pose proof (streakByUser_cases fuel logs now O) as C.
  destruct (streakByUser fuel logs now) as [[r|e]|]; [|contradiction|].
  - exists r. split; [reflexivity|apply C].
  - exfalso. destruct C as (uid & _ & E).
    destruct (streakOfDays_total LocalTZA K (activeDays (rowsOf uid logs)) now)
      as (s & _ & Hs).
    unfold streak in E. rewrite Hs in E; [discriminate|].
    destruct (activeDays_spec LocalTZA (rowsOf uid logs)) as (_ & _ & L).
    pose proof (rowsOf_length uid logs). lia.
Qed.

End ByUserFacts.

(** ** Streaks: the statements *)

Section StreakClaims.
Variable LocalTZA : Z -> bool -> Z.

#[local] Abbreviation dateKeyLocal := (dateKeyLocal LocalTZA).
#[local] Abbreviation streakOfDays := (streakOfDays LocalTZA).
#[local] Abbreviation activeDays := (activeDays LocalTZA).
#[local] Abbreviation streak := (streak LocalTZA).
#[local] Abbreviation streakByUser := (streakByUser LocalTZA).
#[local] Abbreviation activeAgo := (activeAgo LocalTZA).
#[local] Abbreviation localDay := (localDay LocalTZA).
#[local] Abbreviation keeps_days := (keeps_days LocalTZA).
#[local] Abbreviation loggedOn := (loggedOn LocalTZA).

(** C2 (amended). In a zone that keeps days, the counting loop starts at an
    instant of today when today is an active day and at an instant of
    yesterday otherwise, and runs from there. When today is not active but
    yesterday and the day before are, the streak is at least 2, exactly 2
    when the day three days back is not active, and more otherwise. *)
Theorem streak_grace_run (logs : list ActivityRow.row) (now : Z) (fuel : nat) :
  keeps_days ->
  let days := activeDays logs in
  (exists c,
     streak fuel logs now = countBack LocalTZA fuel days (Some c) 0
     /\ (activeAgo days now 0 = true -> localDay c = localDay now)
     /\ (activeAgo days now 0 = false -> localDay c = localDay now - 1))
  /\ (activeAgo days now 0 = false ->
      activeAgo days now 1 = true ->
      activeAgo days now 2 = true ->
      (List.length days < fuel)%nat ->
      exists s, streak fuel logs now = Some s
        /\ (2 <= s)%nat
        /\ (s = 2%nat <-> activeAgo days now 3 = false)).
Proof.
  intros K days. split.
  { destruct (streakOfDays_unfold LocalTZA K days now) as (c & D & U).
    exists c. split; [apply U|].
    unfold graceDay in D. split; intros A; now rewrite A in D. }
  intros H0 H1 H2 Hf.
  destruct (streakOfDays_run LocalTZA K days now)
    as (n & Hn & Hrun & Hgap & Hs).
  rewrite H0 in Hrun, Hgap.
  exists n. split; [apply Hs; lia|].
  assert (G : (2 <= n)%nat).
  { destruct n as [|[|n]]; cbn [Nat.add] in Hgap; [congruence|congruence|lia]. }
  split; [exact G|]. split.
  - intros ->. exact Hgap.
  - intros H3. destruct (Nat.eq_dec n 2) as [E|N]; [exact E|].
    assert (H : (2 < n)%nat) by lia. apply Hrun in H.
    cbn [Nat.add] in H. congruence.
Qed.

(** C9 (amended). In a zone that keeps days, with fuel beyond the number of
    rows the counting loop of [streak] leaves with a result, which is at
    most the number of distinct day keys of the rows, itself at most the
    number of rows; the loop leaves likewise for any set of keys; and
    [streakByUser] ends, with a result whose every streak is bounded in the
    same way, or with the error of its first loop. *)
Theorem streak_terminates_bounded
  (logs : list ActivityRow.row) (now : Z) (fuel : nat) :
  keeps_days ->
  (List.length logs < fuel)%nat ->
  (exists s, streak fuel logs now = Some s
     /\ (s <= List.length (activeDays logs))%nat)
  /\ NoDup (activeDays logs)
  /\ (forall k, In k (activeDays logs) <->
        exists l, In l logs /\ dateKeyLocal (ActivityRow.occurred_at l) = k)
  /\ (List.length (activeDays logs) <= List.length logs)%nat
  /\ (forall days : JsObject.StringSet,
        (List.length days < fuel)%nat ->
        exists s, streakOfDays fuel days now = Some s
                  /\ (s <= List.length days)%nat)
  /\ (exists c, streakByUser fuel logs now = Some c
        /\ forall r, c = Normal r ->
             forall uid s, JsObject.get r uid = Some s ->
               (s <= List.length (activeDays (rowsOf uid logs)))%nat
               /\ (List.length (activeDays (rowsOf uid logs))
                   <= List.length (rowsOf uid logs))%nat).
Proof.
  intros K Hf. destruct (activeDays_spec LocalTZA logs) as (N & I & L).
  split.
  { destruct (streakOfDays_total LocalTZA K (activeDays logs) now)
      as (s & Hs & Hr).
    exists s. split; [|exact Hs]. apply Hr. lia. }
  split; [exact N|]. split; [exact I|]. split; [exact L|]. split.
  { intros days Hd.
    destruct (streakOfDays_total LocalTZA K days now) as (s & Hs & Hr).
    exists s. split; [now apply Hr|exact Hs]. }
  destruct (forallb ownId logs) eqn:O.
  - destruct (streakByUser_lookup LocalTZA fuel logs now K O Hf)
      as (r & Hr & G).
    exists (Normal r). split; [exact Hr|]. intros r' [= <-] uid s Hs.
    rewrite G in Hs.
    destruct (rowsOf uid logs) as [|l rows] eqn:R; [discriminate|].
    destruct (activeDays_spec LocalTZA (l :: rows)) as (_ & _ & L').
    split; [|exact L'].
    destruct (streakOfDays_total LocalTZA K (activeDays (l :: rows)) now)
      as (s' & Hs' & Hr').
    pose proof (rowsOf_length uid logs) as LL. rewrite R in LL.
    unfold streak in Hs. rewrite Hr' in Hs by lia.
    injection Hs as <-. exact Hs'.
  - exists (Throw "TypeError"). split; [|discriminate].
    unfold streakByUser.
    now rewrite (activeDaysByUser_inherited LocalTZA logs O).
Qed.


End StreakClaims.

Section MinutesClaims.
Variable LocalTZA : Z -> bool -> Z.

#[local] Abbreviation dateKeyLocal := (dateKeyLocal LocalTZA).
#[local] Abbreviation activeDays := (activeDays LocalTZA).
#[local] Abbreviation activeDaysByUser := (activeDaysByUser LocalTZA).
#[local] Abbreviation ownActiveDays := (ownActiveDays LocalTZA).
#[local] Abbreviation streak := (streak LocalTZA).
#[local] Abbreviation streakByUser := (streakByUser LocalTZA).
#[local] Abbreviation addKeys := (addKeys LocalTZA).
#[local] Abbreviation activeStep := (activeStep LocalTZA).
#[local] Abbreviation localDay := (localDay LocalTZA).
#[local] Abbreviation keeps_days := (keeps_days LocalTZA).
#[local] Abbreviation loggedOn := (loggedOn LocalTZA).

Lemma activeDays_ext logs logs' :
  map ActivityRow.occurred_at logs = map ActivityRow.occurred_at logs' ->
  activeDays logs = activeDays logs'.
Proof.
  unfold activeDays. generalize (@nil string).
  revert logs'. induction logs as [|l logs IH]; intros [|l' logs'] acc E;
    try discriminate; [reflexivity|].
  cbn [map] in E. injection E as E1 E2.
  change (addKeys (JsObject.set_add acc
                     (dateKeyLocal (ActivityRow.occurred_at l))) logs
          = addKeys (JsObject.set_add acc
                       (dateKeyLocal (ActivityRow.occurred_at l'))) logs').
  rewrite E1. now apply IH.
Qed.

Lemma activeDaysByUser_ext logs logs' :
  map ActivityRow.occurred_at logs = map ActivityRow.occurred_at logs' ->
  map ActivityRow.user_id logs = map ActivityRow.user_id logs' ->
  activeDaysByUser logs = activeDaysByUser logs'.
Proof.
  unfold activeDaysByUser.
  generalize (@nil (string * JsObject.StringSet)).
  revert logs'. induction logs as [|l logs IH]; intros [|l' logs'] acc E U;
    try discriminate; [reflexivity|].
  cbn [map] in E, U. injection E as E1 E2. injection U as U1 U2.
  cbn [groupDays].
  assert (Hs : activeStep acc l = activeStep acc l')
    by (unfold activeStep; now rewrite E1, U1).
  rewrite Hs. destruct (activeStep acc l'); [now apply IH|reflexivity].
Qed.

(** C10. Whether a row makes its day active does not depend on its minutes:
    replacing a row by one with the same owner and instant changes no
    streak; the key of the row's day is in the set of active days of the
    profile page and, unless the dashboard's grouping ends in its error, in
    the set that the dashboard holds for the row's owner; a row of today
    makes both streaks positive; while a row whose minutes are null or 0
    counts for [+0] and leaves the counters of the week as they would be
    without it (the rows before it carrying no negative minutes). *)
Theorem active_day_ignores_minutes
  (logs1 logs2 : list ActivityRow.row) (l l' : ActivityRow.row)
  (now weekStartISO : Z) (fuel : nat) :
  ActivityRow.occurred_at l = ActivityRow.occurred_at l' ->
  ActivityRow.user_id l = ActivityRow.user_id l' ->
  ActivityRow.minutes l = None
    \/ ActivityRow.minutes l = Some (JsNumber.of_Z 0) ->
  Forall (fun r => JsNumber.sign_clear (minutes_or_zero r) = true) logs1 ->
  let logs := logs1 ++ l :: logs2 in
  let key := dateKeyLocal (ActivityRow.occurred_at l) in
  streak fuel logs now = streak fuel (logs1 ++ l' :: logs2) now
  /\ streakByUser fuel logs now = streakByUser fuel (logs1 ++ l' :: logs2) now
  /\ In key (activeDays logs)
  /\ In key (activeDays (rowsOf (ActivityRow.user_id l) logs))
  /\ ((exists active,
         activeDaysByUser logs = Normal active
         /\ In key (daysIn active (ActivityRow.user_id l)))
      \/ (activeDaysByUser logs = Throw "TypeError"
          /\ forallb ownId logs = false))
  /\ (forall t,
        ActivityRow.occurred_at l = Some t ->
        localDay t = localDay now ->
        keeps_days ->
        (List.length logs < fuel)%nat ->
        (exists s, streak fuel logs now = Some (S s))
        /\ (forallb ownId logs = true ->
            exists r s, streakByUser fuel logs now = Some (Normal r)
                        /\ JsObject.get r (ActivityRow.user_id l)
                           = Some (S s)))
  /\ minutes_or_zero l = JsNumber.of_Z 0
  /\ same_counters (weeklyTotals logs weekStartISO)
                   (weeklyTotals (logs1 ++ logs2) weekStartISO)
  /\ forall uid,
       same_counters
         (Summary.counts (summaryFor (weeklyLogs logs weekStartISO) uid))
         (Summary.counts
            (summaryFor (weeklyLogs (logs1 ++ logs2) weekStartISO) uid)).
Proof.
  intros EO EU EM F logs key.
  assert (MO : map ActivityRow.occurred_at logs
               = map ActivityRow.occurred_at (logs1 ++ l' :: logs2)).
  { unfold logs. rewrite !map_app. cbn [map]. now rewrite EO. }
  assert (MU : map ActivityRow.user_id logs
               = map ActivityRow.user_id (logs1 ++ l' :: logs2)).
  { unfold logs. rewrite !map_app. cbn [map]. now rewrite EU. }
  assert (Z0 : minutes_or_zero l = JsNumber.of_Z 0).
  { unfold minutes_or_zero. destruct EM as [-> | ->]; reflexivity. }
  assert (Hl : In l logs) by (unfold logs; apply in_or_app; right; now left).
  assert (Hm : In l (rowsOf (ActivityRow.user_id l) logs)).
  { apply filter_In. split; [exact Hl|]. unfold ownedBy.
    apply String.eqb_refl. }
  assert (Km : In key (activeDays (rowsOf (ActivityRow.user_id l) logs))).
  { apply (activeDays_spec LocalTZA). now exists l. }
  split.
  { unfold streak. now rewrite (activeDays_ext _ _ MO). }
  split.
  { unfold streakByUser.
    now rewrite (activeDaysByUser_ext _ _ MO MU). }
  split.
  { apply (activeDays_spec LocalTZA logs). now exists l. }
  split; [exact Km|]. split.
  { destruct (forallb ownId logs) eqn:O.
    - left. exists (ownActiveDays logs).
      split; [now apply activeDaysByUser_own|].
      destruct (ownActiveDays_spec LocalTZA logs) as [_ G].
      unfold daysIn. rewrite G.
      destruct (rowsOf (ActivityRow.user_id l) logs); [destruct Hm|exact Km].
    - right. split; [now apply activeDaysByUser_inherited|reflexivity]. }
  split.
  { intros t T D K Hf.
    assert (Today : forall rows, In l rows -> loggedOn rows (localDay now)).
    { intros rows Hr. exists l, t. split; [exact Hr|now split]. }
    destruct (streak_counts LocalTZA K logs now) as (s & _ & Hs & P & _).
    specialize (P (Today _ Hl)). split.
    { destruct s as [|s]; [lia|]. exists s. now apply Hs. }
    intros O.
    destruct (streakByUser_lookup LocalTZA fuel logs now K O Hf)
      as (r & Hr & G).
    destruct (streak_counts LocalTZA K
                (rowsOf (ActivityRow.user_id l) logs) now)
      as (s' & _ & Hs' & P' & _).
    specialize (P' (Today _ Hm)).
    destruct s' as [|s']; [lia|]. exists r, s'. split; [exact Hr|].
    rewrite G.
    pose proof (rowsOf_length (ActivityRow.user_id l) logs) as LL.
    destruct (rowsOf (ActivityRow.user_id l) logs) as [|x rows] eqn:R;
      [destruct Hm|].
    apply Hs'. lia. }
  split; [exact Z0|]. split.
  - rewrite !weeklyTotals_tallyAll.
    now apply CounterFacts.zero_row_counters.
  - intros uid. rewrite !summaryFor_counts. unfold rowsOf, weeklyLogs.
    rewrite !filter_filter.
    now apply CounterFacts.zero_row_counters.
Qed.

End MinutesClaims.

(** * Totals, summaries and the chart *)

(** C6. For rows that carry a valid instant, each total of the profile page
    is the sum of the minutes of exactly the rows of its category whose
    instant is at or after the week start (for [all], of all such rows, no
    category being named "all"), and the dashboard keeps exactly those
    rows: a row at the week start itself is in, a row before it is out, and
    there is no upper limit. *)
Theorem weekly_window_is_inclusive_lower_bound
  (logs : list ActivityRow.row) (weekStartISO : Z) :
  Forall (fun l => ActivityRow.occurred_at l <> None) logs ->
  (let t := weeklyTotals logs weekStartISO in
   let counted := filter (atOrAfter weekStartISO) logs in
   t = tallyAll Totals.empty counted
   /\ Totals.study t
      = addAll (JsNumber.of_Z 0) (filter (ofCategory "study") counted)
   /\ Totals.skill t
      = addAll (JsNumber.of_Z 0) (filter (ofCategory "skill") counted)
   /\ Totals.exercise t
      = addAll (JsNumber.of_Z 0) (filter (ofCategory "exercise") counted)
   /\ (Forall (fun l => ActivityRow.category l <> "all"%string) logs ->
       Totals.all t = addAll (JsNumber.of_Z 0) counted))
  /\ weeklyLogs logs weekStartISO = filter (atOrAfter weekStartISO) logs
  /\ (forall l t, In l logs -> ActivityRow.occurred_at l = Some t ->
        (In l (weeklyLogs logs weekStartISO) <-> weekStartISO <= t))
  /\ (forall l t, ActivityRow.occurred_at l = Some t ->
        (atOrAfter weekStartISO l = true <-> weekStartISO <= t)).
Proof.
  intros V.
  assert (E : forall l, In l logs ->
                notBefore weekStartISO l = atOrAfter weekStartISO l
                /\ num_ge (getTime (ActivityRow.occurred_at l))
                          (Some weekStartISO)
                   = atOrAfter weekStartISO l).
  { intros l Hl. rewrite Forall_forall in V. specialize (V l Hl).
    unfold atOrAfter.
    destruct (ActivityRow.occurred_at l) as [t|] eqn:T; [|contradiction].
    destruct (notBefore_valid weekStartISO l t T) as [A B].
    rewrite T in B. split; assumption. }
  assert (W : forall l t, ActivityRow.occurred_at l = Some t ->
                (atOrAfter weekStartISO l = true <-> weekStartISO <= t)).
  { intros l t T. unfold atOrAfter. rewrite T. apply Z.leb_le. }
  assert (L : weeklyLogs logs weekStartISO
              = filter (atOrAfter weekStartISO) logs).
  { unfold weeklyLogs. apply filter_ext_in. intros l Hl. apply (E l Hl). }
  split; [|split; [exact L|split; [|exact W]]].
  - intros t counted.
    assert (T : t = tallyAll Totals.empty counted).
    { unfold t, counted. rewrite weeklyTotals_tallyAll. f_equal.
      apply filter_ext_in. intros l Hl. apply (E l Hl). }
    split; [exact T|].
    rewrite T, TotalsFacts.tallyAll_study, TotalsFacts.tallyAll_skill,
      TotalsFacts.tallyAll_exercise.
    split; [reflexivity|]. split; [reflexivity|]. split; [reflexivity|].
    intros K. apply TotalsFacts.tallyAll_all. unfold counted.
    now apply WholeFacts.Forall_filter.
  - intros l t Hl T. rewrite L, filter_In, (W l t T). tauto.
Qed.


(** C4 (amended). For summaries whose values are finite and not negative,
    [maxBar] is the largest value of any category of any user, or 1 when no
    value reaches 1; every percentage is an integer between 0 and 100; and a
    value that is the largest of all is drawn at exactly 100 whenever it is
    at least 1. *)
Theorem chart_scaling (users : list Summary.summary) :
  Forall (fun v => JsNumber.finite_nonneg v = true) (allValues users) ->
  let max := maxBar users in
  JsNumber.le (JsNumber.of_Z 1) max = true
  /\ (forall v, In v (allValues users) -> JsNumber.le v max = true)
  /\ (max = JsNumber.of_Z 1 \/ In max (allValues users))
  /\ (forall v, In v (allValues users) ->
        JsNumber.integer_between 0 100 (pct v max))
  /\ (forall v, In v (allValues users) ->
        (forall w, In w (allValues users) -> JsNumber.le w v = true) ->
        JsNumber.le (JsNumber.of_Z 1) v = true ->
        pct v max = JsNumber.of_Z 100).
Proof.
  intros F max.
  destruct (ChartFacts.maxBar_spec users F) as (HM & L1 & LV & CM).
  fold max in HM, L1, LV, CM.
  assert (FV : forall v, In v (allValues users) ->
                         JsNumber.finite_nonneg v = true)
    by (now apply Forall_forall).
  split; [exact L1|]. split; [exact LV|]. split; [exact CM|]. split.
  - intros v Hv. apply ChartFacts.pct_bounded; auto.
  - intros v Hv Top Lv.
    assert (E : v = max).
    { apply Binary64Facts.le_antisym; auto.
      destruct CM as [->|CM]; [exact Lv|now apply Top]. }
    rewrite E. now apply ChartFacts.pct_of_max.
Qed.

(** C1 (amended). When every category is one of the three, every minutes
    value is absent or a non-negative integer, and the minutes of all rows
    together stay below 2^53, the totals of the profile page and every
    summary of the dashboard satisfy [all = study + skill + exercise]
    exactly. *)
Theorem totals_sum_invariant (logs : list ActivityRow.row) (weekStartISO : Z) :
  Forall (fun l => known (ActivityRow.category l)) logs ->
  Forall whole logs ->
  totalMinutes logs < 2 ^ 53 ->
  (let t := weeklyTotals logs weekStartISO in
   Totals.all t
   = JsNumber.add (JsNumber.add (Totals.study t) (Totals.skill t))
                  (Totals.exercise t))
  /\ forall u, In u (totalsByUser (weeklyLogs logs weekStartISO)) ->
       Summary.all u
       = JsNumber.add (JsNumber.add (Summary.study u) (Summary.skill u))
                      (Summary.exercise u).
Proof.
  intros K W B. split.
  - intros t. unfold t. rewrite weeklyTotals_tallyAll.
    apply WholeFacts.tallyAll_invariant.
    + now apply WholeFacts.Forall_filter.
    + now apply WholeFacts.Forall_filter.
    + pose proof (WholeFacts.totalMinutes_filter (notBefore weekStartISO) logs).
      lia.
  - intros u Hu. apply totalsByUser_In in Hu as [_ ->].
    unfold Summary.all, Summary.study, Summary.skill, Summary.exercise.
    rewrite summaryFor_counts. unfold rowsOf, weeklyLogs.
    apply WholeFacts.tallyAll_invariant.
    + now apply WholeFacts.Forall_filter, WholeFacts.Forall_filter.
    + now apply WholeFacts.Forall_filter, WholeFacts.Forall_filter.
    + match goal with
      | |- totalMinutes (filter ?q (filter ?p logs)) < _ =>
          pose proof (WholeFacts.totalMinutes_filter q (filter p logs));
          pose proof (WholeFacts.totalMinutes_filter p logs)
      end.
      lia.
Qed.

(** C3 (amended). A row whose category is none of the three (and no other
    property of the accumulator; the owner ids naming no inherited member)
    is not signalled: both aggregations return their totals, in which the
    row's minutes have entered [all] and none of [study], [skill] and
    [exercise], and which have gained a property named after the category
    that holds NaN. *)
Theorem unrecognized_category_is_not_signalled
  (logs : list ActivityRow.row) (weekStartISO : Z) :
  Forall (fun l => plain (ActivityRow.category l)) logs ->
  forallb ownId logs = true ->
  (let rows := filter (notBefore weekStartISO) logs in
   let t := weeklyTotals logs weekStartISO in
   Totals.study t
   = addAll (JsNumber.of_Z 0) (filter (ofCategory "study") rows)
   /\ Totals.skill t
      = addAll (JsNumber.of_Z 0) (filter (ofCategory "skill") rows)
   /\ Totals.exercise t
      = addAll (JsNumber.of_Z 0) (filter (ofCategory "exercise") rows)
   /\ Totals.all t = addAll (JsNumber.of_Z 0) rows
   /\ forall l, In l rows -> ~ known (ActivityRow.category l) ->
        JsObject.get (Totals.stray t) (ActivityRow.category l)
        = Some JsNumber.NaN)
  /\ forall u, In u (totalsByUser (weeklyLogs logs weekStartISO)) ->
       let mine := rowsOf (Summary.user_id u) (weeklyLogs logs weekStartISO) in
       Summary.study u
       = addAll (JsNumber.of_Z 0) (filter (ofCategory "study") mine)
       /\ Summary.skill u
          = addAll (JsNumber.of_Z 0) (filter (ofCategory "skill") mine)
       /\ Summary.exercise u
          = addAll (JsNumber.of_Z 0) (filter (ofCategory "exercise") mine)
       /\ Summary.all u = addAll (JsNumber.of_Z 0) mine
       /\ forall l, In l mine -> ~ known (ActivityRow.category l) ->
            JsObject.get (Totals.stray (Summary.counts u))
                         (ActivityRow.category l)
            = Some JsNumber.NaN.
Proof.
  intros P _.
  assert (A : forall p, Forall (fun l => ActivityRow.category l <> "all"%string)
                          (filter p logs)).
  { intros p. apply WholeFacts.Forall_filter.
    eapply Forall_impl; [|exact P]. intros l. apply plain_not_all. }
  split.
  - intros rows t. unfold t, rows. rewrite weeklyTotals_tallyAll.
    rewrite TotalsFacts.tallyAll_study, TotalsFacts.tallyAll_skill,
      TotalsFacts.tallyAll_exercise, TotalsFacts.tallyAll_all by apply A.
    split; [reflexivity|]. split; [reflexivity|]. split; [reflexivity|].
    split; [reflexivity|].
    intros l Hl Kl. apply StrayFacts.tallyAll_stray; try assumption.
    + exact StrayFacts.empty_stray_nan.
    + apply plain_not_all. rewrite Forall_forall in P. apply P.
      now apply filter_In in Hl.
  - intros u Hu mine. apply totalsByUser_In in Hu as [_ E].
    assert (Ec : Summary.counts u = tallyAll Totals.empty mine).
    { rewrite E at 1. apply summaryFor_counts. }
    unfold Summary.all, Summary.study, Summary.skill, Summary.exercise.
    rewrite Ec.
    rewrite TotalsFacts.tallyAll_study, TotalsFacts.tallyAll_skill,
      TotalsFacts.tallyAll_exercise.
    split; [reflexivity|]. split; [reflexivity|]. split; [reflexivity|].
    split.
    + apply TotalsFacts.tallyAll_all. unfold mine, rowsOf, weeklyLogs.
      apply WholeFacts.Forall_filter, A.
    + intros l Hl Kl. apply StrayFacts.tallyAll_stray; try assumption.
      * exact StrayFacts.empty_stray_nan.
      * apply plain_not_all. rewrite Forall_forall in P. apply P.
        unfold mine, rowsOf, weeklyLogs in Hl.
        apply filter_In in Hl as [Hl _]. now apply filter_In in Hl.
Qed.

(** * The statements at sample rows *)

Ltac each_row tac := repeat (apply Forall_cons; [tac|]); apply Forall_nil.
Ltac known_category := cbv; auto.
Ltac plain_category :=
  let H := fresh in
  intros H; cbv in H;
  repeat (destruct H as [H|H]; [discriminate H|]); exact H.

(** ** The sample zones *)

Lemma sample_zone_fixed : fixed_offset Sample.zone Sample.tz.
Proof. intros t isUTC. reflexivity. Qed.

Lemma sample_zone_keeps_days : keeps_days Sample.zone.
Proof. exact (fixed_keeps_days Sample.zone Sample.tz sample_zone_fixed). Qed.

Lemma sample_zone_in_order : days_in_order Sample.zone.
Proof. exact (fixed_days_in_order Sample.zone Sample.tz sample_zone_fixed). Qed.

Lemma sample_zone_days_begin : days_begin_at_midnight Sample.zone.
Proof. exact (fixed_days_begin Sample.zone Sample.tz sample_zone_fixed). Qed.

(** New York keeps days: the hour that its clocks skip, from 02:00 to 03:00
    on 10 March, is read as the hour from 03:00 to 04:00 of the same day,
    and every other local time exists. *)
Lemma new_york_keeps_days : keeps_days MoreSamples.new_york_2024.
Proof.
  intros tl. unfold LocalTime, UTC, MoreSamples.new_york_2024. cbv zeta.
  change (Sample.utc 2024 2 10 7 0) with 1710054000000.
  change (Sample.utc 2024 10 3 6 0) with 1730613600000.
  unfold EsDate.Day, EsDate.msPerDay.
  destruct (Z.ltb_spec tl (1710054000000 - 14400000)).
  - destruct (Z.ltb_spec (tl - -18000000) 1710054000000).
    + f_equal. lia.
    + destruct (Z.ltb_spec (tl - -18000000) 1730613600000); [|lia].
      Z.to_euclidean_division_equations; lia.
  - destruct (Z.ltb_spec tl (1730613600000 - 14400000)).
    + destruct (Z.ltb_spec (tl - -14400000) 1710054000000); [lia|].
      destruct (Z.ltb_spec (tl - -14400000) 1730613600000); [|lia].
      f_equal. lia.
    + destruct (Z.ltb_spec (tl - -18000000) 1710054000000); [lia|].
      destruct (Z.ltb_spec (tl - -18000000) 1730613600000); [lia|].
      f_equal. lia.
Qed.

(** The zone that skipped a day does not keep days: midnight of the skipped
    Friday is read as an instant of the Saturday. *)
Lemma skips_a_day_loses_a_day : ~ keeps_days MoreSamples.skips_a_day.
Proof.
  intros K. specialize (K (EsDate.MakeDate (EsDate.MakeDay 2011 11 30) 0)).
  vm_compute in K. discriminate K.
Qed.

(** ** The statements *)

Lemma totals_sum_invariant_witness :
  Forall (fun l => known (ActivityRow.category l)) Sample.both_owners
  /\ Forall whole Sample.both_owners
  /\ totalMinutes Sample.both_owners < 2 ^ 53
  /\ (let t := weeklyTotals Sample.both_owners Sample.monday in
      Totals.all t
      = JsNumber.add (JsNumber.add (Totals.study t) (Totals.skill t))
                     (Totals.exercise t)).
Proof.
  assert (K : Forall (fun l => known (ActivityRow.category l))
                Sample.both_owners) by each_row known_category.
  assert (W : Forall whole Sample.both_owners)
    by each_row ltac:(vm_compute; reflexivity).
  assert (B : totalMinutes Sample.both_owners < 2 ^ 53)
    by (vm_compute; reflexivity).
  split; [exact K|]. split; [exact W|]. split; [exact B|].
  exact (proj1 (totals_sum_invariant Sample.both_owners Sample.monday K W B)).
Defined.

(** With minutes 0.2, 0.3 and 0.1, [all] is 0.6 and the sum of the three
    counters is 0.6000000000000001. *)
Lemma sum_invariant_fails_on_fractions :
  Forall (fun l => known (ActivityRow.category l)) Sample.fractions
  /\ Forall (fun l => JsNumber.finite_nonneg (minutes_or_zero l) = true)
       Sample.fractions
  /\ (let t := weeklyTotals Sample.fractions Sample.monday in
      JsNumber.strict_eq
        (Totals.all t)
        (JsNumber.add (JsNumber.add (Totals.study t) (Totals.skill t))
                      (Totals.exercise t)) = false
      /\ Totals.all t
         <> JsNumber.add (JsNumber.add (Totals.study t) (Totals.skill t))
                         (Totals.exercise t))
  /\ exists u, In u (totalsByUser (weeklyLogs Sample.fractions Sample.monday))
       /\ Summary.all u
          <> JsNumber.add (JsNumber.add (Summary.study u) (Summary.skill u))
                          (Summary.exercise u).
Proof.
  split; [each_row known_category|].
  split; [each_row ltac:(vm_compute; reflexivity)|].
  split; [split|].
  - vm_compute. reflexivity.
  - intros H. vm_compute in H. discriminate H.
  - eexists. split; [left; reflexivity|].
    intros H. vm_compute in H. discriminate H.
Qed.

(** New York, Monday 11 March 2024, the day after the clocks went forward:
    rows on the Sunday, a day of 23 hours, and on the Saturday, none on the
    Monday. The streak is 2. *)
Lemma streak_grace_run_witness :
  keeps_days MoreSamples.new_york_2024
  /\ streak MoreSamples.new_york_2024 10 MoreSamples.across_the_change
       MoreSamples.march_monday = Some 2%nat.
Proof.
  split; [exact new_york_keeps_days|].
  destruct (streak_grace_run MoreSamples.new_york_2024
              MoreSamples.across_the_change MoreSamples.march_monday 10
              new_york_keeps_days)
    as (_ & G).
  destruct G as (s & E & _ & I).
  - vm_compute. reflexivity.
  - vm_compute. reflexivity.
  - vm_compute. reflexivity.
  - vm_compute. lia.
  - rewrite E. f_equal. apply I. vm_compute. reflexivity.
Defined.

(** Tuesday, Monday and Sunday active, Wednesday not: the streak is 3. And
    in the zone that skipped Friday 30 December 2011, with rows on the
    Saturday and on the Thursday, the days before Sunday 1 January in that
    calendar, and none on the Sunday: the loop does not end. *)
Lemma streak_grace_longer_run :
  (let days := activeDays Sample.zone Sample.three_days in
   activeAgo Sample.zone days Sample.now 0 = false
   /\ activeAgo Sample.zone days Sample.now 1 = true
   /\ activeAgo Sample.zone days Sample.now 2 = true
   /\ streak Sample.zone 10 Sample.three_days Sample.now = Some 3%nat
   /\ streak Sample.zone 10 Sample.three_days Sample.now <> Some 2%nat)
  /\ (let rows := [MoreSamples.saturday_row; MoreSamples.thursday_row] in
      activeDays MoreSamples.skips_a_day rows
      = ["2011-12-31"; "2011-12-29"]%string
      /\ dateKeyLocal MoreSamples.skips_a_day (Some MoreSamples.that_sunday)
         = "2012-01-01"%string
      /\ diverges
           (fun fuel =>
              streak MoreSamples.skips_a_day fuel rows
                MoreSamples.that_sunday)).
Proof.
  split; [vm_compute; repeat split; discriminate|].
  intros rows. split; [vm_compute; reflexivity|].
  split; [vm_compute; reflexivity|].
  intros fuel. unfold streak.
  apply (stalled_loop MoreSamples.skips_a_day _ _ 1325239200000);
    vm_compute; reflexivity.
Qed.

Lemma unrecognized_category_witness :
  Forall (fun l => plain (ActivityRow.category l)) Sample.reading
  /\ forallb ownId Sample.reading = true
  /\ Totals.all (weeklyTotals Sample.reading Sample.monday)
     = addAll (JsNumber.of_Z 0)
         (filter (notBefore Sample.monday) Sample.reading)
  /\ JsObject.get (Totals.stray (weeklyTotals Sample.reading Sample.monday))
       "reading" = Some JsNumber.NaN.
Proof.
  assert (P : Forall (fun l => plain (ActivityRow.category l)) Sample.reading)
    by each_row plain_category.
  destruct (unrecognized_category_is_not_signalled
              Sample.reading Sample.monday P eq_refl) as (T & _).
  split; [exact P|]. split; [reflexivity|]. split; [apply T|].
  destruct T as (_ & _ & _ & _ & T).
  apply (T (Sample.entry "ana" "reading" (Sample.whole_minutes 5)
              (Sample.utc 2024 4 14 4 0))).
  - vm_compute. left. reflexivity.
  - intros [H|[H|H]]; discriminate H.
Defined.

(** A row of category "reading" with 5 minutes, beside 30 minutes of study,
    raises nothing: both aggregations return totals, with [all] at 35, the
    three counters at 30, 0 and 0, and a property "reading" that holds
    NaN. *)
Lemma unrecognized_category_completes :
  ~ known "reading"
  /\ (let t := weeklyTotals Sample.reading Sample.monday in
      Totals.all t = JsNumber.of_Z 35
      /\ Totals.study t = JsNumber.of_Z 30
      /\ Totals.skill t = JsNumber.of_Z 0
      /\ Totals.exercise t = JsNumber.of_Z 0
      /\ Totals.stray t = [("reading"%string, JsNumber.NaN)]
      /\ Totals.all t
         <> JsNumber.add (JsNumber.add (Totals.study t) (Totals.skill t))
                         (Totals.exercise t))
  /\ (let weekly := weeklyLogs Sample.reading Sample.monday in
      map Summary.all (totalsByUser weekly) = [JsNumber.of_Z 35]
      /\ map Summary.study (totalsByUser weekly) = [JsNumber.of_Z 30]
      /\ map Summary.skill (totalsByUser weekly) = [JsNumber.of_Z 0]
      /\ map Summary.exercise (totalsByUser weekly) = [JsNumber.of_Z 0]
      /\ map (fun u => Totals.stray (Summary.counts u)) (totalsByUser weekly)
         = [[("reading"%string, JsNumber.NaN)]]).
Proof.
  split.
  { intros [H|[H|H]]; discriminate H. }
  split.
  - vm_compute. repeat split. intros H. discriminate H.
  - vm_compute. repeat split.
Qed.

Lemma chart_scaling_witness :
  let users := totalsByUser Sample.both_owners in
  Forall (fun v => JsNumber.finite_nonneg v = true) (allValues users)
  /\ maxBar users = JsNumber.of_Z 45
  /\ pct (JsNumber.of_Z 45) (maxBar users) = JsNumber.of_Z 100
  /\ JsNumber.integer_between 0 100 (pct (JsNumber.of_Z 30) (maxBar users)).
Proof.
  intros users.
  assert (F : Forall (fun v => JsNumber.finite_nonneg v = true)
                (allValues users))
    by (vm_compute; repeat constructor).
  destruct (chart_scaling users F) as (_ & _ & _ & B & T).
  split; [exact F|]. split; [vm_compute; reflexivity|]. split.
  - apply T.
    + vm_compute. auto 10.
    + intros w Hw. vm_compute in Hw.
      repeat (destruct Hw as [<-|Hw]; [vm_compute; reflexivity|]).
      destruct Hw.
    + vm_compute. reflexivity.
  - apply B. vm_compute. auto 10.
Defined.

(** One row without minutes: the largest value is 0, [maxBar] is 1, and the
    bar of that value is drawn at 0. *)
Lemma chart_zero_maximum_not_100 :
  let users := totalsByUser Sample.no_minutes in
  let v := JsNumber.of_Z 0 in
  In v (allValues users)
  /\ (forall w, In w (allValues users) -> JsNumber.le w v = true)
  /\ maxBar users = JsNumber.of_Z 1
  /\ pct v (maxBar users) = JsNumber.of_Z 0
  /\ pct v (maxBar users) <> JsNumber.of_Z 100.
Proof.
  intros users v. split; [vm_compute; auto|]. split.
  - intros w Hw. vm_compute in Hw.
    repeat (destruct Hw as [<-|Hw]; [vm_compute; reflexivity|]).
    destruct Hw.
  - split; [vm_compute; reflexivity|]. split; [vm_compute; reflexivity|].
    intros H. vm_compute in H. discriminate H.
Qed.

(** New York, Sunday 3 November 2024, 23:30, at the end of a week of 169
    hours: the week started on Monday 28 October at 00:00 local time, which
    is 04:00 UTC. *)
Lemma startOfWeek_witness :
  keeps_days MoreSamples.new_york_2024
  /\ startOfWeekMondayLocal MoreSamples.new_york_2024
       (Some MoreSamples.long_sunday_night)
     = Some 1730088000000
  /\ 1730088000000 = Sample.utc 2024 9 28 4 0
  /\ EsDate.TimeWithinDay
       (LocalTime MoreSamples.new_york_2024 1730088000000) = 0
  /\ EsDate.WeekDay (LocalTime MoreSamples.new_york_2024 1730088000000) = 1
  /\ localDay MoreSamples.new_york_2024 1730088000000
     = localDay MoreSamples.new_york_2024 MoreSamples.long_sunday_night - 6.
Proof.
  split; [exact new_york_keeps_days|].
  destruct (startOfWeek_is_monday_midnight MoreSamples.new_york_2024
              MoreSamples.long_sunday_night new_york_keeps_days)
    as (r & E & _ & T & W & _ & _ & _ & S & _).
  { vm_compute. reflexivity. }
  assert (R : r = 1730088000000).
  { assert (C : startOfWeekMondayLocal MoreSamples.new_york_2024
                  (Some MoreSamples.long_sunday_night)
                = Some 1730088000000) by (vm_compute; reflexivity).
    congruence. }
  subst r. split; [exact E|]. split; [vm_compute; reflexivity|].
  split; [exact T|]. split; [exact W|]. apply S. vm_compute. reflexivity.
Defined.

(** In the zone whose clocks went forward at midnight of Monday 22 March
    2021, from Wednesday 24 March: the week start is the first instant of
    that Monday, 01:00 local time, and its time of day is not zero. *)
Lemma startOfWeek_after_skipped_midnight :
  exists r,
    startOfWeekMondayLocal MoreSamples.spring_forward_at_midnight
      (Some MoreSamples.that_wednesday) = Some r
    /\ EsDate.WeekDay
         (LocalTime MoreSamples.spring_forward_at_midnight
            MoreSamples.that_wednesday) = 3
    /\ EsDate.WeekDay
         (LocalTime MoreSamples.spring_forward_at_midnight r) = 1
    /\ EsDate.TimeWithinDay
         (LocalTime MoreSamples.spring_forward_at_midnight r) = 3600000
    /\ EsDate.TimeWithinDay
         (LocalTime MoreSamples.spring_forward_at_midnight r) <> 0.
Proof.
  eexists. split; [vm_compute; reflexivity|].
  split; [vm_compute; reflexivity|]. split; [vm_compute; reflexivity|].
  split; [vm_compute; reflexivity|]. intros H. vm_compute in H. discriminate H.
Qed.

Lemma weekly_window_witness :
  Forall (fun l => ActivityRow.occurred_at l <> None) Sample.boundary
  /\ weeklyLogs Sample.boundary Sample.monday
     = filter (atOrAfter Sample.monday) Sample.boundary
  /\ map ActivityRow.category
       (filter (atOrAfter Sample.monday) Sample.boundary)
     = ["study"; "exercise"]%string
  /\ Totals.all (weeklyTotals Sample.boundary Sample.monday)
     = addAll (JsNumber.of_Z 0)
         (filter (atOrAfter Sample.monday) Sample.boundary)
  /\ Totals.all (weeklyTotals Sample.boundary Sample.monday)
     = JsNumber.of_Z 50.
Proof.
  assert (V : Forall (fun l => ActivityRow.occurred_at l <> None)
                Sample.boundary)
    by each_row ltac:(let H := fresh in intros H; cbv in H; discriminate H).
  destruct (weekly_window_is_inclusive_lower_bound
              Sample.boundary Sample.monday V) as (T & L & _).
  split; [exact V|]. split; [exact L|].
  split; [vm_compute; reflexivity|]. split.
  - apply T. each_row ltac:(let H := fresh in intros H; cbv in H; discriminate H).
  - vm_compute. reflexivity.
Defined.





Lemma streak_terminates_witness :
  keeps_days Sample.zone
  /\ (List.length Sample.both_owners < 10)%nat
  /\ exists s, streak Sample.zone 10 Sample.both_owners Sample.now = Some s
       /\ (s <= List.length (activeDays Sample.zone Sample.both_owners))%nat.
Proof.
  assert (L : (List.length Sample.both_owners < 10)%nat) by (simpl; lia).
  split; [exact sample_zone_keeps_days|]. split; [exact L|].
  exact (proj1 (streak_terminates_bounded
                  Sample.zone Sample.both_owners Sample.now 10
                  sample_zone_keeps_days L)).
Defined.

(** In the zone that skipped Friday 30 December 2011, on the Saturday, with
    a row of that Saturday: the day before the cursor is read as the
    Saturday again, and the loop does not end, whatever the fuel. *)
Lemma streak_loops_where_a_day_is_skipped :
  ~ keeps_days MoreSamples.skips_a_day
  /\ previousDay MoreSamples.skips_a_day
       (setHours MoreSamples.skips_a_day (Some MoreSamples.that_saturday)
          0 0 0 0)
     = setHours MoreSamples.skips_a_day (Some MoreSamples.that_saturday)
         0 0 0 0
  /\ diverges
       (fun fuel =>
          streak MoreSamples.skips_a_day fuel [MoreSamples.saturday_row]
            MoreSamples.that_saturday)
  /\ diverges
       (fun fuel =>
          streakByUser MoreSamples.skips_a_day fuel [MoreSamples.saturday_row]
            MoreSamples.that_saturday).
Proof.
  split; [exact skips_a_day_loses_a_day|].
  split; [vm_compute; reflexivity|].
  assert (D : forall fuel,
            streakOfDays MoreSamples.skips_a_day fuel
              (activeDays MoreSamples.skips_a_day [MoreSamples.saturday_row])
              MoreSamples.that_saturday = None).
  { apply (stalled_loop MoreSamples.skips_a_day _ _ 1325239200000);
      vm_compute; reflexivity. }
  split; [intros fuel; apply D|].
  intros fuel. unfold streakByUser.
  assert (A : activeDaysByUser MoreSamples.skips_a_day
                [MoreSamples.saturday_row]
              = Normal [("ana"%string,
                         activeDays MoreSamples.skips_a_day
                           [MoreSamples.saturday_row])])
    by (vm_compute; reflexivity).
  rewrite A.
  change (JsObject.entries
            [("ana"%string,
              activeDays MoreSamples.skips_a_day [MoreSamples.saturday_row])])
    with [("ana"%string,
           activeDays MoreSamples.skips_a_day [MoreSamples.saturday_row])].
  cbn [streakEach]. now rewrite D.
Qed.

Lemma active_day_witness :
  let logs := [Sample.tuesday_row] ++ Sample.today_row :: [Sample.monday_row] in
  let logs' :=
    [Sample.tuesday_row] ++ Sample.today_with_minutes :: [Sample.monday_row] in
  ActivityRow.minutes Sample.today_row = None
  /\ streak Sample.zone 10 logs Sample.now
     = streak Sample.zone 10 logs' Sample.now
  /\ streakByUser Sample.zone 10 logs Sample.now
     = streakByUser Sample.zone 10 logs' Sample.now
  /\ In (dateKeyLocal Sample.zone (ActivityRow.occurred_at Sample.today_row))
        (activeDays Sample.zone logs)
  /\ (exists s, streak Sample.zone 10 logs Sample.now = Some (S s))
  /\ (exists r s, streakByUser Sample.zone 10 logs Sample.now
                  = Some (Normal r)
                  /\ JsObject.get r "ben" = Some (S s))
  /\ same_counters
       (weeklyTotals logs Sample.monday)
       (weeklyTotals ([Sample.tuesday_row] ++ [Sample.monday_row])
                     Sample.monday).
Proof.
  intros logs logs'.
  destruct (active_day_ignores_minutes Sample.zone
              [Sample.tuesday_row] [Sample.monday_row]
              Sample.today_row Sample.today_with_minutes
              Sample.now Sample.monday 10)
    as (A & B & C & _ & _ & T & _ & D & _).
  - reflexivity.
  - reflexivity.
  - left. reflexivity.
  - each_row ltac:(vm_compute; reflexivity).
  - destruct (T (Sample.utc 2024 4 15 2 0) eq_refl) as [T1 T2].
    + vm_compute. reflexivity.
    + exact sample_zone_keeps_days.
    + simpl. lia.
    + split; [reflexivity|]. split; [exact A|]. split; [exact B|].
      split; [exact C|]. split; [exact T1|].
      split; [exact (T2 eq_refl)|exact D].
Defined.

(** * More of the pages *)

(** ** Streaks, in terms of the rows *)

Section StreakRows.
Variable LocalTZA : Z -> bool -> Z.

#[local] Abbreviation LocalTime := (LocalTime LocalTZA).
#[local] Abbreviation UTC := (UTC LocalTZA).
#[local] Abbreviation dateKeyLocal := (dateKeyLocal LocalTZA).
#[local] Abbreviation previousDay := (previousDay LocalTZA).
#[local] Abbreviation streakOfDays := (streakOfDays LocalTZA).
#[local] Abbreviation activeDays := (activeDays LocalTZA).
#[local] Abbreviation streak := (streak LocalTZA).
#[local] Abbreviation localDay := (localDay LocalTZA).
#[local] Abbreviation localMidnight := (localMidnight LocalTZA).
#[local] Abbreviation activeAgo := (activeAgo LocalTZA).
#[local] Abbreviation since := (since LocalTZA).
#[local] Abbreviation loggedOn := (loggedOn LocalTZA).
#[local] Abbreviation runUpTo := (runUpTo LocalTZA).
#[local] Abbreviation keeps_days := (keeps_days LocalTZA).
#[local] Abbreviation days_in_order := (days_in_order LocalTZA).
#[local] Abbreviation fixed_offset := (fixed_offset LocalTZA).

(** The loop reads the set only through [has], at keys of valid dates. *)
Lemma countBack_ext days days' :
  (forall t, JsObject.set_has days (dateKeyLocal (Some t))
             = JsObject.set_has days' (dateKeyLocal (Some t))) ->
  forall fuel t s,
    countBack LocalTZA fuel days (Some t) s
    = countBack LocalTZA fuel days' (Some t) s.
Proof.
  intros H. induction fuel as [|fuel IH]; intros t s; [reflexivity|].
  cbn [countBack]. rewrite (H t), !(previousDay_civil LocalTZA).
  destruct (JsObject.set_has days' (dateKeyLocal (Some t)));
    [apply IH|reflexivity].
Qed.

Lemma streakOfDays_ext days days' fuel now :
  (forall t, JsObject.set_has days (dateKeyLocal (Some t))
             = JsObject.set_has days' (dateKeyLocal (Some t))) ->
  streakOfDays fuel days now = streakOfDays fuel days' now.
Proof.
  intros H. rewrite !(streakOfDays_start LocalTZA).
  rewrite (H (localMidnight now)).
  destruct (JsObject.set_has days' (dateKeyLocal (Some (localMidnight now)))).
  - now apply countBack_ext.
  - rewrite (previousDay_civil LocalTZA). now apply countBack_ext.
Qed.

Lemma has_key_loggedOn logs t :
  JsObject.set_has (activeDays logs) (dateKeyLocal (Some t)) = true
  <-> loggedOn logs (localDay t).
Proof.
  rewrite (dateKeyLocal_dayKey LocalTZA). apply has_dayKey.
Qed.

Lemma runUpTo_unique logs d n m : runUpTo logs d n -> runUpTo logs d m -> n = m.
Proof.
  intros [Rn Gn] [Rm Gm].
  destruct (Nat.lt_trichotomy n m) as [L|[E|L]]; [|exact E|].
  - exfalso. apply Gn, Rm. lia.
  - exfalso. apply Gm, Rn. lia.
Qed.

Lemma streak_same_days logs logs' now fuel :
  (forall d, loggedOn logs d <-> loggedOn logs' d) ->
  streak fuel logs now = streak fuel logs' now.
Proof.
  intros H. unfold streak. apply streakOfDays_ext. intros t.
  destruct (JsObject.set_has (activeDays logs) (dateKeyLocal (Some t))) eqn:A,
    (JsObject.set_has (activeDays logs') (dateKeyLocal (Some t))) eqn:B;
    try reflexivity.
  - apply has_key_loggedOn, H, has_key_loggedOn in A. congruence.
  - apply has_key_loggedOn, H, has_key_loggedOn in B. congruence.
Qed.

(** What [since] is, in any zone: the instant that the local time of
    [now], 120 days earlier, is read as. *)
Lemma since_civil now :
  since now = Some (UTC (LocalTime now - 120 * EsDate.msPerDay)).
Proof.
  unfold since.
  change (num_sub (getDate LocalTZA (Some now)) (Some 120))
    with (num_add (getDate LocalTZA (Some now)) (Some (-120))).
  rewrite (setDate_civil LocalTZA). do 2 f_equal; lia.
Qed.

Lemma since_fixed tza now :
  fixed_offset tza -> since now = Some (now - 120 * EsDate.msPerDay).
Proof.
  intros F. rewrite since_civil.
  rewrite (fixed_UTC LocalTZA tza F), (fixed_LocalTime LocalTZA tza F).
  f_equal. lia.
Qed.

(** *** In a zone that keeps days *)

Section KeepsDays.
Hypothesis K : keeps_days.

(** The run that the loop counts, in terms of the rows: it ends today when
    today is logged and yesterday otherwise. *)
Lemma streak_runUpTo logs now :
  exists n d,
    (n <= List.length logs)%nat
    /\ runUpTo logs d n
    /\ (loggedOn logs (localDay now) -> d = localDay now)
    /\ (~ loggedOn logs (localDay now) -> d = localDay now - 1)
    /\ forall fuel, (List.length logs < fuel)%nat ->
         streak fuel logs now = Some n.
Proof.
  destruct (streakOfDays_run LocalTZA K (activeDays logs) now)
    as (n & Hn & Hrun & Hgap & Hs).
  destruct (activeDays_spec LocalTZA logs) as (_ & _ & L).
  destruct (activeAgo (activeDays logs) now 0) eqn:A.
  - exists n, (localDay now). split; [lia|].
    apply (activeAgo_rows LocalTZA) in A. rewrite Z.sub_0_r in A.
    split; [|split; [reflexivity|split; [contradiction|]]].
    + split.
      * intros i Hi. specialize (Hrun (Z.to_nat i) ltac:(lia)).
        apply (activeAgo_rows LocalTZA) in Hrun.
        replace (localDay now - Z.of_nat (0 + Z.to_nat i))
          with (localDay now - i) in Hrun by lia.
        exact Hrun.
      * apply (activeAgo_not_loggedOn LocalTZA) in Hgap.
        now rewrite Nat.add_0_l in Hgap.
    + intros fuel Hf. apply Hs. lia.
  - exists n, (localDay now - 1). split; [lia|].
    apply (activeAgo_not_loggedOn LocalTZA) in A. rewrite Z.sub_0_r in A.
    split; [|split; [contradiction|split; [reflexivity|]]].
    + split.
      * intros i Hi. specialize (Hrun (Z.to_nat i) ltac:(lia)).
        apply (activeAgo_rows LocalTZA) in Hrun.
        replace (localDay now - Z.of_nat (1 + Z.to_nat i))
          with (localDay now - 1 - i) in Hrun by lia.
        exact Hrun.
      * apply (activeAgo_not_loggedOn LocalTZA) in Hgap.
        replace (localDay now - Z.of_nat (1 + n))
          with (localDay now - 1 - Z.of_nat n) in Hgap by lia.
        exact Hgap.
    + intros fuel Hf. apply Hs. lia.
Qed.

Lemma loggedOn_today_dec logs now :
  loggedOn logs (localDay now) \/ ~ loggedOn logs (localDay now).
Proof.
  destruct (activeAgo (activeDays logs) now 0) eqn:A.
  - left. apply (activeAgo_rows LocalTZA) in A. now rewrite Z.sub_0_r in A.
  - right. apply (activeAgo_not_loggedOn LocalTZA) in A.
    now rewrite Z.sub_0_r in A.
Qed.

Lemma runUpTo_le logs logs' d n m :
  (forall x, loggedOn logs x -> loggedOn logs' x) ->
  runUpTo logs d n -> runUpTo logs' d m -> (n <= m)%nat.
Proof.
  intros Sub [R _] [_ G].
  destruct (Nat.le_gt_cases n m) as [L|L]; [exact L|].
  exfalso. apply G, Sub, R. lia.
Qed.

End KeepsDays.

(** X1. The key of a date names its local calendar day: two valid dates
    have the same key exactly when they fall on the same local day, whatever
    the time of day; in a zone that keeps days, and so at any fixed offset,
    midnight of the day of a date has the key of that date; and the key of
    an invalid date, "NaN-NaN-NaN", is the key of no valid date. *)
Theorem dateKeyLocal_names_local_day :
  (forall t1 t2, dateKeyLocal (Some t1) = dateKeyLocal (Some t2)
                 <-> localDay t1 = localDay t2)
  /\ (keeps_days ->
      forall t, dateKeyLocal (Some (localMidnight t)) = dateKeyLocal (Some t))
  /\ (forall tza, fixed_offset tza ->
      forall t, dateKeyLocal (Some (localMidnight t)) = dateKeyLocal (Some t))
  /\ (forall t, dateKeyLocal (Some t) <> dateKeyLocal None)
  /\ dateKeyLocal None = "NaN-NaN-NaN"%string.
Proof.
  split; [apply (dateKeyLocal_day LocalTZA)|].
  split; [apply (dayKey_midnight LocalTZA)|].
  split.
  { intros tza F. apply (dayKey_midnight LocalTZA).
    exact (fixed_keeps_days LocalTZA tza F). }
  split; [apply (dateKeyLocal_invalid LocalTZA)|reflexivity].
Qed.

(** X2. In a zone that keeps days, [streak] returns the length of the run of
    consecutive logged local days that ends today when a row falls on today,
    and yesterday otherwise: it returns [n] exactly when those [n] days each
    hold a row and the day before them holds none. *)
Theorem streak_is_length_of_run
  (logs : list ActivityRow.row) (now : Z) (fuel n : nat) :
  keeps_days ->
  (List.length logs < fuel)%nat ->
  (loggedOn logs (localDay now) ->
     (streak fuel logs now = Some n <-> runUpTo logs (localDay now) n))
  /\ (~ loggedOn logs (localDay now) ->
        (streak fuel logs now = Some n
         <-> runUpTo logs (localDay now - 1) n)).
Proof.
  intros K Hf.
  destruct (streak_runUpTo K logs now) as (m & d & _ & R & T & Y & S).
  rewrite (S fuel Hf). split.
  - intros H. rewrite (T H) in R. split.
    + intros [= <-]. exact R.
    + intros R'. f_equal. exact (runUpTo_unique _ _ _ _ R R').
  - intros H. rewrite (Y H) in R. split.
    + intros [= <-]. exact R.
    + intros R'. f_equal. exact (runUpTo_unique _ _ _ _ R R').
Qed.

(** X3. In a zone that keeps days, the streak is 0 exactly when no row falls
    on today or on yesterday. *)
Theorem streak_zero_iff (logs : list ActivityRow.row) (now : Z) (fuel : nat) :
  keeps_days ->
  (List.length logs < fuel)%nat ->
  streak fuel logs now = Some 0%nat
  <-> ~ loggedOn logs (localDay now) /\ ~ loggedOn logs (localDay now - 1).
Proof.
  intros K Hf.
  destruct (streak_runUpTo K logs now) as (m & d & _ & [R G] & T & Y & S).
  rewrite (S fuel Hf). split.
  - intros [= ->]. cbn [Z.of_nat] in G. rewrite Z.sub_0_r in G.
    assert (N : ~ loggedOn logs (localDay now)).
    { intros H. apply G. now rewrite (T H). }
    split; [exact N|]. now rewrite <- (Y N).
  - intros [N1 N2]. f_equal. destruct m as [|m]; [reflexivity|].
    exfalso. rewrite (Y N1) in R. apply N2.
    specialize (R 0 ltac:(lia)). now rewrite Z.sub_0_r in R.
Qed.

(** X4. The streak depends on the rows only through the set of local days
    on which a row falls: lists with the same logged days give the same
    streak, whatever their order, repetitions, owners, categories and
    minutes. *)
Theorem streak_depends_on_logged_days
  (logs logs' : list ActivityRow.row) (now : Z) (fuel : nat) :
  (forall d, loggedOn logs d <-> loggedOn logs' d) ->
  streak fuel logs now = streak fuel logs' now.
Proof.
  intros Same. unfold streak. apply streakOfDays_ext.
  intros t. apply eq_true_iff_eq.
  rewrite !has_key_loggedOn. apply Same.
Qed.

(** X5. Rows whose date is invalid play no part in the streak. *)
Theorem streak_ignores_invalid_dates
  (logs : list ActivityRow.row) (now : Z) (fuel : nat) :
  streak fuel logs now = streak fuel (filter validDate logs) now.
Proof.
  apply streak_same_days. intros d. split.
  - intros (l & t & Hl & T & E). exists l, t. split; [|now split].
    apply filter_In. split; [exact Hl|]. unfold validDate. now rewrite T.
  - intros (l & t & Hl & T & E). exists l, t. split; [|now split].
    now apply filter_In in Hl.
Qed.

(** X6. [load] asks for the rows from [since] on, the instant that the
    local time of the load, 120 days earlier, is read as: at a fixed offset,
    120 days of 24 hours before the load. In a zone that keeps days and
    whose local days follow each other as instants do, when every dated row
    is at or after the instant [since] that a load at [loaded] computes,
    the streak read at [now] is at most 121 plus the number of local days
    from [loaded] to [now]: a longer run is cut by the window. *)
Theorem streak_bounded_by_lookback
  (logs : list ActivityRow.row) (loaded now : Z) (fuel : nat) :
  keeps_days ->
  days_in_order ->
  loaded <= now ->
  (forall l t s, In l logs -> ActivityRow.occurred_at l = Some t ->
                 since loaded = Some s -> s <= t) ->
  (List.length logs < fuel)%nat ->
  since loaded = Some (UTC (LocalTime loaded - 120 * EsDate.msPerDay))
  /\ (forall tza, fixed_offset tza ->
        since loaded = Some (loaded - 120 * EsDate.msPerDay))
  /\ (exists s0, since loaded = Some s0
                 /\ localDay s0 = localDay loaded - 120)
  /\ exists s, streak fuel logs now = Some s
       /\ Z.of_nat s <= 121 + (localDay now - localDay loaded).
Proof.
  intros K Ord Hl W Hf. split; [apply since_civil|].
  split; [intros tza F; now apply (since_fixed tza)|].
  assert (D0 : localDay (UTC (LocalTime loaded - 120 * EsDate.msPerDay))
               = localDay loaded - 120).
  { rewrite (localDay_UTC LocalTZA K).
    replace (LocalTime loaded - 120 * EsDate.msPerDay)
      with (LocalTime loaded + (-120) * EsDate.msPerDay) by lia.
    rewrite Day_shift. unfold localDay. lia. }
  split; [eexists; split; [apply since_civil|exact D0]|].
  destruct (streak_runUpTo K logs now) as (n & d & _ & [R G] & T & Y & S).
  exists n. split; [now apply S|].
  assert (D : localDay now - 1 <= d <= localDay now).
  { destruct (loggedOn_today_dec logs now) as [A|A].
    - rewrite (T A). lia.
    - rewrite (Y A). lia. }
  destruct n as [|n]; [pose proof (Ord _ _ Hl); lia|].
  destruct (R (Z.of_nat n) ltac:(lia)) as (l & t & Hin & Ht & E).
  pose proof (W l t _ Hin Ht (since_civil loaded)) as B.
  apply Ord in B. rewrite D0 in B. lia.
Qed.

(** X7. In a zone that keeps days, more logged days never shorten the
    streak: when every day logged
    in one list is logged in the other, the streak of the other is at least
    as long. Removing rows can therefore only shorten it. *)
Theorem streak_monotone
  (logs logs' : list ActivityRow.row) (now : Z) (fuel : nat) :
  keeps_days ->
  (forall d, loggedOn logs d -> loggedOn logs' d) ->
  (List.length logs < fuel)%nat ->
  (List.length logs' < fuel)%nat ->
  exists s s',
    streak fuel logs now = Some s
    /\ streak fuel logs' now = Some s'
    /\ (s <= s')%nat.
Proof.
  intros K Sub Hf Hf'.
  destruct (streak_runUpTo K logs now) as (n & d & _ & R & T & Y & Hs).
  destruct (streak_runUpTo K logs' now) as (n' & d' & _ & R' & T' & Y' & Hs').
  exists n, n'. split; [now apply Hs|]. split; [now apply Hs'|].
  destruct (loggedOn_today_dec logs now) as [A|A].
  - rewrite (T A) in R. rewrite (T' (Sub _ A)) in R'.
    exact (runUpTo_le _ _ _ _ _ Sub R R').
  - rewrite (Y A) in R.
    destruct (loggedOn_today_dec logs' now) as [A'|A'].
    + rewrite (T' A') in R'. destruct R as [R _], R' as [_ G'].
      destruct (Nat.le_gt_cases n n') as [L|L]; [exact L|].
      exfalso. apply G'. destruct n' as [|k].
      * now rewrite Z.sub_0_r.
      * apply Sub.
        replace (localDay now - Z.of_nat (S k))
          with (localDay now - 1 - Z.of_nat k) by lia.
        apply R. lia.
    + rewrite (Y' A') in R'. exact (runUpTo_le _ _ _ _ _ Sub R R').
Qed.

(** X8. In a zone that keeps days, the first row of today raises the streak
    by exactly one day, and a further row of today leaves it as it is. *)
Theorem first_log_of_today_adds_one
  (logs : list ActivityRow.row) (l : ActivityRow.row) (t now : Z)
  (fuel : nat) :
  keeps_days ->
  ActivityRow.occurred_at l = Some t ->
  localDay t = localDay now ->
  (S (List.length logs) < fuel)%nat ->
  (~ loggedOn logs (localDay now) ->
     exists s, streak fuel logs now = Some s
               /\ streak fuel (l :: logs) now = Some (S s))
  /\ (loggedOn logs (localDay now) ->
        streak fuel (l :: logs) now = streak fuel logs now).
Proof.
  intros K Tl Dl Hf.
  assert (Here : loggedOn (l :: logs) (localDay now)).
  { exists l, t. split; [now left|now split]. }
  assert (Sub : forall d, loggedOn logs d -> loggedOn (l :: logs) d).
  { intros d (x & tx & Hx & Tx & Ex). exists x, tx.
    split; [now right|now split]. }
  assert (Back : forall d, loggedOn (l :: logs) d ->
                           d = localDay now \/ loggedOn logs d).
  { intros d (x & tx & [<-|Hx] & Tx & Ex).
    - left. rewrite Tl in Tx. injection Tx as <-. congruence.
    - right. exists x, tx. auto. }
  split.
  - intros A.
    destruct (streak_runUpTo K logs now) as (n & d & _ & [R G] & _ & Y & Hs).
    rewrite (Y A) in R, G.
    exists n. split; [apply Hs; lia|].
    destruct (streak_runUpTo K (l :: logs) now)
      as (n' & d' & _ & R' & T' & _ & Hs').
    rewrite (T' Here) in R'. rewrite Hs' by (simpl; lia). f_equal.
    apply (runUpTo_unique (l :: logs) (localDay now)); [exact R'|].
    split.
    + intros i Hi. destruct (Z.eq_dec i 0) as [->|Ni].
      * now rewrite Z.sub_0_r.
      * apply Sub.
        replace (localDay now - i) with (localDay now - 1 - (i - 1)) by lia.
        apply R. lia.
    + intros H. apply Back in H as [H|H]; [lia|].
      apply G.
      replace (localDay now - 1 - Z.of_nat n)
        with (localDay now - Z.of_nat (S n)) by lia.
      exact H.
  - intros A. apply streak_same_days. intros d. split.
    + intros H. apply Back in H as [->|H]; assumption.
    + apply Sub.
Qed.

End StreakRows.

(** ** The week *)

Section WeekFacts.
Variable LocalTZA : Z -> bool -> Z.

#[local] Abbreviation LocalTime := (LocalTime LocalTZA).
#[local] Abbreviation UTC := (UTC LocalTZA).
#[local] Abbreviation startOfWeekMondayLocal := (startOfWeekMondayLocal LocalTZA).
#[local] Abbreviation localDay := (localDay LocalTZA).
#[local] Abbreviation midnightOf := (midnightOf LocalTZA).
#[local] Abbreviation keeps_days := (keeps_days LocalTZA).
#[local] Abbreviation fixed_offset := (fixed_offset LocalTZA).
#[local] Abbreviation days_begin_at_midnight :=
  (days_begin_at_midnight LocalTZA).

(** In a zone that keeps days, two instants have the same week start
    exactly when their local days have the same Monday. *)
Lemma same_week_start now t :
  keeps_days ->
  startOfWeekMondayLocal (Some t) = startOfWeekMondayLocal (Some now)
  <-> mondayOf (localDay t) = mondayOf (localDay now).
Proof.
  intros K. rewrite !(startOfWeek_value LocalTZA K). split.
  - intros [= E]. apply (f_equal localDay) in E.
    now rewrite !(localDay_midnightOf LocalTZA K) in E.
  - intros ->. reflexivity.
Qed.

Lemma same_monday_iff d e :
  mondayOf e = mondayOf d <-> mondayOf d <= e < mondayOf d + 7.
Proof.
  pose proof (mondayOf_spec d) as (Wd & Bd & _).
  pose proof (mondayOf_spec e) as (We & Be & _).
  split.
  - intros E. lia.
  - intros B. now apply mondayOf_unique.
Qed.

(** X9. In a zone that keeps days, the week start is the same for every
    instant whose local day is one of the seven days from the Monday that
    opens the week, and for no other: in particular it is its own week
    start. At a fixed offset these are the instants of the 168 hours from
    the week start on. *)
Theorem startOfWeek_constant_over_week (now : Z) :
  keeps_days ->
  exists r,
    startOfWeekMondayLocal (Some now) = Some r
    /\ startOfWeekMondayLocal (Some r) = Some r
    /\ (forall t, startOfWeekMondayLocal (Some t) = Some r
                  <-> localDay r <= localDay t < localDay r + 7)
    /\ (forall tza, fixed_offset tza ->
        forall t, startOfWeekMondayLocal (Some t) = Some r
                  <-> r <= t < r + 7 * EsDate.msPerDay).
Proof.
  intros K. exists (midnightOf (mondayOf (localDay now))).
  pose proof (startOfWeek_value LocalTZA K now) as E.
  pose proof (localDay_midnightOf LocalTZA K (mondayOf (localDay now))) as D.
  assert (A : forall t,
            startOfWeekMondayLocal (Some t)
            = Some (midnightOf (mondayOf (localDay now)))
            <-> mondayOf (localDay now) <= localDay t
                < mondayOf (localDay now) + 7).
  { intros t. rewrite <- E, (same_week_start now t K).
    apply same_monday_iff. }
  split; [exact E|]. split; [|split].
  - apply A. rewrite D. lia.
  - intros t. rewrite D. apply A.
  - intros tza F t. rewrite (A t).
    pose proof (fixed_day_bounds LocalTZA tza F (mondayOf (localDay now)) t)
      as L.
    pose proof (fixed_day_end LocalTZA tza F
                  (mondayOf (localDay now) + 6) t) as U.
    rewrite (fixed_midnightOf LocalTZA tza F) in U.
    rewrite (fixed_midnightOf LocalTZA tza F) in L |- *.
    unfold EsDate.msPerDay in *. lia.
Qed.

(** X10. In a zone that keeps days and whose days begin at the instant
    their midnight is read as, the rows of the week, although the window
    compares instants, are those dated, in local time, on or after the
    Monday that opens it; a row written at [now] is always among them. *)
Theorem weeklyLogs_are_whole_local_days
  (logs : list ActivityRow.row) (now : Z) :
  keeps_days ->
  days_begin_at_midnight ->
  exists r,
    startOfWeekMondayLocal (Some now) = Some r
    /\ localDay r = mondayOf (localDay now)
    /\ (forall l, In l (weeklyLogs logs r)
          <-> In l logs
              /\ exists t, ActivityRow.occurred_at l = Some t
                           /\ localDay r <= localDay t)
    /\ (forall l, ActivityRow.occurred_at l = Some now ->
          In l logs -> In l (weeklyLogs logs r)).
Proof.
  intros K B. exists (midnightOf (mondayOf (localDay now))).
  set (M := mondayOf (localDay now)).
  pose proof (localDay_midnightOf LocalTZA K M) as D.
  split; [apply (startOfWeek_value LocalTZA K)|]. split; [exact D|].
  assert (I : forall l, In l (weeklyLogs logs (midnightOf M))
          <-> In l logs
              /\ exists t, ActivityRow.occurred_at l = Some t
                           /\ localDay (midnightOf M) <= localDay t).
  { intros l. unfold weeklyLogs. rewrite filter_In, D. split.
    - intros [Hl G]. split; [exact Hl|].
      destruct (ActivityRow.occurred_at l) as [t|] eqn:T; [|discriminate G].
      exists t. split; [reflexivity|]. apply B.
      cbn [getTime num_ge] in G. now apply Z.leb_le in G.
    - intros [Hl (t & T & G)]. split; [exact Hl|]. rewrite T.
      cbn [getTime num_ge]. apply Z.leb_le. now apply B. }
  split; [exact I|].
  intros l T Hl. apply I. split; [exact Hl|]. exists now.
  split; [exact T|]. rewrite D.
  pose proof (mondayOf_spec (localDay now)). unfold M. lia.
Qed.

End WeekFacts.

(** ** The two pages side by side, and the chart *)

Lemma rowsOf_weeklyLogs uid logs ws :
  Forall (fun l => ActivityRow.occurred_at l <> None) logs ->
  rowsOf uid (weeklyLogs logs ws) = filter (notBefore ws) (rowsOf uid logs).
Proof.
  intros V. unfold rowsOf, weeklyLogs. rewrite !filter_filter.
  apply filter_ext_in. intros l Hl.
  rewrite Forall_forall in V. specialize (V l Hl).
  destruct (ActivityRow.occurred_at l) as [t|] eqn:T; [|contradiction].
  destruct (notBefore_valid ws l t T) as [A B].
  rewrite T in B. rewrite A, B. apply andb_comm.
Qed.

(** X11. For rows with valid dates, the counters that the dashboard shows
    for an owner are the totals that the profile page computes from that
    owner's rows with the same week start. *)
Theorem dashboard_counts_are_profile_totals
  (logs : list ActivityRow.row) (weekStartISO : Z) (u : Summary.summary) :
  Forall (fun l => ActivityRow.occurred_at l <> None) logs ->
  Forall (fun l => plain (ActivityRow.category l)) logs ->
  In u (totalsByUser (weeklyLogs logs weekStartISO)) ->
  Summary.counts u
  = weeklyTotals (rowsOf (Summary.user_id u) logs) weekStartISO.
Proof.
  intros V _ Hu. apply totalsByUser_In in Hu as [_ E].
  rewrite E at 1. rewrite summaryFor_counts, weeklyTotals_tallyAll.
  now rewrite rowsOf_weeklyLogs.
Qed.

Lemma notBefore_cases ws l :
  notBefore ws l = negb (validDate l) || atOrAfter ws l.
Proof.
  unfold validDate, atOrAfter.
  destruct (ActivityRow.occurred_at l) as [t|] eqn:T.
  - now destruct (notBefore_valid ws l t T) as [-> _].
  - unfold notBefore. rewrite T. reflexivity.
Qed.

Lemma num_ge_cases ws l :
  num_ge (getTime (ActivityRow.occurred_at l)) (Some ws) = atOrAfter ws l.
Proof.
  unfold atOrAfter.
  destruct (ActivityRow.occurred_at l) as [t|] eqn:T; reflexivity.
Qed.

(** X12. A row whose date is invalid is counted by the totals of the
    profile page, which skips a row only when its instant is below the week
    start, and is dropped by the dashboard, which keeps a row only when its
    instant is at or above it: with categories among the three, each total
    of the former is the sum of the minutes of the rows that are invalid or
    in the window, and each overall total of the latter the sum of the
    minutes of the owner's rows in the window. *)
Theorem invalid_dates_divide_the_pages
  (logs : list ActivityRow.row) (weekStartISO : Z) :
  Forall (fun l => known (ActivityRow.category l)) logs ->
  (let counted :=
     filter (fun l => negb (validDate l) || atOrAfter weekStartISO l) logs in
   let t := weeklyTotals logs weekStartISO in
   Totals.study t
   = addAll (JsNumber.of_Z 0) (filter (ofCategory "study") counted)
   /\ Totals.skill t
      = addAll (JsNumber.of_Z 0) (filter (ofCategory "skill") counted)
   /\ Totals.exercise t
      = addAll (JsNumber.of_Z 0) (filter (ofCategory "exercise") counted)
   /\ Totals.all t = addAll (JsNumber.of_Z 0) counted)
  /\ weeklyLogs logs weekStartISO = filter (atOrAfter weekStartISO) logs
  /\ (forall l, In l logs -> validDate l = false ->
        ~ In l (weeklyLogs logs weekStartISO))
  /\ (forall u, In u (totalsByUser (weeklyLogs logs weekStartISO)) ->
        Summary.all u
        = addAll (JsNumber.of_Z 0)
            (rowsOf (Summary.user_id u)
                    (filter (atOrAfter weekStartISO) logs))).
Proof.
  intros K.
  assert (A : forall p, Forall (fun l => ActivityRow.category l <> "all"%string)
                          (filter p logs)).
  { intros p. apply WholeFacts.Forall_filter.
    eapply Forall_impl; [|exact K]. intros l. apply known_not_all. }
  assert (L : weeklyLogs logs weekStartISO
              = filter (atOrAfter weekStartISO) logs).
  { unfold weeklyLogs. apply filter_ext. intros l. apply num_ge_cases. }
  split; [|split; [exact L|split]].
  - intros counted t.
    assert (T : t = tallyAll Totals.empty counted).
    { unfold t, counted. rewrite weeklyTotals_tallyAll. f_equal.
      apply filter_ext. intros l. apply notBefore_cases. }
    rewrite T, TotalsFacts.tallyAll_study, TotalsFacts.tallyAll_skill,
      TotalsFacts.tallyAll_exercise.
    split; [reflexivity|]. split; [reflexivity|]. split; [reflexivity|].
    apply TotalsFacts.tallyAll_all. apply A.
  - intros l Hl V. rewrite L, filter_In.
    unfold atOrAfter, validDate in *.
    destruct (ActivityRow.occurred_at l); [discriminate V|].
    intros [_ C]. discriminate C.
  - intros u Hu. apply totalsByUser_In in Hu as [_ E].
    unfold Summary.all. rewrite E at 1. rewrite summaryFor_counts, L.
    apply TotalsFacts.tallyAll_all. unfold rowsOf.
    apply WholeFacts.Forall_filter, A.
Qed.

Lemma totalMinutes_perm rows rows' :
  Permutation rows rows' -> totalMinutes rows = totalMinutes rows'.
Proof.
  induction 1 as [|l a b P IH|l l' a|a b c P1 IH1 P2 IH2].
  - reflexivity.
  - rewrite !WholeFacts.totalMinutes_cons. lia.
  - rewrite !WholeFacts.totalMinutes_cons. lia.
  - lia.
Qed.

Lemma filter_perm {A} (p : A -> bool) (l l' : list A) :
  Permutation l l' -> Permutation (filter p l) (filter p l').
Proof.
  induction 1 as [|x a b P IH|x y a|a b c P1 IH1 P2 IH2].
  - constructor.
  - cbn [filter]. destruct (p x); [now constructor|exact IH].
  - cbn [filter]. destruct (p x), (p y); try reflexivity. constructor.
  - now transitivity (filter p b).
Qed.

(** With whole minutes each counter is the integer sum of its rows. *)
Lemma weeklyTotals_sums logs ws :
  Forall (fun l => known (ActivityRow.category l)) logs ->
  Forall whole logs ->
  totalMinutes logs < 2 ^ 53 ->
  let rows := filter (notBefore ws) logs in
  let t := weeklyTotals logs ws in
  Totals.study t
  = JsNumber.of_Z (totalMinutes (filter (ofCategory "study") rows))
  /\ Totals.skill t
     = JsNumber.of_Z (totalMinutes (filter (ofCategory "skill") rows))
  /\ Totals.exercise t
     = JsNumber.of_Z (totalMinutes (filter (ofCategory "exercise") rows))
  /\ Totals.all t = JsNumber.of_Z (totalMinutes rows).
Proof.
  intros K W B rows t. unfold t. rewrite weeklyTotals_tallyAll. fold rows.
  assert (Kr : Forall (fun l => known (ActivityRow.category l)) rows)
    by now apply WholeFacts.Forall_filter.
  assert (Wr : Forall whole rows) by now apply WholeFacts.Forall_filter.
  assert (Br : totalMinutes rows < 2 ^ 53).
  { pose proof (WholeFacts.totalMinutes_filter (notBefore ws) logs).
    fold rows in H. lia. }
  rewrite TotalsFacts.tallyAll_all
    by (eapply Forall_impl; [|exact Kr]; intros l; apply known_not_all).
  rewrite TotalsFacts.tallyAll_study, TotalsFacts.tallyAll_skill,
    TotalsFacts.tallyAll_exercise.
  cbn [Totals.empty Totals.study Totals.skill Totals.exercise Totals.all].
  pose proof (WholeFacts.totalMinutes_filter (ofCategory "study") rows).
  pose proof (WholeFacts.totalMinutes_filter (ofCategory "skill") rows).
  pose proof (WholeFacts.totalMinutes_filter (ofCategory "exercise") rows).
  rewrite !WholeFacts.addAll_whole
    by (try apply WholeFacts.Forall_filter; try assumption; lia).
  repeat split.
Qed.

(** X13. When the minutes are absent or non-negative integers (and their sum
    stays below 2^53), each counter of the week is the integer sum of the
    minutes of its rows, and the totals do not depend on the order of the
    rows. *)
Theorem weeklyTotals_integer_sums
  (logs : list ActivityRow.row) (weekStartISO : Z) :
  Forall (fun l => known (ActivityRow.category l)) logs ->
  Forall whole logs ->
  totalMinutes logs < 2 ^ 53 ->
  (let rows := filter (notBefore weekStartISO) logs in
   let t := weeklyTotals logs weekStartISO in
   Totals.study t
   = JsNumber.of_Z (totalMinutes (filter (ofCategory "study") rows))
   /\ Totals.skill t
      = JsNumber.of_Z (totalMinutes (filter (ofCategory "skill") rows))
   /\ Totals.exercise t
      = JsNumber.of_Z (totalMinutes (filter (ofCategory "exercise") rows))
   /\ Totals.all t = JsNumber.of_Z (totalMinutes rows))
  /\ forall logs', Permutation logs logs' ->
       same_counters (weeklyTotals logs weekStartISO)
                     (weeklyTotals logs' weekStartISO).
Proof.
  intros K W B. split; [now apply weeklyTotals_sums|].
  intros logs' P.
  assert (K' : Forall (fun l => known (ActivityRow.category l)) logs')
    by (eapply Permutation_Forall; eassumption).
  assert (W' : Forall whole logs')
    by (eapply Permutation_Forall; eassumption).
  assert (B' : totalMinutes logs' < 2 ^ 53)
    by (rewrite <- (totalMinutes_perm _ _ P); exact B).
  destruct (weeklyTotals_sums logs weekStartISO K W B) as (A1 & A2 & A3 & A4).
  destruct (weeklyTotals_sums logs' weekStartISO K' W' B')
    as (C1 & C2 & C3 & C4).
  assert (Q : forall p, totalMinutes (filter p (filter (notBefore weekStartISO) logs))
                = totalMinutes (filter p (filter (notBefore weekStartISO) logs')))
    by (intros p; now apply totalMinutes_perm, filter_perm, filter_perm).
  unfold same_counters. rewrite A1, A2, A3, A4, C1, C2, C3, C4, !Q.
  rewrite (totalMinutes_perm _ _ (filter_perm (notBefore weekStartISO) _ _ P)).
  repeat split.
Qed.

Lemma owners_nil rows : owners rows = [] <-> rows = [].
Proof.
  destruct (TotalsMapFacts.owners_spec rows) as [_ I]. split.
  - intros E. destruct rows as [|l rows]; [reflexivity|].
    exfalso. specialize (I (ActivityRow.user_id l)). rewrite E in I.
    apply I. now left.
  - intros ->. reflexivity.
Qed.

Lemma totalsByUser_length rows :
  List.length (totalsByUser rows) = List.length (summarized rows).
Proof.
  rewrite TotalsMapFacts.totalsByUser_tabulate, length_map.
  apply Permutation_length, TotalsMapFacts.keyOrder_perm.
Qed.

Lemma owners_length rows : (List.length (owners rows) <= List.length rows)%nat.
Proof.
  destruct (TotalsMapFacts.owners_spec rows) as [N I].
  rewrite <- (length_map ActivityRow.user_id rows).
  apply NoDup_incl_length; [exact N|]. intros uid. apply I.
Qed.

Lemma summarized_length rows :
  (List.length (summarized rows) <= List.length rows)%nat.
Proof.
  unfold summarized.
  pose proof (owners_length (filter ownId rows)).
  pose proof (filter_length_le ownId rows). lia.
Qed.

Lemma filter_none {A} (p : A -> bool) (l : list A) :
  (forall x, In x l -> p x = false) -> filter p l = [].
Proof.
  induction l as [|x l IH]; intros H; [reflexivity|].
  cbn [filter]. rewrite (H x (or_introl eq_refl)).
  apply IH. intros y Hy. apply H. now right.
Qed.

Lemma summarized_nil rows :
  summarized rows = [] <-> forall l, In l rows -> ownId l = false.
Proof.
  unfold summarized. rewrite owners_nil. split.
  - intros E l Hl. destruct (ownId l) eqn:O; [|reflexivity].
    exfalso. assert (J : In l (filter ownId rows)) by (apply filter_In; auto).
    rewrite E in J. exact J.
  - intros H. destruct (filter ownId rows) as [|l rest] eqn:F; [reflexivity|].
    exfalso. assert (J : In l (filter ownId rows)) by (rewrite F; now left).
    apply filter_In in J as [Hl O]. rewrite (H l Hl) in O. discriminate O.
Qed.

(** X14. With categories among the three, the dashboard reports an empty
    week exactly when no row that passes the window has an owner who gets a
    summary: when no owner id names an inherited member, exactly when no
    row passes the window. Otherwise it shows one card per such owner of
    the week, never more cards than rows. On the profile page a week that
    no row reaches has all four totals at 0. *)
Theorem totalsByUser_empty_iff (logs : list ActivityRow.row) (weekStartISO : Z) :
  Forall (fun l => known (ActivityRow.category l)) logs ->
  let weekly := weeklyLogs logs weekStartISO in
  (totalsByUser weekly = [] <-> forall l, In l weekly -> ownId l = false)
  /\ (forallb ownId weekly = true ->
      (totalsByUser weekly = [] <-> weekly = []))
  /\ (weekly = [] <->
      forall l, In l logs ->
        num_ge (getTime (ActivityRow.occurred_at l)) (Some weekStartISO)
        = false)
  /\ List.length (totalsByUser weekly) = List.length (summarized weekly)
  /\ (forallb ownId weekly = true ->
      List.length (totalsByUser weekly) = List.length (owners weekly))
  /\ (List.length (totalsByUser weekly) <= List.length weekly)%nat
  /\ ((forall l, In l logs -> notBefore weekStartISO l = false) ->
      weeklyTotals logs weekStartISO = Totals.empty).
Proof.
  intros _ weekly.
  assert (E0 : totalsByUser weekly = [] <-> summarized weekly = []).
  { rewrite <- !length_zero_iff_nil. now rewrite totalsByUser_length. }
  split; [|split; [|split; [|split; [|split; [|split]]]]].
  - rewrite E0. apply summarized_nil.
  - intros O. rewrite E0, (TotalsMapFacts.summarized_owners _ O).
    apply owners_nil.
  - unfold weekly, weeklyLogs. split.
    + intros E l Hl.
      destruct (num_ge (getTime (ActivityRow.occurred_at l))
                  (Some weekStartISO)) eqn:G; [|reflexivity].
      exfalso.
      assert (J : In l (filter
                 (fun l => num_ge (getTime (ActivityRow.occurred_at l))
                             (Some weekStartISO)) logs))
        by (apply filter_In; auto).
      rewrite E in J. exact J.
    + intros H.
      destruct (filter _ logs) as [|l rest] eqn:F; [reflexivity|].
      exfalso.
      assert (J : In l (filter
                 (fun l => num_ge (getTime (ActivityRow.occurred_at l))
                             (Some weekStartISO)) logs))
        by (rewrite F; now left).
      apply filter_In in J as [Hl G]. rewrite (H l Hl) in G. discriminate G.
  - apply totalsByUser_length.
  - intros O. rewrite totalsByUser_length.
    now rewrite (TotalsMapFacts.summarized_owners _ O).
  - rewrite totalsByUser_length. apply summarized_length.
  - intros H. rewrite weeklyTotals_tallyAll.
    now rewrite (filter_none _ _ H).
Qed.

Lemma chartStep_get_acc users : forall b,
  NoDup (map Summary.user_id users) ->
  (forall u, In u users ->
     JsObject.get (ChartData.study b) (Summary.user_id u) = None
     /\ JsObject.get (ChartData.skill b) (Summary.user_id u) = None
     /\ JsObject.get (ChartData.exercise b) (Summary.user_id u) = None) ->
  let r := fold_left chartStep users b in
  (forall u, In u users ->
     JsObject.get (ChartData.study r) (Summary.user_id u)
     = Some (Summary.study u)
     /\ JsObject.get (ChartData.skill r) (Summary.user_id u)
        = Some (Summary.skill u)
     /\ JsObject.get (ChartData.exercise r) (Summary.user_id u)
        = Some (Summary.exercise u))
  /\ (forall uid, ~ In uid (map Summary.user_id users) ->
        JsObject.get (ChartData.study r) uid
        = JsObject.get (ChartData.study b) uid
        /\ JsObject.get (ChartData.skill r) uid
           = JsObject.get (ChartData.skill b) uid
        /\ JsObject.get (ChartData.exercise r) uid
           = JsObject.get (ChartData.exercise b) uid).
Proof.
  induction users as [|v users IH]; intros b N F r.
  - split; [intros u []|]. intros uid _. repeat split.
  - inversion N as [|? ? Nv N']; subst.
    destruct (IH (chartStep b v) N') as [G O].
    { intros u Hu. cbn [chartStep ChartData.study ChartData.skill
                        ChartData.exercise].
      assert (D : Summary.user_id v <> Summary.user_id u).
      { intros E. apply Nv. rewrite E. now apply in_map. }
      rewrite !JsObjectFacts.get_set_other by exact D.
      apply F. now right. }
    split.
    + intros u [<-|Hu]; [|now apply G].
      destruct (O (Summary.user_id v) Nv) as (A & B & C).
      unfold r. cbn [fold_left]. rewrite A, B, C.
      cbn [chartStep ChartData.study ChartData.skill ChartData.exercise].
      rewrite !JsObjectFacts.get_set_same. repeat split.
    + intros uid Hn. cbn [map] in Hn.
      destruct (O uid ltac:(intros H; apply Hn; now right)) as (A & B & C).
      unfold r. cbn [fold_left]. rewrite A, B, C.
      cbn [chartStep ChartData.study ChartData.skill ChartData.exercise].
      rewrite !JsObjectFacts.get_set_other
        by (intros E; apply Hn; now left).
      repeat split.
Qed.

Lemma totalsByUser_ids rows :
  map Summary.user_id (totalsByUser rows) = keyOrder (summarized rows).
Proof.
  rewrite TotalsMapFacts.totalsByUser_tabulate, map_map.
  cbn [summaryFor Summary.user_id]. apply map_id.
Qed.

Lemma totalsByUser_NoDup rows : NoDup (map Summary.user_id (totalsByUser rows)).
Proof.
  rewrite totalsByUser_ids.
  pose proof (TotalsMapFacts.summarized_NoDup rows) as N.
  eapply Permutation_NoDup; [|exact N].
  symmetry. apply TotalsMapFacts.keyOrder_perm.
Qed.

(** X15. In the data of the chart, looking a user of the week up by id in a
    category gives that user's counter of the category, and an id that owns
    no row of the week is in none of the three tables. *)
Theorem chartData_lookup (weekly : list ActivityRow.row) :
  Forall (fun l => plain (ActivityRow.category l)) weekly ->
  let c := chartData (totalsByUser weekly) in
  ChartData.users c = totalsByUser weekly
  /\ (forall u, In u (ChartData.users c) ->
        JsObject.get (ChartData.study (ChartData.values c))
                     (Summary.user_id u) = Some (Summary.study u)
        /\ JsObject.get (ChartData.skill (ChartData.values c))
                        (Summary.user_id u) = Some (Summary.skill u)
        /\ JsObject.get (ChartData.exercise (ChartData.values c))
                        (Summary.user_id u) = Some (Summary.exercise u))
  /\ (forall uid, ~ In uid (map ActivityRow.user_id weekly) ->
        JsObject.get (ChartData.study (ChartData.values c)) uid = None
        /\ JsObject.get (ChartData.skill (ChartData.values c)) uid = None
        /\ JsObject.get (ChartData.exercise (ChartData.values c)) uid = None).
Proof.
  intros _ c. split; [reflexivity|].
  destruct (chartStep_get_acc (totalsByUser weekly)
              {| ChartData.study := []; ChartData.skill := [];
                 ChartData.exercise := [] |}
              (totalsByUser_NoDup weekly)) as [G O].
  { intros u _. repeat split. }
  split; [exact G|].
  intros uid Hn. apply (O uid). rewrite totalsByUser_ids. intros H.
  apply Hn.
  apply (Permutation_in _ (TotalsMapFacts.keyOrder_perm _)) in H.
  now apply TotalsMapFacts.summarized_spec in H.
Qed.

(** ** The streak on the cards *)

Section Cards.
Variable LocalTZA : Z -> bool -> Z.

#[local] Abbreviation streak := (streak LocalTZA).
#[local] Abbreviation streakByUser := (streakByUser LocalTZA).
#[local] Abbreviation activeDays := (activeDays LocalTZA).
#[local] Abbreviation keeps_days := (keeps_days LocalTZA).

Lemma rowsOf_nil uid logs :
  rowsOf uid logs = [] <-> ~ In uid (map ActivityRow.user_id logs).
Proof.
  pose proof (rowsOf_present uid logs) as P.
  destruct (rowsOf uid logs) as [|l rows].
  - split; [|reflexivity]. intros _ H. now apply P in H.
  - split; [discriminate|]. intros H. exfalso. apply H, P. discriminate.
Qed.

(** X16. In a zone that keeps days, when no owner id names an inherited
    member and the categories are none of the accumulator's other
    properties, [streakByUser] has an entry for exactly the owners of the
    loaded rows. Every card of the week therefore shows the streak of its
    owner's rows, never the fallback 0 of a missing entry, which is what an
    id without rows would get unless it names an inherited member. *)
Theorem cards_show_streak_of_owner
  (logs : list ActivityRow.row) (weekStartISO now : Z) (fuel : nat) :
  keeps_days ->
  forallb ownId logs = true ->
  Forall (fun l => plain (ActivityRow.category l)) logs ->
  (List.length logs < fuel)%nat ->
  exists r,
    streakByUser fuel logs now = Some (Normal r)
    /\ (forall uid, JsObject.get r uid <> None
                    <-> In uid (map ActivityRow.user_id logs))
    /\ (forall u, In u (totalsByUser (weeklyLogs logs weekStartISO)) ->
          exists s,
            streak fuel (rowsOf (Summary.user_id u) logs) now = Some s
            /\ JsObject.get r (Summary.user_id u) = Some s
            /\ shownStreak r (Summary.user_id u) = Some s)
    /\ (forall uid, ~ In uid (map ActivityRow.user_id logs) ->
          shownStreak r uid
          = if JsObject.inherits uid then None else Some 0%nat).
Proof.
  intros K O _ Hf.
  destruct (streakByUser_lookup LocalTZA fuel logs now K O Hf) as (r & Hr & G).
  assert (P : forall uid, In uid (map ActivityRow.user_id logs) ->
                exists s, streak fuel (rowsOf uid logs) now = Some s
                          /\ JsObject.get r uid = Some s).
  { intros uid Hin.
    destruct (streakOfDays_total LocalTZA K (activeDays (rowsOf uid logs)) now)
      as (s & _ & Hs).
    assert (Hs' : streak fuel (rowsOf uid logs) now = Some s).
    { apply Hs.
      destruct (activeDays_spec LocalTZA (rowsOf uid logs)) as (_ & _ & L).
      pose proof (rowsOf_length uid logs). lia. }
    exists s. split; [exact Hs'|]. rewrite G.
    destruct (rowsOf uid logs) eqn:R; [|exact Hs'].
    exfalso. now apply (rowsOf_nil uid logs). }
  exists r. split; [exact Hr|]. split; [|split].
  - intros uid. split.
    + intros H. destruct (in_dec string_dec uid (map ActivityRow.user_id logs))
        as [I|I]; [exact I|].
      exfalso. apply H. rewrite G. apply rowsOf_nil in I. now rewrite I.
    + intros I. destruct (P uid I) as (s & _ & E). congruence.
  - intros u Hu. apply totalsByUser_In in Hu as [Hin _].
    assert (I : In (Summary.user_id u) (map ActivityRow.user_id logs)).
    { apply in_map_iff in Hin as (l & E & Hl). apply in_map_iff.
      exists l. split; [exact E|]. unfold weeklyLogs in Hl.
      now apply filter_In in Hl. }
    destruct (P _ I) as (s & Hs & E). exists s.
    split; [exact Hs|]. split; [exact E|].
    unfold shownStreak, JsObject.lookup. now rewrite E.
  - intros uid I. unfold shownStreak, JsObject.lookup. rewrite G.
    apply rowsOf_nil in I. rewrite I.
    destruct (JsObject.inherits uid); reflexivity.
Qed.

End Cards.

(** ** Trimming *)

Module JsTextFacts.
Import JsText.

Lemma trimStart_split s :
  exists w, s = w ++ trimStart s /\ Forall (fun c => is_white_space c = true) w.
Proof.
  induction s as [|c s (w & E & F)]; [exists []; split; [reflexivity|constructor]|].
  cbn [trimStart]. destruct (is_white_space c) eqn:W.
  - exists (c :: w). split; [cbn; now rewrite <- E|now constructor].
  - exists []. split; [reflexivity|constructor].
Qed.

Lemma trimStart_head s c :
  hd_error (trimStart s) = Some c -> is_white_space c = false.
Proof.
  induction s as [|x s IH]; [discriminate|].
  cbn [trimStart]. destruct (is_white_space x) eqn:W; [exact IH|].
  intros [= <-]. exact W.
Qed.

Lemma trimEnd_split s :
  exists w, s = trimEnd s ++ w /\ Forall (fun c => is_white_space c = true) w.
Proof.
  destruct (trimStart_split (rev s)) as (w & E & F).
  exists (rev w). split.
  - unfold trimEnd. rewrite <- rev_app_distr, <- E. now rewrite rev_involutive.
  - now apply Forall_rev.
Qed.

Lemma trimEnd_last s c :
  hd_error (rev (trimEnd s)) = Some c -> is_white_space c = false.
Proof.
  unfold trimEnd. rewrite rev_involutive. apply trimStart_head.
Qed.

Lemma trimEnd_head s c :
  hd_error (trimEnd s) = Some c -> hd_error s = Some c.
Proof.
  destruct (trimEnd_split s) as (w & E & _). intros H.
  rewrite E. destruct (trimEnd s); [discriminate H|exact H].
Qed.

Lemma trim_split s :
  exists a b, s = a ++ trim s ++ b
    /\ Forall (fun c => is_white_space c = true) a
    /\ Forall (fun c => is_white_space c = true) b.
Proof.
  destruct (trimStart_split s) as (a & Ea & Fa).
  destruct (trimEnd_split (trimStart s)) as (b & Eb & Fb).
  exists a, b. split; [|now split].
  unfold trim. now rewrite <- Eb.
Qed.

Lemma trim_length s : length (trim s) <= length s.
Proof.
  destruct (trim_split s) as (a & b & E & _).
  unfold length. rewrite E at 2. rewrite !length_app. lia.
Qed.

Lemma trim_head s c : hd_error (trim s) = Some c -> is_white_space c = false.
Proof.
  intros H. apply trimEnd_head in H. now apply trimStart_head in H.
Qed.

Lemma trim_last s c :
  hd_error (rev (trim s)) = Some c -> is_white_space c = false.
Proof. apply trimEnd_last. Qed.

Lemma is_empty_length s : is_empty s = (length s =? 0).
Proof. destruct s; reflexivity. Qed.

Lemma trimStart_keep s :
  (forall c, hd_error s = Some c -> is_white_space c = false) ->
  trimStart s = s.
Proof.
  destruct s as [|c s]; [reflexivity|]. intros H. cbn [trimStart].
  now rewrite (H c eq_refl).
Qed.

Lemma trimEnd_keep s :
  (forall c, hd_error (rev s) = Some c -> is_white_space c = false) ->
  trimEnd s = s.
Proof.
  intros H. unfold trimEnd. rewrite trimStart_keep by exact H.
  apply rev_involutive.
Qed.

Lemma trim_idempotent s : trim (trim s) = trim s.
Proof.
  unfold trim at 1.
  rewrite (trimStart_keep (trim s)) by apply trim_head.
  apply trimEnd_keep, trim_last.
Qed.

End JsTextFacts.

Lemma tidy_trim limit text :
  JsText.is_empty (JsText.trim text) = false ->
  (JsText.length (JsText.trim text) >? limit) = false ->
  tidy limit (JsText.trim text).
Proof.
  intros E L. rewrite JsTextFacts.is_empty_length in E.
  apply Z.eqb_neq in E.
  assert (L' : JsText.length (JsText.trim text) <= limit).
  { destruct (Z.gtb_spec (JsText.length (JsText.trim text)) limit);
      [discriminate|assumption]. }
  unfold tidy. split; [unfold JsText.length in *; lia|].
  split; [apply JsTextFacts.trim_head|apply JsTextFacts.trim_last].
Qed.

(** X17. [createPost] inserts at most once, and only for a signed-in user
    the trimmed text, which then has between 1 and 280 code units and no
    white space at either end; it clears the draft and reloads only after
    an insert that reported no error. *)
Theorem createPost_inserts_tidy_content
  (text : JsText.text) (user error : option string) :
  let trace := createPost text user error in
  (forall uid content, In (InsertPost uid content) trace ->
     user = Some uid /\ content = JsText.trim text /\ tidy 280 content)
  /\ (forall t, In (SetText t) trace ->
        t = [] /\ error = None
        /\ exists uid, In (InsertPost uid (JsText.trim text)) trace)
  /\ (In Load trace -> In (SetText []) trace)
  /\ (List.length (filter (fun e => match e with
                                    | InsertPost _ _ => true
                                    | _ => false
                                    end) trace) <= 1)%nat.
Proof.
  cbv zeta. unfold createPost.
  destruct (JsText.is_empty (JsText.trim text)) eqn:E.
  { repeat split; try (intros; simpl in *; intuition discriminate).
    simpl. lia. }
  destruct (JsText.length (JsText.trim text) >? 280) eqn:L.
  { repeat split; try (intros; simpl in *; intuition discriminate).
    simpl. lia. }
  pose proof (tidy_trim 280 text E L) as T.
  destruct user as [uid|], error as [m|]; simpl;
    (split; [|split; [|split]]); try lia;
    try (intros; intuition discriminate).
  - intros u c [H|[H|[H|[H|[]]]]]; try discriminate H.
    injection H as <- <-. auto.
  - intros u c [H|[H|[H|[H|[H|[]]]]]]; try discriminate H.
    injection H as <- <-. auto.
  - intros t [H|[H|[H|[H|[H|[]]]]]]; try discriminate H.
    injection H as <-. split; [reflexivity|]. split; [reflexivity|].
    exists uid. auto.
Qed.

(** X18. [addComment] inserts at most once, and only for a signed-in user
    the trimmed text under the id of the post, which then has between 1 and
    500 code units and no white space at either end; it clears the draft
    and reloads only after an insert that reported no error. *)
Theorem addComment_inserts_tidy_content
  (postId : string) (text : JsText.text) (user error : option string) :
  let trace := addComment postId text user error in
  (forall pid uid content, In (InsertComment pid uid content) trace ->
     pid = postId /\ user = Some uid /\ content = JsText.trim text
     /\ tidy 500 content)
  /\ (forall t, In (SetText t) trace ->
        t = [] /\ error = None
        /\ exists uid, In (InsertComment postId uid (JsText.trim text)) trace)
  /\ (In Load trace -> In (SetText []) trace)
  /\ (List.length (filter (fun e => match e with
                                    | InsertComment _ _ _ => true
                                    | _ => false
                                    end) trace) <= 1)%nat.
Proof.
  cbv zeta. unfold addComment.
  destruct (JsText.is_empty (JsText.trim text)) eqn:E.
  { repeat split; try (intros; simpl in *; intuition discriminate).
    simpl. lia. }
  destruct (JsText.length (JsText.trim text) >? 500) eqn:L.
  { repeat split; try (intros; simpl in *; intuition discriminate).
    simpl. lia. }
  pose proof (tidy_trim 500 text E L) as T.
  destruct user as [uid|], error as [m|]; simpl;
    (split; [|split; [|split]]); try lia;
    try (intros; intuition discriminate).
  - intros p u c [H|[H|[H|[H|[]]]]]; try discriminate H.
    injection H as <- <- <-. auto.
  - intros p u c [H|[H|[H|[H|[H|[]]]]]]; try discriminate H.
    injection H as <- <- <-. auto.
  - intros t [H|[H|[H|[H|[H|[]]]]]]; try discriminate H.
    injection H as <-. split; [reflexivity|]. split; [reflexivity|].
    exists uid. auto.
Qed.

(** X19. When the button of a form is enabled, the handler's own checks
    pass: it goes on to ask for the user, and inserts the trimmed text when
    one is signed in. The buttons are stricter than the checks, since they
    measure the text before trimming: 280 letters followed by a space are
    refused by the button and accepted by [createPost]. *)
Theorem enabled_button_passes_checks (text : JsText.text) :
  (postDisabled text = false ->
     forall user error,
       In GetUser (createPost text user error)
       /\ forall uid, user = Some uid ->
            In (InsertPost uid (JsText.trim text))
               (createPost text user error))
  /\ (commentDisabled text = false ->
        forall postId user error,
          In GetUser (addComment postId text user error)
          /\ forall uid, user = Some uid ->
               In (InsertComment postId uid (JsText.trim text))
                  (addComment postId text user error))
  /\ (exists text', postDisabled text' = true
        /\ forall user error, In GetUser (createPost text' user error)).
Proof.
  pose proof (JsTextFacts.trim_length text) as TL.
  split; [|split].
  - unfold postDisabled. intros D user error.
    apply orb_false_iff in D as [D1 D2].
    unfold createPost. rewrite JsTextFacts.is_empty_length, D1.
    assert (L : (JsText.length (JsText.trim text) >? 280) = false).
    { destruct (Z.gtb_spec (JsText.length text) 280); [discriminate|].
      destruct (Z.gtb_spec (JsText.length (JsText.trim text)) 280);
        [lia|reflexivity]. }
    rewrite L. split; [simpl; auto|].
    intros uid ->. simpl. auto.
  - unfold commentDisabled. intros D postId user error.
    apply orb_false_iff in D as [D1 D2].
    unfold addComment. rewrite JsTextFacts.is_empty_length, D1.
    assert (L : (JsText.length (JsText.trim text) >? 500) = false).
    { destruct (Z.gtb_spec (JsText.length text) 500); [discriminate|].
      destruct (Z.gtb_spec (JsText.length (JsText.trim text)) 500);
        [lia|reflexivity]. }
    rewrite L. split; [simpl; auto|].
    intros uid ->. simpl. auto.
  - exists (repeat 97 280 ++ [32]). split; [vm_compute; reflexivity|].
    intros user error. unfold createPost.
    replace (JsText.trim (repeat 97 280 ++ [32])) with (repeat 97 280)
      by (vm_compute; reflexivity).
    change (JsText.is_empty (repeat 97 280)) with false.
    replace (JsText.length (repeat 97 280) >? 280) with false
      by (vm_compute; reflexivity).
    cbv iota. right. now left.
Qed.

(** X20. [createLog] inserts at most once, and only for a signed-in user.
    What it inserts carries that user and the chosen category; minutes that
    are null exactly when the field is blank and otherwise the finite
    number typed, which is not below zero; a title that is null or the
    trimmed, non-empty text; and a date only when one was typed, which is
    then valid. The form is cleared only after an insert that reported no
    error. *)
Theorem createLog_inserts_checked_values
  (Number : JsText.text -> JsNumber.number) (NewDate : JsText.text -> Date)
  (user : option string) (category : string)
  (minutes title occurredAt : JsText.text) (error : option string) :
  let trace := createLog Number NewDate user category minutes title
                         occurredAt error in
  (forall p, In (InsertLog p) trace ->
     user = Some (LogPayload.user_id p)
     /\ LogPayload.category p = category
     /\ (LogPayload.minutes p = None
         <-> JsText.is_empty (JsText.trim minutes) = true)
     /\ (forall n, LogPayload.minutes p = Some n ->
           n = Number minutes /\ Number_isFinite n = true
           /\ JsNumber.lt n (JsNumber.of_Z 0) = false)
     /\ (LogPayload.title p = None
         <-> JsText.is_empty (JsText.trim title) = true)
     /\ (forall s, LogPayload.title p = Some s ->
           s = JsText.trim title /\ JsText.is_empty s = false)
     /\ (LogPayload.occurred_at p = None
         <-> JsText.is_empty (JsText.trim occurredAt) = true)
     /\ (forall t, LogPayload.occurred_at p = Some t ->
           NewDate occurredAt = Some t))
  /\ ((In (SetTitle []) trace \/ In (SetOccurredAt []) trace \/ In Load trace)
      -> error = None /\ exists p, In (InsertLog p) trace)
  /\ (List.length (filter (fun e => match e with
                                    | InsertLog _ => true
                                    | _ => false
                                    end) trace) <= 1)%nat.
Proof.
  cbv zeta. unfold createLog.
  destruct user as [uid|];
    [|repeat split; try (intros; simpl in *; intuition discriminate);
      simpl; lia].
  assert (F : forall p,
    (exists n, LogPayload.minutes p = n
       /\ n = (if JsText.is_empty (JsText.trim minutes) then None
               else Some (Number minutes))
       /\ match n with
          | Some n => negb (Number_isFinite n)
                      || JsNumber.lt n (JsNumber.of_Z 0)
          | None => false
          end = false) ->
    (LogPayload.minutes p = None
     <-> JsText.is_empty (JsText.trim minutes) = true)
    /\ (forall n, LogPayload.minutes p = Some n ->
          n = Number minutes /\ Number_isFinite n = true
          /\ JsNumber.lt n (JsNumber.of_Z 0) = false)).
  { intros p (n & E & D & C). rewrite E, D.
    destruct (JsText.is_empty (JsText.trim minutes)).
    - split; [tauto|discriminate].
    - split; [split; discriminate|]. intros k [= <-].
      rewrite D in C. apply orb_false_iff in C as [C1 C2].
      apply negb_false_iff in C1. auto. }
  assert (G : forall p,
    LogPayload.title p
    = (if negb (JsText.is_empty (JsText.trim title))
       then Some (JsText.trim title) else None) ->
    (LogPayload.title p = None
     <-> JsText.is_empty (JsText.trim title) = true)
    /\ (forall s, LogPayload.title p = Some s ->
          s = JsText.trim title /\ JsText.is_empty s = false)).
  { intros p E. rewrite E.
    destruct (JsText.is_empty (JsText.trim title)) eqn:T; cbn [negb].
    - split; [tauto|discriminate].
    - split; [split; discriminate|]. intros s [= <-]. auto. }
  set (m := if JsText.is_empty (JsText.trim minutes) then None
            else Some (Number minutes)).
  destruct (match m with
            | Some n => negb (Number_isFinite n)
                        || JsNumber.lt n (JsNumber.of_Z 0)
            | None => false
            end) eqn:C.
  { repeat split; try (intros; simpl in *; intuition discriminate).
    simpl. lia. }
  destruct (JsText.is_empty (JsText.trim occurredAt)) eqn:O; cbn [negb].
  - unfold insertLog. split; [|split].
    + intros p Hp.
      assert (E : p = {| LogPayload.user_id := uid;
                         LogPayload.category := category;
                         LogPayload.title :=
                           if negb (JsText.is_empty (JsText.trim title))
                           then Some (JsText.trim title) else None;
                         LogPayload.minutes := m;
                         LogPayload.occurred_at := None |}).
      { destruct error; simpl in Hp;
          repeat (destruct Hp as [Hp|Hp]; [try discriminate Hp|]);
          try contradiction; now injection Hp. }
      destruct (F p) as [F1 F2].
      { exists m. rewrite E. cbn. auto. }
      destruct (G p) as [G1 G2]; [rewrite E; reflexivity|].
      split; [rewrite E; reflexivity|]. split; [rewrite E; reflexivity|].
      split; [exact F1|]. split; [exact F2|].
      split; [exact G1|]. split; [exact G2|].
      rewrite E. cbn [LogPayload.occurred_at].
      split; [tauto|discriminate].
    + destruct error as [msg|]; simpl.
      * intros [H|[H|H]]; intuition discriminate.
      * intros _. split; [reflexivity|]. eexists. right. right. now left.
    + destruct error; simpl; lia.
  - destruct (NewDate occurredAt) as [t|] eqn:D; cbn [getTime].
    2:{ repeat split; try (intros; simpl in *; intuition discriminate).
        simpl. lia. }
    unfold insertLog. cbn [LogPayload.user_id LogPayload.category
                           LogPayload.title LogPayload.minutes].
    split; [|split].
    + intros p Hp.
      assert (E : p = {| LogPayload.user_id := uid;
                         LogPayload.category := category;
                         LogPayload.title :=
                           if negb (JsText.is_empty (JsText.trim title))
                           then Some (JsText.trim title) else None;
                         LogPayload.minutes := m;
                         LogPayload.occurred_at := Some t |}).
      { destruct error; simpl in Hp;
          repeat (destruct Hp as [Hp|Hp]; [try discriminate Hp|]);
          try contradiction; now injection Hp. }
      destruct (F p) as [F1 F2].
      { exists m. rewrite E. cbn. auto. }
      destruct (G p) as [G1 G2]; [rewrite E; reflexivity|].
      split; [rewrite E; reflexivity|]. split; [rewrite E; reflexivity|].
      split; [exact F1|]. split; [exact F2|].
      split; [exact G1|]. split; [exact G2|].
      rewrite E. cbn [LogPayload.occurred_at].
      split; [split; discriminate|]. intros k [= <-]. reflexivity.
    + destruct error as [msg|]; simpl.
      * intros [H|[H|H]]; intuition discriminate.
      * intros _. split; [reflexivity|]. eexists. right. right. now left.
    + destruct error; simpl; lia.
Qed.

(** ** Loading *)

Section LoadFacts.
Variable LocalTZA : Z -> bool -> Z.
Variable ALLOWED_EMAILS : JsObject.StringSet.
Variable toLowerCase : string -> string.

#[local] Abbreviation loadActivity :=
  (loadActivity LocalTZA ALLOWED_EMAILS toLowerCase).
#[local] Abbreviation loadProfile :=
  (loadProfile LocalTZA ALLOWED_EMAILS toLowerCase).
#[local] Abbreviation loadFeed := (loadFeed ALLOWED_EMAILS toLowerCase).
#[local] Abbreviation loadPost := (loadPost ALLOWED_EMAILS toLowerCase).
#[local] Abbreviation admitted := (admitted ALLOWED_EMAILS toLowerCase).

Ltac requests_need H adm :=
  simpl in H;
  repeat (destruct H as [<-|H];
          [first [ intros Q; discriminate Q | intros _; exact adm ]|]);
  contradiction.

Ltac which_effect H :=
  simpl in H; repeat (destruct H as [H|H]; [try discriminate H|]);
  try contradiction.

Ltac find_effect := simpl; repeat (first [left; reflexivity | right]).

Lemma not_admitted_none : ~ admitted None.
Proof. intros (u & E & _). discriminate E. Qed.

Lemma admitted_some u :
  admitted (Some u)
  <-> JsObject.set_has ALLOWED_EMAILS (emailOf toLowerCase u) = true.
Proof.
  split.
  - intros (v & [= <-] & A). exact A.
  - intros A. exists u. auto.
Qed.

(** X21. The dashboard's [load] sends no request to the store, and sets no
    rows, unless [getUser] answered with a user whose address is in the
    allow-list; otherwise it ends by navigating to the login page, signing
    out first when there is a user. When it does ask for rows, it asks for
    those of everybody, at most 2000, from the instant on that the local
    time of now, 120 days earlier, is read as (at a fixed offset, 120 days
    of 24 hours before now), and it sets the rows it received, or none when
    the request failed. *)
Theorem loadActivity_is_gated
  (now : Z) (user : option AuthUser.user)
  (myProf : Response.response string)
  (fetched : Response.response (list ActivityRow.row)) :
  let trace := loadActivity now user myProf fetched in
  (forall e, In e trace -> asksStore e = true -> admitted user)
  /\ (forall rows, In (SetLogs rows) trace ->
        admitted user
        /\ rows = match Response.data fetched with
                  | Some rows => rows
                  | None => []
                  end)
  /\ (forall uid s k, In (QueryLogs uid s k) trace ->
        uid = None /\ k = 2000
        /\ s = Some (UTC LocalTZA
                       (LocalTime LocalTZA now - 120 * EsDate.msPerDay))
        /\ forall tza, fixed_offset LocalTZA tza ->
             s = Some (now - 120 * EsDate.msPerDay))
  /\ (admitted user ->
        In (SetLogs match Response.data fetched with
                    | Some rows => rows
                    | None => []
                    end) trace
        /\ last trace GetUser = SetLoading false)
  /\ (~ admitted user ->
        last trace GetUser = Push "/login"
        /\ (user <> None -> In SignOut trace)).
Proof.
  cbv zeta. unfold loadActivity.
  destruct user as [u|].
  2:{ pose proof not_admitted_none as N.
      split; [intros e H; requests_need H N|].
      split; [intros rows H; which_effect H|].
      split; [intros uid s k H; which_effect H|].
      split; [intros A; contradiction|].
      intros _. split; [reflexivity|]. intros C. now contradiction C. }
  cbv zeta.
  destruct (JsObject.set_has ALLOWED_EMAILS (emailOf toLowerCase u)) eqn:A;
    cbn [negb].
  - assert (Adm : admitted (Some u)) by now apply admitted_some.
    assert (SF : forall tza, fixed_offset LocalTZA tza ->
              Some (UTC LocalTZA
                      (LocalTime LocalTZA now - 120 * EsDate.msPerDay))
              = Some (now - 120 * EsDate.msPerDay)).
    { intros tza F. rewrite <- (since_civil LocalTZA).
      now apply (since_fixed LocalTZA tza). }
    rewrite (since_civil LocalTZA).
    destruct (Response.error myProf) as [m1|],
      (Response.error fetched) as [m2|];
      (split; [intros e H; requests_need H Adm|]);
      (split; [intros rows H; which_effect H; injection H as <-; auto|]);
      (split; [intros uid s k H; which_effect H;
               injection H as <- <- <-; auto|]);
      (split; [intros _; split; [find_effect|reflexivity]|]);
      intros C; contradiction.
  - assert (N : ~ admitted (Some u)).
    { intros C. apply admitted_some in C. congruence. }
    split; [intros e H; requests_need H N|].
    split; [intros rows H; which_effect H|].
    split; [intros uid s k H; which_effect H|].
    split; [intros C; contradiction|].
    intros _. split; [reflexivity|]. intros _. simpl. auto.
Qed.

(** X22. The profile page's [load] is gated in the same way. When the
    profile is found it asks for the posts and for the rows of that
    profile's owner only, at most 1000 rows, from the instant on that the
    local time of now, 120 days earlier, is read as (at a fixed offset, 120
    days of 24 hours before now); when the lookup fails or finds nobody it asks for neither and
    empties the posts and the rows, so that the totals and the streak of the
    page are those of no rows. *)
Theorem loadProfile_is_gated
  (now : Z) (uname : string) (user : option AuthUser.user)
  (prof : Response.response ProfileRow.row)
  (postData : Response.response (list PostRow.row))
  (logData : Response.response (list ActivityRow.row))
  (notFound : string) :
  let trace := loadProfile now uname user prof postData logData notFound in
  let found :=
    match Response.error prof, Response.data prof with
    | None, Some p => Some p
    | _, _ => None
    end in
  (forall e, In e trace -> asksStore e = true -> admitted user)
  /\ (forall uid s k, In (QueryLogs uid s k) trace ->
        exists p, found = Some p /\ uid = Some (ProfileRow.id p)
                  /\ k = 1000
                  /\ s = Some (UTC LocalTZA
                                 (LocalTime LocalTZA now
                                  - 120 * EsDate.msPerDay))
                  /\ forall tza, fixed_offset LocalTZA tza ->
                       s = Some (now - 120 * EsDate.msPerDay))
  /\ (forall uid k, In (QueryPosts uid k) trace ->
        exists p, found = Some p /\ uid = Some (ProfileRow.id p) /\ k = 50)
  /\ (forall rows, In (SetLogs rows) trace ->
        admitted user
        /\ rows = match found, Response.data logData with
                  | Some _, Some rows => rows
                  | _, _ => []
                  end)
  /\ (admitted user ->
        In (SetProfile found) trace
        /\ last trace GetUser = SetLoading false)
  /\ (~ admitted user -> last trace GetUser = Push "/login").
Proof.
  cbv zeta. unfold loadProfile.
  destruct user as [u|].
  2:{ pose proof not_admitted_none as N.
      split; [intros e H; requests_need H N|].
      split; [intros uid s k H; which_effect H|].
      split; [intros uid k H; which_effect H|].
      split; [intros rows H; which_effect H|].
      split; [intros A; contradiction|].
      intros _. reflexivity. }
  cbv zeta.
  destruct (JsObject.set_has ALLOWED_EMAILS (emailOf toLowerCase u)) eqn:A;
    cbn [negb].
  - assert (Adm : admitted (Some u)) by now apply admitted_some.
    assert (SF : forall tza, fixed_offset LocalTZA tza ->
              Some (UTC LocalTZA
                      (LocalTime LocalTZA now - 120 * EsDate.msPerDay))
              = Some (now - 120 * EsDate.msPerDay)).
    { intros tza F. rewrite <- (since_civil LocalTZA).
      now apply (since_fixed LocalTZA tza). }
    rewrite (since_civil LocalTZA).
    destruct (Response.error prof) as [pe|], (Response.data prof) as [p|],
      (Response.error postData) as [m1|], (Response.error logData) as [m2|];
      (split; [intros e H; requests_need H Adm|]);
      (split; [intros uid s k H; which_effect H;
               injection H as <- <- <-; eauto 10|]);
      (split; [intros uid k H; which_effect H;
               injection H as <- <-; eauto|]);
      (split; [intros rows H; which_effect H; injection H as <-;
               split; [exact Adm|reflexivity]|]);
      (split; [intros _; split; [find_effect|reflexivity]|]);
      intros C; contradiction.
  - assert (N : ~ admitted (Some u)).
    { intros C. apply admitted_some in C. congruence. }
    split; [intros e H; requests_need H N|].
    split; [intros uid s k H; which_effect H|].
    split; [intros uid k H; which_effect H|].
    split; [intros rows H; which_effect H|].
    split; [intros C; contradiction|].
    intros _. reflexivity.
Qed.

(** X23. The loads of the feed and of the discussion page are gated in the
    same way: no request to the store unless [getUser] answered with a user
    whose address is in the allow-list. The feed then asks for the latest
    50 posts of everybody; the discussion page asks for the comments of its
    post, at most 300, only when the post was found, and does nothing at
    all for an empty post id. *)
Theorem loadFeed_and_loadPost_are_gated
  (postId : string) (user : option AuthUser.user)
  (myProf : Response.response string)
  (fetched : Response.response (list PostRow.row))
  (postData : Response.response PostRow.row)
  (cData : Response.response (list CommentRow.row)) :
  let feed := loadFeed user myProf fetched in
  let post := loadPost postId user postData cData in
  (forall e, In e feed -> asksStore e = true -> admitted user)
  /\ (forall uid k, In (QueryPosts uid k) feed -> uid = None /\ k = 50)
  /\ (forall posts, In (SetPosts posts) feed ->
        admitted user
        /\ posts = match Response.data fetched with
                   | Some posts => posts
                   | None => []
                   end)
  /\ (forall e, In e post -> asksStore e = true -> admitted user)
  /\ (forall pid k, In (QueryComments pid k) post ->
        pid = postId /\ k = 300 /\ Response.error postData = None
        /\ Response.data postData <> None)
  /\ (postId = ""%string -> post = []).
Proof.
  cbv zeta. unfold loadFeed, loadPost.
  split; [|split; [|split]].
  - destruct user as [u|]; [|intros e H; requests_need H not_admitted_none].
    cbv zeta.
    destruct (JsObject.set_has ALLOWED_EMAILS (emailOf toLowerCase u)) eqn:A;
      cbn [negb].
    + assert (Adm : admitted (Some u)) by now apply admitted_some.
      destruct (Response.error myProf) as [m1|],
        (Response.error fetched) as [m2|];
        intros e H; requests_need H Adm.
    + assert (N : ~ admitted (Some u)).
      { intros C. apply admitted_some in C. congruence. }
      intros e H; requests_need H N.
  - destruct user as [u|]; [|intros uid k H; which_effect H].
    cbv zeta.
    destruct (JsObject.set_has ALLOWED_EMAILS (emailOf toLowerCase u));
      cbn [negb]; [|intros uid k H; which_effect H].
    destruct (Response.error myProf) as [m1|],
      (Response.error fetched) as [m2|];
      intros uid k H; which_effect H; injection H as <- <-; auto.
  - destruct user as [u|]; [|intros posts H; which_effect H].
    cbv zeta.
    destruct (JsObject.set_has ALLOWED_EMAILS (emailOf toLowerCase u)) eqn:A;
      cbn [negb]; [|intros posts H; which_effect H].
    assert (Adm : admitted (Some u)) by now apply admitted_some.
    destruct (Response.error myProf) as [m1|],
      (Response.error fetched) as [m2|];
      intros posts H; which_effect H; injection H as <-; auto.
  - destruct (String.eqb_spec postId "") as [E|E].
    { split; [intros e []|]. split; [intros pid k []|reflexivity]. }
    split; [|split; [|intros C; contradiction]].
    + destruct user as [u|]; [|intros e H; requests_need H not_admitted_none].
      cbv zeta.
      destruct (JsObject.set_has ALLOWED_EMAILS (emailOf toLowerCase u))
        eqn:A; cbn [negb].
      * assert (Adm : admitted (Some u)) by now apply admitted_some.
        destruct (Response.error postData) as [pe|],
          (Response.data postData) as [p|],
          (Response.error cData) as [m2|];
          intros e H; requests_need H Adm.
      * assert (N : ~ admitted (Some u)).
        { intros C. apply admitted_some in C. congruence. }
        intros e H; requests_need H N.
    + destruct user as [u|]; [|intros pid k H; which_effect H].
      cbv zeta.
      destruct (JsObject.set_has ALLOWED_EMAILS (emailOf toLowerCase u));
        cbn [negb]; [|intros pid k H; which_effect H].
      destruct (Response.error postData) as [pe|],
        (Response.data postData) as [p|],
        (Response.error cData) as [m2|];
        intros pid k H; which_effect H; injection H as <- <-;
        repeat split; discriminate.
Qed.

(** X24. [signIn] sends the sign-in request only for an address that,
    trimmed and lower-cased, is in the allow-list, and with that address; it
    navigates to the feed only when that request reported no error. *)
Theorem signIn_is_gated
  (lowerCased : JsText.text -> string)
  (email password : JsText.text) (error : option string) :
  let trace := signIn ALLOWED_EMAILS lowerCased email password error in
  (forall e p, In (SignIn e p) trace ->
     e = lowerCased (JsText.trim email) /\ p = password
     /\ JsObject.set_has ALLOWED_EMAILS e = true)
  /\ (forall path, In (Push path) trace ->
        path = "/"%string /\ error = None
        /\ In (SignIn (lowerCased (JsText.trim email)) password) trace)
  /\ (JsObject.set_has ALLOWED_EMAILS (lowerCased (JsText.trim email)) = false
      -> trace = [SetMsg ""; SetMsg "This account is not allowed."]).
Proof.
  cbv zeta. unfold signIn.
  destruct (JsObject.set_has ALLOWED_EMAILS (lowerCased (JsText.trim email)))
    eqn:A; cbn [negb].
  - split; [|split; [|discriminate]].
    + destruct error; intros e p H; which_effect H;
        injection H as <- <-; auto.
    + destruct error; intros path H; which_effect H.
      injection H as <-. split; [reflexivity|]. split; [reflexivity|].
      right. now left.
  - split; [intros e p H; which_effect H|].
    split; [intros path H; which_effect H|reflexivity].
Qed.

End LoadFacts.

(** ** These statements at sample rows *)

Ltac no_such_row :=
  let l := fresh "l" in
  let t := fresh "t" in
  let Hl := fresh "Hl" in
  let T := fresh "T" in
  let E := fresh "E" in
  intros (l & t & Hl & T & E);
  repeat (destruct Hl as [<-|Hl];
          [injection T as <-; vm_compute in E; discriminate E|]);
  exact Hl.

Ltac row_on l t :=
  exists l, t; split; [simpl; auto 10|split; [reflexivity|vm_compute; reflexivity]].

Lemma streak_is_length_of_run_witness :
  keeps_days Sample.zone
  /\ streak Sample.zone 10 MoreSamples.with_gap Sample.now = Some 2%nat.
Proof.
  split; [exact sample_zone_keeps_days|].
  destruct (streak_is_length_of_run Sample.zone MoreSamples.with_gap
              Sample.now 10 2 sample_zone_keeps_days) as [T _]; [simpl; lia|].
  apply T.
  - row_on Sample.today_row (Sample.utc 2024 4 15 2 0).
  - split.
    + intros i Hi.
      assert (C : i = 0 \/ i = 1) by lia. destruct C as [-> | ->].
      * row_on Sample.today_row (Sample.utc 2024 4 15 2 0).
      * row_on Sample.tuesday_row (Sample.utc 2024 4 14 4 0).
    + no_such_row.
Defined.

Lemma streak_zero_iff_witness :
  keeps_days Sample.zone
  /\ streak Sample.zone 10 MoreSamples.sunday_only Sample.now = Some 0%nat.
Proof.
  split; [exact sample_zone_keeps_days|].
  apply (streak_zero_iff Sample.zone MoreSamples.sunday_only Sample.now 10
           sample_zone_keeps_days);
    [simpl; lia|].
  split; no_such_row.
Defined.

Lemma streak_depends_on_logged_days_witness :
  streak Sample.zone 10 Sample.two_days Sample.now
  = streak Sample.zone 10 MoreSamples.two_days_once Sample.now.
Proof.
  apply (streak_depends_on_logged_days Sample.zone).
  intros d. split; intros (l & t & Hl & T & E); exists l, t;
    (split; [|now split]); simpl in *; intuition.
Defined.

Lemma streak_bounded_by_lookback_witness :
  keeps_days Sample.zone
  /\ days_in_order Sample.zone
  /\ exists s, streak Sample.zone 10 Sample.both_owners Sample.now = Some s
               /\ Z.of_nat s <= 121.
Proof.
  split; [exact sample_zone_keeps_days|].
  split; [exact sample_zone_in_order|].
  destruct (streak_bounded_by_lookback Sample.zone Sample.both_owners
              Sample.now Sample.now 10 sample_zone_keeps_days
              sample_zone_in_order) as (_ & _ & _ & s & S & B).
  - lia.
  - intros l t s Hl T Hs. vm_compute in Hs. injection Hs as <-.
    simpl in Hl.
    repeat (destruct Hl as [<-|Hl];
            [injection T as <-; vm_compute; discriminate|]).
    destruct Hl.
  - simpl. lia.
  - exists s. split; [exact S|]. lia.
Defined.

(** New York, the week of Monday 28 October 2024, in which the clocks went
    back: an instant 168 hours and 30 minutes after the week start, 23:30
    on the Sunday, still has that week start. *)
Lemma startOfWeek_constant_over_week_witness :
  keeps_days MoreSamples.new_york_2024
  /\ startOfWeekMondayLocal MoreSamples.new_york_2024
       (Some MoreSamples.long_sunday_night) = Some 1730088000000
  /\ MoreSamples.long_sunday_night
     = 1730088000000 + 7 * EsDate.msPerDay + 1800000
  /\ startOfWeekMondayLocal MoreSamples.new_york_2024 (Some 1730088000000)
     = Some 1730088000000.
Proof.
  split; [exact new_york_keeps_days|].
  destruct (startOfWeek_constant_over_week MoreSamples.new_york_2024
              MoreSamples.long_sunday_night new_york_keeps_days)
    as (r & E & S & _).
  assert (R : r = 1730088000000).
  { assert (C : startOfWeekMondayLocal MoreSamples.new_york_2024
                  (Some MoreSamples.long_sunday_night)
                = Some 1730088000000) by (vm_compute; reflexivity).
    congruence. }
  subst r. split; [exact E|]. split; [vm_compute; reflexivity|exact S].
Defined.

Lemma weeklyLogs_are_whole_local_days_witness :
  keeps_days Sample.zone
  /\ days_begin_at_midnight Sample.zone
  /\ startOfWeekMondayLocal Sample.zone (Some Sample.now) = Some Sample.monday
  /\ forall l, In l (weeklyLogs Sample.both_owners Sample.monday)
        <-> In l Sample.both_owners
            /\ exists t, ActivityRow.occurred_at l = Some t
                         /\ localDay Sample.zone Sample.monday
                            <= localDay Sample.zone t.
Proof.
  split; [exact sample_zone_keeps_days|].
  split; [exact sample_zone_days_begin|].
  destruct (weeklyLogs_are_whole_local_days Sample.zone Sample.both_owners
              Sample.now sample_zone_keeps_days sample_zone_days_begin)
    as (r & E & _ & I & _).
  assert (R : r = Sample.monday).
  { assert (C : startOfWeekMondayLocal Sample.zone (Some Sample.now)
                = Some Sample.monday) by (vm_compute; reflexivity).
    congruence. }
  subst r. split; [exact E|exact I].
Defined.

Lemma dashboard_counts_are_profile_totals_witness :
  Forall (fun u => Summary.counts u
                   = weeklyTotals (rowsOf (Summary.user_id u) Sample.both_owners)
                                  Sample.monday)
    (totalsByUser (weeklyLogs Sample.both_owners Sample.monday)).
Proof.
  apply Forall_forall. intros u Hu.
  apply (dashboard_counts_are_profile_totals Sample.both_owners Sample.monday).
  - each_row ltac:(let H := fresh in intros H; cbv in H; discriminate H).
  - each_row plain_category.
  - exact Hu.
Defined.

(** A row of 10 minutes whose date did not parse, beside a row of 30
    minutes in the week: the profile page counts 40 minutes, the dashboard
    30. *)
Lemma invalid_dates_divide_the_pages_witness :
  Forall (fun l => known (ActivityRow.category l)) MoreSamples.with_undated
  /\ Totals.all (weeklyTotals MoreSamples.with_undated Sample.monday)
     = addAll (JsNumber.of_Z 0) MoreSamples.with_undated
  /\ Totals.all (weeklyTotals MoreSamples.with_undated Sample.monday)
     = JsNumber.of_Z 40
  /\ map Summary.all
       (totalsByUser (weeklyLogs MoreSamples.with_undated Sample.monday))
     = [JsNumber.of_Z 30].
Proof.
  assert (K : Forall (fun l => known (ActivityRow.category l))
                MoreSamples.with_undated) by each_row known_category.
  destruct (invalid_dates_divide_the_pages MoreSamples.with_undated
              Sample.monday K) as ((_ & _ & _ & A) & _).
  split; [exact K|]. split; [exact A|].
  split; vm_compute; reflexivity.
Defined.

(** The sample week has rows of two owners; a week that starts a year
    later has none. *)
Lemma totalsByUser_empty_iff_witness :
  Forall (fun l => known (ActivityRow.category l)) Sample.both_owners
  /\ List.length (totalsByUser (weeklyLogs Sample.both_owners Sample.monday))
     = 2%nat
  /\ totalsByUser
       (weeklyLogs Sample.both_owners (Sample.utc 2025 4 12 18 30)) = [].
Proof.
  assert (K : Forall (fun l => known (ActivityRow.category l))
                Sample.both_owners) by each_row known_category.
  split; [exact K|]. split; [vm_compute; reflexivity|].
  destruct (totalsByUser_empty_iff Sample.both_owners
              (Sample.utc 2025 4 12 18 30) K) as (_ & E & _).
  apply E; reflexivity.
Defined.

Lemma weeklyTotals_integer_sums_witness :
  Totals.all (weeklyTotals Sample.both_owners Sample.monday) = JsNumber.of_Z 75
  /\ same_counters
       (weeklyTotals Sample.both_owners Sample.monday)
       (weeklyTotals MoreSamples.both_owners_shuffled Sample.monday).
Proof.
  destruct (weeklyTotals_integer_sums Sample.both_owners Sample.monday)
    as [(_ & _ & _ & A) P].
  - each_row known_category.
  - each_row ltac:(vm_compute; reflexivity).
  - vm_compute. reflexivity.
  - split; [exact A|]. apply P.
    unfold Sample.both_owners, MoreSamples.both_owners_shuffled.
    apply Permutation_sym, Permutation_cons_app with (l1 := [Sample.today_row; Sample.tuesday_row; Sample.monday_row]) (l2 := []).
    rewrite app_nil_r. apply Permutation_sym.
    apply perm_skip. apply perm_swap.
Defined.

Lemma chartData_lookup_witness :
  JsObject.get
    (ChartData.skill
       (ChartData.values (chartData (totalsByUser Sample.both_owners))))
    "ana"
  = Some (JsNumber.of_Z 45).
Proof.
  destruct (chartData_lookup Sample.both_owners) as (_ & G & _).
  - each_row plain_category.
  - destruct (G (summaryFor Sample.both_owners "ana")) as (_ & S & _).
    + vm_compute. auto.
    + exact S.
Defined.

Lemma cards_show_streak_of_owner_witness :
  keeps_days Sample.zone
  /\ forallb ownId Sample.both_owners = true
  /\ exists r,
       streakByUser Sample.zone 10 Sample.both_owners Sample.now
       = Some (Normal r)
       /\ Forall (fun u =>
                    streak Sample.zone 10
                      (rowsOf (Summary.user_id u) Sample.both_owners)
                      Sample.now
                    = shownStreak r (Summary.user_id u))
            (totalsByUser (weeklyLogs Sample.both_owners Sample.monday))
       /\ shownStreak r "ana" = Some 3%nat.
Proof.
  split; [exact sample_zone_keeps_days|]. split; [reflexivity|].
  destruct (cards_show_streak_of_owner Sample.zone Sample.both_owners
              Sample.monday Sample.now 10 sample_zone_keeps_days)
    as (r & R & _ & C & _).
  - reflexivity.
  - each_row plain_category.
  - simpl. lia.
  - exists r. split; [exact R|]. split.
    + apply Forall_forall. intros u Hu.
      destruct (C u Hu) as (s & A & _ & B). congruence.
    + assert (E : streakByUser Sample.zone 10 Sample.both_owners Sample.now
                  = Some (Normal [("ben"%string, 1%nat);
                                  ("ana"%string, 3%nat)]))
        by (vm_compute; reflexivity).
      rewrite E in R. injection R as <-. reflexivity.
Defined.

Lemma streak_monotone_witness :
  keeps_days Sample.zone
  /\ exists s s',
       streak Sample.zone 10 MoreSamples.sunday_only Sample.now = Some s
       /\ streak Sample.zone 10 Sample.both_owners Sample.now = Some s'
       /\ (s <= s')%nat.
Proof.
  split; [exact sample_zone_keeps_days|].
  apply (streak_monotone Sample.zone MoreSamples.sunday_only Sample.both_owners
           Sample.now 10 sample_zone_keeps_days).
  - intros d (l & t & Hl & T & E). exists l, t.
    split; [|now split]. simpl in *. intuition.
  - simpl. lia.
  - simpl. lia.
Defined.

Lemma first_log_of_today_adds_one_witness :
  keeps_days Sample.zone
  /\ streak Sample.zone 10 (Sample.today_row :: Sample.two_days) Sample.now
     = Some 3%nat.
Proof.
  split; [exact sample_zone_keeps_days|].
  destruct (first_log_of_today_adds_one Sample.zone Sample.two_days
              Sample.today_row (Sample.utc 2024 4 15 2 0) Sample.now 10
              sample_zone_keeps_days)
    as [A _].
  - reflexivity.
  - vm_compute. reflexivity.
  - simpl. lia.
  - destruct A as (s & S1 & S2); [no_such_row|].
    vm_compute in S1. injection S1 as <-. exact S2.
Defined.
